(** * Digital Color Organ and LED Animator (ColorOrgan_2017_v1_0_2.ino)

    A shallow embedding of the sketch and the properties of its
    audio-to-light chain and of its remote-control state machine.

    Number model.  The sketch computes on C [float]/[double] values.  They
    are interpreted here as real numbers ([R]): every arithmetic operation
    and comparison is the exact one, rounding of the binary formats is not
    modelled.  The one place where the sketch relies on a non-finite value,
    [log10(0) = -inf] in the dB scaling, is modelled with an explicit
    extended value ([xfloat]).  [int], [unsigned] and [byte] values are
    integers ([Z]) with the conversions written out. *)

From Stdlib Require Import Reals Lra Lia ZArith List Bool.
Import ListNotations.

Open Scope R_scope.

(** ** Named constants of the sketch *)

Definition NUMBER_STRINGS : nat := 4.
Definition LEDS_PER_STRING : nat := 50.
Definition TOTAL_LEDS : nat := NUMBER_STRINGS * LEDS_PER_STRING.
Definition DC_BIAS : R := 1.65.
Definition MAX_ANALOG : R := 4095.
Definition BRIGHT_LSB : R := 0.0039.
Definition SATURATION_LIMIT : R := 0.45.
Definition SAMPLE_TIME : R := 100 / 1000000.
Definition SAMPLE_SIZE : Z := 320.
Definition UPDATE_PERIOD : R := 32.

Definition MIN_ANIMATION_TIME : Z := 16.
Definition MAX_ANIMATION_TIME : Z := 4096.
Definition MIN_SPARKLE_RATE : Z := 64.
Definition MAX_SPARKLE_RATE : Z := 4096.
Definition HUE_STEPS : R := 64.
Definition FAST_ANIMATION_TIME : Z := 10.

Definition RED_GAIN : R := 5.
Definition GREEN_GAIN : R := 7.
Definition BLUE_GAIN : R := 5.
Definition BLUE_HP_CORNER : R := 10.
Definition BLUE_LP_CORNER : R := 60.
Definition GREEN_LP_CORNER : R := 300.
Definition GREEN_HP_CORNER : R := 300.
Definition RED_HP_CORNER : R := 1200.
Definition DYNAMIC_RANGE : R := 25.
Definition BRIGHTNESS_TAU : R := 60.
Definition AGC_BOOST : R := 30.
Definition AGC_TAU : R := 1.

(** ** Float comparisons

    The C comparisons on floats, as booleans. *)

Definition fgt (a b : R) : bool := if Rgt_dec a b then true else false.
Definition flt (a b : R) : bool := if Rlt_dec a b then true else false.
Definition fge (a b : R) : bool := if Rge_dec a b then true else false.
Definition fle (a b : R) : bool := if Rle_dec a b then true else false.
Definition feq (a b : R) : bool := if Req_dec_T a b then true else false.

Notation "a >? b" := (fgt a b) (at level 70, no associativity) : R_scope.
Notation "a <? b" := (flt a b) (at level 70, no associativity) : R_scope.
Notation "a >=? b" := (fge a b) (at level 70, no associativity) : R_scope.
Notation "a <=? b" := (fle a b) (at level 70, no associativity) : R_scope.
Notation "a =? b" := (feq a b) (at level 70, no associativity) : R_scope.

(** ** Conversions between floats, longs and bytes *)

(** [(long) x]: conversion of a float to an integer truncates towards 0. *)
Definition truncZ (x : R) : Z :=
  if x >=? 0 then Int_part x else (- Int_part (- x))%Z.

(** Arduino's [round(x)] is [((x)>=0?(long)((x)+0.5):(long)((x)-0.5))]. *)
Definition round (x : R) : Z :=
  if x >=? 0 then truncZ (x + 0.5) else truncZ (x - 0.5).

(** [byte(n)]: conversion of an integer to [unsigned char] wraps modulo 256. *)
Definition byte (n : Z) : Z := (n mod 256)%Z.

(** Arithmetic on [unsigned long] (32 bits) wraps modulo 2^32; a signed
    32-bit [int] wraps into [-2^31, 2^31). *)
Definition u32 (n : Z) : Z := (n mod 2 ^ 32)%Z.
Definition int32 (n : Z) : Z := ((n + 2 ^ 31) mod 2 ^ 32 - 2 ^ 31)%Z.

(** Arduino's [abs(x)] is [((x)>0?(x):-(x))]. *)
Definition abs (x : R) : R := if x >? 0 then x else - x.

(** [pow(b, x)] for a positive base [b]. *)
Definition pow (b x : R) : R := Rpower b x.

(** ** makeValid and MakeHueValid *)

Definition makeValid (value : R) : R :=
  let value := if value >? MAX_ANALOG then MAX_ANALOG else value in
  let value := if value <? 0 then 0 else value in
  value.

Definition MakeHueValid (value : R) : R :=
  let value := if value >? 1.0 then 0.0 else value in
  let value := if value <? 0 then 1 else value in
  value.

(** ** Colour records *)

Module float_RGB.
Record t : Type := mk { r : R; g : R; b : R }.
End float_RGB.

Module CRGB.
Record t : Type := mk { r : Z; g : Z; b : Z }.
Definition Black : t := mk 0 0 0.
Definition White : t := mk 255 255 255.
End CRGB.

(** ** Hue: three ramps, each one third of the hue cycle *)

Definition Hue (hue : R) : float_RGB.t :=
  let hue := if hue <? 0.0 then 0.0 else hue in
  let hue := if hue >? 1.0 then 1.0 else hue in
  let slope := MAX_ANALOG / 0.33 in
  let red :=
    if (hue >=? 0.0) && (hue <=? 0.33) then slope * (hue - 0.0)
    else if (hue >? 0.33) && (hue <=? 0.66) then
      MAX_ANALOG - slope * (hue - 0.33)
    else 0.0 in
  let green :=
    if (hue >=? 0.33) && (hue <=? 0.66) then slope * (hue - 0.33)
    else if (hue >? 0.66) && (hue <=? 1) then
      MAX_ANALOG - slope * (hue - 0.66)
    else 0.0 in
  let blue :=
    if (hue >=? 0.66) && (hue <=? 1.0) then slope * (hue - 0.66)
    else if (hue >=? 0.0) && (hue <=? 0.33) then
      MAX_ANALOG - slope * (hue - 0.0)
    else 0.0 in
  float_RGB.mk (makeValid red) (makeValid green) (makeValid blue).

(** ** Program state

    The globals of the sketch.  [currentState] ranges over the enumeration
    of modes; the globals declared for the colour organ (before
    [ShowColorOrgan]), together with [inputBias] and [sampleCount], are
    grouped in [OrganVars].  [redOut], [greenHPout], [greenOut], [blueOut],
    [redBright], [greenBright], [blueBright], [red], [green], [blue] and
    [brightnessAlpha] are assigned before they are read on every pass and
    are bound locally in the functions below.

    Three fields describe the environment rather than a global:
    [analogReads] and [randomCalls] count the calls made so far to
    [analogRead] and [random], which index the input streams, and [output]
    is the list, latest first, of the calls of [FastLED.show()], each with
    the contents of [leds[]] at the call, and of [delay()].  [setup()]
    registers six strings of [LEDS_PER_STRING] LEDs with FastLED, at
    [leds], [leds + 50], ... [leds + 250]; the first four are [leds[]], the
    last two lie past its end and what they are sent is not described
    here. *)

Inductive Mode : Type :=
  | ColorOrgan
  | Rainbow
  | SolidColor
  | RandomColors
  | QuietColor.

Definition Mode_eqb (a b : Mode) : bool :=
  match a, b with
  | ColorOrgan, ColorOrgan | Rainbow, Rainbow | SolidColor, SolidColor
  | RandomColors, RandomColors | QuietColor, QuietColor => true
  | _, _ => false
  end.

Inductive Output : Type :=
  | FastLED_show (frame : list CRGB.t)
  | delay (ms : Z).

Record OrganVars : Type := mkOrgan {
  sampleCount : Z;
  analogReads : nat;
  inputBias : R;
  rawSample : R;
  sampleMax : R;
  inputGain : R;
  audioSample : R;
  redHP : R;
  redHP2 : R;
  redHP3 : R;
  greenLP : R;
  greenLP2 : R;
  greenLP3 : R;
  greenHP : R;
  greenHP2 : R;
  greenHP3 : R;
  blueLP : R;
  blueLP2 : R;
  blueLP3 : R;
  blueHP : R;
  peakRed : R;
  peakGreen : R;
  peakBlue : R;
  toggle : bool
}.

Definition set_sampleCount (v : Z) (o : OrganVars) : OrganVars :=
  {| sampleCount := v; analogReads := analogReads o; inputBias := inputBias o;
  rawSample := rawSample o; sampleMax := sampleMax o; inputGain := inputGain
  o; audioSample := audioSample o; redHP := redHP o; redHP2 := redHP2 o;
  redHP3 := redHP3 o; greenLP := greenLP o; greenLP2 := greenLP2 o; greenLP3
  := greenLP3 o; greenHP := greenHP o; greenHP2 := greenHP2 o; greenHP3 :=
  greenHP3 o; blueLP := blueLP o; blueLP2 := blueLP2 o; blueLP3 := blueLP3 o;
  blueHP := blueHP o; peakRed := peakRed o; peakGreen := peakGreen o; peakBlue
  := peakBlue o; toggle := toggle o |}.

Definition set_inputGain (v : R) (o : OrganVars) : OrganVars :=
  {| sampleCount := sampleCount o; analogReads := analogReads o; inputBias :=
  inputBias o; rawSample := rawSample o; sampleMax := sampleMax o; inputGain
  := v; audioSample := audioSample o; redHP := redHP o; redHP2 := redHP2 o;
  redHP3 := redHP3 o; greenLP := greenLP o; greenLP2 := greenLP2 o; greenLP3
  := greenLP3 o; greenHP := greenHP o; greenHP2 := greenHP2 o; greenHP3 :=
  greenHP3 o; blueLP := blueLP o; blueLP2 := blueLP2 o; blueLP3 := blueLP3 o;
  blueHP := blueHP o; peakRed := peakRed o; peakGreen := peakGreen o; peakBlue
  := peakBlue o; toggle := toggle o |}.

Definition set_sampleMax (v : R) (o : OrganVars) : OrganVars :=
  {| sampleCount := sampleCount o; analogReads := analogReads o; inputBias :=
  inputBias o; rawSample := rawSample o; sampleMax := v; inputGain :=
  inputGain o; audioSample := audioSample o; redHP := redHP o; redHP2 :=
  redHP2 o; redHP3 := redHP3 o; greenLP := greenLP o; greenLP2 := greenLP2 o;
  greenLP3 := greenLP3 o; greenHP := greenHP o; greenHP2 := greenHP2 o;
  greenHP3 := greenHP3 o; blueLP := blueLP o; blueLP2 := blueLP2 o; blueLP3 :=
  blueLP3 o; blueHP := blueHP o; peakRed := peakRed o; peakGreen := peakGreen
  o; peakBlue := peakBlue o; toggle := toggle o |}.

Record State : Type := mkState {
  onOff : bool;
  hue : R;
  saturation : R;
  brightness : R;
  quietRed : R;
  quietBlue : R;
  quietGreen : R;
  sparkle : bool;
  sparklesPerMinute : Z;
  slowAnimationTime : Z;
  quietHue : R;
  quietSaturation : R;
  quietBrightness : R;
  keyCode : Z;
  repeatCount : Z;
  keyTimer : Z;
  leds : list CRGB.t;
  buffer : list float_RGB.t;
  animationTimer : Z;
  slowAnimationTimer : Z;
  currentState : Mode;
  organ : OrganVars;
  randomCalls : nat;
  output : list Output
}.

Definition set_onOff (v : bool) (st : State) : State :=
  {| onOff := v; hue := hue st; saturation := saturation st; brightness :=
  brightness st; quietRed := quietRed st; quietBlue := quietBlue st;
  quietGreen := quietGreen st; sparkle := sparkle st; sparklesPerMinute :=
  sparklesPerMinute st; slowAnimationTime := slowAnimationTime st; quietHue :=
  quietHue st; quietSaturation := quietSaturation st; quietBrightness :=
  quietBrightness st; keyCode := keyCode st; repeatCount := repeatCount st;
  keyTimer := keyTimer st; leds := leds st; buffer := buffer st;
  animationTimer := animationTimer st; slowAnimationTimer :=
  slowAnimationTimer st; currentState := currentState st; organ := organ st;
  randomCalls := randomCalls st; output := output st |}.

Definition set_hue (v : R) (st : State) : State :=
  {| onOff := onOff st; hue := v; saturation := saturation st; brightness :=
  brightness st; quietRed := quietRed st; quietBlue := quietBlue st;
  quietGreen := quietGreen st; sparkle := sparkle st; sparklesPerMinute :=
  sparklesPerMinute st; slowAnimationTime := slowAnimationTime st; quietHue :=
  quietHue st; quietSaturation := quietSaturation st; quietBrightness :=
  quietBrightness st; keyCode := keyCode st; repeatCount := repeatCount st;
  keyTimer := keyTimer st; leds := leds st; buffer := buffer st;
  animationTimer := animationTimer st; slowAnimationTimer :=
  slowAnimationTimer st; currentState := currentState st; organ := organ st;
  randomCalls := randomCalls st; output := output st |}.

Definition set_saturation (v : R) (st : State) : State :=
  {| onOff := onOff st; hue := hue st; saturation := v; brightness :=
  brightness st; quietRed := quietRed st; quietBlue := quietBlue st;
  quietGreen := quietGreen st; sparkle := sparkle st; sparklesPerMinute :=
  sparklesPerMinute st; slowAnimationTime := slowAnimationTime st; quietHue :=
  quietHue st; quietSaturation := quietSaturation st; quietBrightness :=
  quietBrightness st; keyCode := keyCode st; repeatCount := repeatCount st;
  keyTimer := keyTimer st; leds := leds st; buffer := buffer st;
  animationTimer := animationTimer st; slowAnimationTimer :=
  slowAnimationTimer st; currentState := currentState st; organ := organ st;
  randomCalls := randomCalls st; output := output st |}.

Definition set_brightness (v : R) (st : State) : State :=
  {| onOff := onOff st; hue := hue st; saturation := saturation st; brightness
  := v; quietRed := quietRed st; quietBlue := quietBlue st; quietGreen :=
  quietGreen st; sparkle := sparkle st; sparklesPerMinute := sparklesPerMinute
  st; slowAnimationTime := slowAnimationTime st; quietHue := quietHue st;
  quietSaturation := quietSaturation st; quietBrightness := quietBrightness
  st; keyCode := keyCode st; repeatCount := repeatCount st; keyTimer :=
  keyTimer st; leds := leds st; buffer := buffer st; animationTimer :=
  animationTimer st; slowAnimationTimer := slowAnimationTimer st; currentState
  := currentState st; organ := organ st; randomCalls := randomCalls st; output
  := output st |}.

Definition set_sparkle (v : bool) (st : State) : State :=
  {| onOff := onOff st; hue := hue st; saturation := saturation st; brightness
  := brightness st; quietRed := quietRed st; quietBlue := quietBlue st;
  quietGreen := quietGreen st; sparkle := v; sparklesPerMinute :=
  sparklesPerMinute st; slowAnimationTime := slowAnimationTime st; quietHue :=
  quietHue st; quietSaturation := quietSaturation st; quietBrightness :=
  quietBrightness st; keyCode := keyCode st; repeatCount := repeatCount st;
  keyTimer := keyTimer st; leds := leds st; buffer := buffer st;
  animationTimer := animationTimer st; slowAnimationTimer :=
  slowAnimationTimer st; currentState := currentState st; organ := organ st;
  randomCalls := randomCalls st; output := output st |}.

Definition set_sparklesPerMinute (v : Z) (st : State) : State :=
  {| onOff := onOff st; hue := hue st; saturation := saturation st; brightness
  := brightness st; quietRed := quietRed st; quietBlue := quietBlue st;
  quietGreen := quietGreen st; sparkle := sparkle st; sparklesPerMinute := v;
  slowAnimationTime := slowAnimationTime st; quietHue := quietHue st;
  quietSaturation := quietSaturation st; quietBrightness := quietBrightness
  st; keyCode := keyCode st; repeatCount := repeatCount st; keyTimer :=
  keyTimer st; leds := leds st; buffer := buffer st; animationTimer :=
  animationTimer st; slowAnimationTimer := slowAnimationTimer st; currentState
  := currentState st; organ := organ st; randomCalls := randomCalls st; output
  := output st |}.

Definition set_slowAnimationTime (v : Z) (st : State) : State :=
  {| onOff := onOff st; hue := hue st; saturation := saturation st; brightness
  := brightness st; quietRed := quietRed st; quietBlue := quietBlue st;
  quietGreen := quietGreen st; sparkle := sparkle st; sparklesPerMinute :=
  sparklesPerMinute st; slowAnimationTime := v; quietHue := quietHue st;
  quietSaturation := quietSaturation st; quietBrightness := quietBrightness
  st; keyCode := keyCode st; repeatCount := repeatCount st; keyTimer :=
  keyTimer st; leds := leds st; buffer := buffer st; animationTimer :=
  animationTimer st; slowAnimationTimer := slowAnimationTimer st; currentState
  := currentState st; organ := organ st; randomCalls := randomCalls st; output
  := output st |}.

Definition set_keyCode (v : Z) (st : State) : State :=
  {| onOff := onOff st; hue := hue st; saturation := saturation st; brightness
  := brightness st; quietRed := quietRed st; quietBlue := quietBlue st;
  quietGreen := quietGreen st; sparkle := sparkle st; sparklesPerMinute :=
  sparklesPerMinute st; slowAnimationTime := slowAnimationTime st; quietHue :=
  quietHue st; quietSaturation := quietSaturation st; quietBrightness :=
  quietBrightness st; keyCode := v; repeatCount := repeatCount st; keyTimer :=
  keyTimer st; leds := leds st; buffer := buffer st; animationTimer :=
  animationTimer st; slowAnimationTimer := slowAnimationTimer st; currentState
  := currentState st; organ := organ st; randomCalls := randomCalls st; output
  := output st |}.

Definition set_repeatCount (v : Z) (st : State) : State :=
  {| onOff := onOff st; hue := hue st; saturation := saturation st; brightness
  := brightness st; quietRed := quietRed st; quietBlue := quietBlue st;
  quietGreen := quietGreen st; sparkle := sparkle st; sparklesPerMinute :=
  sparklesPerMinute st; slowAnimationTime := slowAnimationTime st; quietHue :=
  quietHue st; quietSaturation := quietSaturation st; quietBrightness :=
  quietBrightness st; keyCode := keyCode st; repeatCount := v; keyTimer :=
  keyTimer st; leds := leds st; buffer := buffer st; animationTimer :=
  animationTimer st; slowAnimationTimer := slowAnimationTimer st; currentState
  := currentState st; organ := organ st; randomCalls := randomCalls st; output
  := output st |}.

Definition set_keyTimer (v : Z) (st : State) : State :=
  {| onOff := onOff st; hue := hue st; saturation := saturation st; brightness
  := brightness st; quietRed := quietRed st; quietBlue := quietBlue st;
  quietGreen := quietGreen st; sparkle := sparkle st; sparklesPerMinute :=
  sparklesPerMinute st; slowAnimationTime := slowAnimationTime st; quietHue :=
  quietHue st; quietSaturation := quietSaturation st; quietBrightness :=
  quietBrightness st; keyCode := keyCode st; repeatCount := repeatCount st;
  keyTimer := v; leds := leds st; buffer := buffer st; animationTimer :=
  animationTimer st; slowAnimationTimer := slowAnimationTimer st; currentState
  := currentState st; organ := organ st; randomCalls := randomCalls st; output
  := output st |}.

Definition set_leds (v : list CRGB.t) (st : State) : State :=
  {| onOff := onOff st; hue := hue st; saturation := saturation st; brightness
  := brightness st; quietRed := quietRed st; quietBlue := quietBlue st;
  quietGreen := quietGreen st; sparkle := sparkle st; sparklesPerMinute :=
  sparklesPerMinute st; slowAnimationTime := slowAnimationTime st; quietHue :=
  quietHue st; quietSaturation := quietSaturation st; quietBrightness :=
  quietBrightness st; keyCode := keyCode st; repeatCount := repeatCount st;
  keyTimer := keyTimer st; leds := v; buffer := buffer st; animationTimer :=
  animationTimer st; slowAnimationTimer := slowAnimationTimer st; currentState
  := currentState st; organ := organ st; randomCalls := randomCalls st; output
  := output st |}.

Definition set_buffer (v : list float_RGB.t) (st : State) : State :=
  {| onOff := onOff st; hue := hue st; saturation := saturation st; brightness
  := brightness st; quietRed := quietRed st; quietBlue := quietBlue st;
  quietGreen := quietGreen st; sparkle := sparkle st; sparklesPerMinute :=
  sparklesPerMinute st; slowAnimationTime := slowAnimationTime st; quietHue :=
  quietHue st; quietSaturation := quietSaturation st; quietBrightness :=
  quietBrightness st; keyCode := keyCode st; repeatCount := repeatCount st;
  keyTimer := keyTimer st; leds := leds st; buffer := v; animationTimer :=
  animationTimer st; slowAnimationTimer := slowAnimationTimer st; currentState
  := currentState st; organ := organ st; randomCalls := randomCalls st; output
  := output st |}.

Definition set_animationTimer (v : Z) (st : State) : State :=
  {| onOff := onOff st; hue := hue st; saturation := saturation st; brightness
  := brightness st; quietRed := quietRed st; quietBlue := quietBlue st;
  quietGreen := quietGreen st; sparkle := sparkle st; sparklesPerMinute :=
  sparklesPerMinute st; slowAnimationTime := slowAnimationTime st; quietHue :=
  quietHue st; quietSaturation := quietSaturation st; quietBrightness :=
  quietBrightness st; keyCode := keyCode st; repeatCount := repeatCount st;
  keyTimer := keyTimer st; leds := leds st; buffer := buffer st;
  animationTimer := v; slowAnimationTimer := slowAnimationTimer st;
  currentState := currentState st; organ := organ st; randomCalls :=
  randomCalls st; output := output st |}.

Definition set_slowAnimationTimer (v : Z) (st : State) : State :=
  {| onOff := onOff st; hue := hue st; saturation := saturation st; brightness
  := brightness st; quietRed := quietRed st; quietBlue := quietBlue st;
  quietGreen := quietGreen st; sparkle := sparkle st; sparklesPerMinute :=
  sparklesPerMinute st; slowAnimationTime := slowAnimationTime st; quietHue :=
  quietHue st; quietSaturation := quietSaturation st; quietBrightness :=
  quietBrightness st; keyCode := keyCode st; repeatCount := repeatCount st;
  keyTimer := keyTimer st; leds := leds st; buffer := buffer st;
  animationTimer := animationTimer st; slowAnimationTimer := v; currentState
  := currentState st; organ := organ st; randomCalls := randomCalls st; output
  := output st |}.

Definition set_currentState (v : Mode) (st : State) : State :=
  {| onOff := onOff st; hue := hue st; saturation := saturation st; brightness
  := brightness st; quietRed := quietRed st; quietBlue := quietBlue st;
  quietGreen := quietGreen st; sparkle := sparkle st; sparklesPerMinute :=
  sparklesPerMinute st; slowAnimationTime := slowAnimationTime st; quietHue :=
  quietHue st; quietSaturation := quietSaturation st; quietBrightness :=
  quietBrightness st; keyCode := keyCode st; repeatCount := repeatCount st;
  keyTimer := keyTimer st; leds := leds st; buffer := buffer st;
  animationTimer := animationTimer st; slowAnimationTimer :=
  slowAnimationTimer st; currentState := v; organ := organ st; randomCalls :=
  randomCalls st; output := output st |}.

Definition set_organ (v : OrganVars) (st : State) : State :=
  {| onOff := onOff st; hue := hue st; saturation := saturation st; brightness
  := brightness st; quietRed := quietRed st; quietBlue := quietBlue st;
  quietGreen := quietGreen st; sparkle := sparkle st; sparklesPerMinute :=
  sparklesPerMinute st; slowAnimationTime := slowAnimationTime st; quietHue :=
  quietHue st; quietSaturation := quietSaturation st; quietBrightness :=
  quietBrightness st; keyCode := keyCode st; repeatCount := repeatCount st;
  keyTimer := keyTimer st; leds := leds st; buffer := buffer st;
  animationTimer := animationTimer st; slowAnimationTimer :=
  slowAnimationTimer st; currentState := currentState st; organ := v;
  randomCalls := randomCalls st; output := output st |}.

Definition set_randomCalls (v : nat) (st : State) : State :=
  {| onOff := onOff st; hue := hue st; saturation := saturation st; brightness
  := brightness st; quietRed := quietRed st; quietBlue := quietBlue st;
  quietGreen := quietGreen st; sparkle := sparkle st; sparklesPerMinute :=
  sparklesPerMinute st; slowAnimationTime := slowAnimationTime st; quietHue :=
  quietHue st; quietSaturation := quietSaturation st; quietBrightness :=
  quietBrightness st; keyCode := keyCode st; repeatCount := repeatCount st;
  keyTimer := keyTimer st; leds := leds st; buffer := buffer st;
  animationTimer := animationTimer st; slowAnimationTimer :=
  slowAnimationTimer st; currentState := currentState st; organ := organ st;
  randomCalls := v; output := output st |}.

Definition set_output (v : list Output) (st : State) : State :=
  {| onOff := onOff st; hue := hue st; saturation := saturation st; brightness
  := brightness st; quietRed := quietRed st; quietBlue := quietBlue st;
  quietGreen := quietGreen st; sparkle := sparkle st; sparklesPerMinute :=
  sparklesPerMinute st; slowAnimationTime := slowAnimationTime st; quietHue :=
  quietHue st; quietSaturation := quietSaturation st; quietBrightness :=
  quietBrightness st; keyCode := keyCode st; repeatCount := repeatCount st;
  keyTimer := keyTimer st; leds := leds st; buffer := buffer st;
  animationTimer := animationTimer st; slowAnimationTimer :=
  slowAnimationTimer st; currentState := currentState st; organ := organ st;
  randomCalls := randomCalls st; output := v |}.

Definition set_quiet (h s v : R) (rgb : float_RGB.t) (st : State) : State :=
  {| onOff := onOff st; hue := hue st; saturation := saturation st;
     brightness := brightness st; quietRed := float_RGB.r rgb;
     quietBlue := float_RGB.b rgb; quietGreen := float_RGB.g rgb;
     sparkle := sparkle st; sparklesPerMinute := sparklesPerMinute st;
     slowAnimationTime := slowAnimationTime st; quietHue := h;
     quietSaturation := s; quietBrightness := v; keyCode := keyCode st;
     repeatCount := repeatCount st; keyTimer := keyTimer st;
     leds := leds st; buffer := buffer st;
     animationTimer := animationTimer st;
     slowAnimationTimer := slowAnimationTimer st;
     currentState := currentState st; organ := organ st;
     randomCalls := randomCalls st; output := output st |}.

(** ** The environment of one pass of [loop()]

    [millis] is the value of [millis()] during the pass, [frame] the frame
    the IR receiver holds, if any ([getResults()] is true), with the
    decoder's [protocolNum] and [value]; [analogRead k] is the [k]-th ADC
    reading and [rand k] the [k]-th raw draw of the random generator. *)

Record IRFrame : Type := mkFrame { protocolNum : Z; value : Z }.

Record Env : Type := mkEnv {
  millis : Z;
  frame : option IRFrame;
  analogRead : nat -> Z;
  rand : nat -> Z
}.

(** [random(lo, hi)]: a value in [lo, hi), drawn from the raw stream. *)
Definition random (e : Env) (lo hi : Z) (st : State) : Z * State :=
  ((lo + rand e (randomCalls st) mod (hi - lo))%Z,
   set_randomCalls (S (randomCalls st)) st).

(** ** Display primitives *)

(** [FastLED.show()]: the call is recorded with [leds[]] as it is then. *)
Definition show (st : State) : State :=
  set_output (FastLED_show (leds st) :: output st) st.

(** [for (i = 0; i < TOTAL_LEDS; i++) leds[i] = (0, 0, 0)]. *)
Definition leds_off (st : State) : State :=
  set_leds (map (fun _ => CRGB.Black) (seq 0 TOTAL_LEDS)) st.

Definition zeroRGB : float_RGB.t := float_RGB.mk 0 0 0.

(** One LED of [ShowBuffer]: scale the three floats to 8 bits, then lift
    blue by one on a dim white ([r == g == b < 23], not black). *)
Definition quantize (c : float_RGB.t) : CRGB.t :=
  let r := byte (round (float_RGB.r c / 16.6)) in
  let g := byte (round (float_RGB.g c / 16.6)) in
  let b := byte (round (float_RGB.b c / 16.6)) in
  if (r =? g)%Z && (g =? b)%Z && (b <? 23)%Z && negb (b =? 0)%Z
  then CRGB.mk r g (byte (b + 1))
  else CRGB.mk r g b.

Definition ShowBuffer (st : State) : State :=
  show (set_leds
          (map (fun i => quantize (nth i (buffer st) zeroRGB))
               (seq 0 TOTAL_LEDS)) st).

Definition Blink (st : State) : State :=
  let st := show (leds_off st) in
  let st := set_output (delay 100 :: output st) st in
  ShowBuffer st.

(** ** Fixed effects *)

(** The saturation and brightness lines shared by [CreateRainbow],
    [CreateSolidColor], [CreateRandom] and [UpdateQuietColor]. *)
Definition shade (saturation brightness : R) (c : float_RGB.t) : float_RGB.t :=
  let red := (1 - saturation) * MAX_ANALOG + saturation * float_RGB.r c in
  let green := (1 - saturation) * MAX_ANALOG + saturation * float_RGB.g c in
  let blue := (1 - saturation) * MAX_ANALOG + saturation * float_RGB.b c in
  float_RGB.mk (makeValid (red * brightness)) (makeValid (green * brightness))
               (makeValid (blue * brightness)).

Definition CreateSolidColor (hue saturation brightness : R) (st : State)
  : State :=
  let c := shade saturation brightness (Hue hue) in
  set_buffer (map (fun _ => c) (seq 0 TOTAL_LEDS)) st.

(** The body of the loop of [CreateRainbow], for [n] LEDs from [hue]. *)
Fixpoint rainbow_leds (n : nat) (stepSize ratio hue saturation brightness : R)
  : list float_RGB.t :=
  match n with
  | O => []
  | S n' =>
      let hue :=
        if (hue >? 0.333) && (hue <? 0.666)
        then MakeHueValid (hue + stepSize / ratio)
        else MakeHueValid (hue + stepSize) in
      shade saturation brightness (Hue hue)
        :: rainbow_leds n' stepSize ratio hue saturation brightness
  end.

Definition CreateRainbow (hue saturation brightness : R) (st : State)
  : State :=
  let steps := Z.of_nat TOTAL_LEDS in
  let fastSteps := truncZ (IZR steps * 0.33) in
  let slowSteps := (steps - fastSteps)%Z in
  let ratio := 3%Z in
  let stepSize := 1.0 / (IZR (slowSteps ÷ ratio) + IZR fastSteps) in
  set_buffer
    (rainbow_leds TOTAL_LEDS stepSize (IZR ratio) hue saturation brightness) st.

(** The loop of [CreateRandom]: LED [i] takes the draw after those of the
    LEDs before it. *)
Fixpoint random_leds (e : Env) (n : nat) (saturation brightness : R)
  (st : State) : list float_RGB.t * State :=
  match n with
  | O => ([], st)
  | S n' =>
      let (x, st) := random e 0 10000 st in
      let c := shade saturation brightness (Hue (IZR x / 10000.0)) in
      let (l, st) := random_leds e n' saturation brightness st in
      (c :: l, st)
  end.

Definition CreateRandom (e : Env) (saturation brightness : R) (st : State)
  : State :=
  let (l, st) := random_leds e TOTAL_LEDS saturation brightness st in
  set_buffer l st.

(** [leds[i] = c]; the index is always below [TOTAL_LEDS]. *)
Fixpoint list_set {A : Type} (i : nat) (c : A) (l : list A) : list A :=
  match l, i with
  | [], _ => []
  | _ :: t, O => c :: t
  | h :: t, S i' => h :: list_set i' c t
  end.

Definition Sparkle (e : Env) (st : State) : State :=
  let (x, st) := random e 0 6000 st in
  if (x <? sparklesPerMinute st)%Z then
    let (i, st) := random e 0 (Z.of_nat TOTAL_LEDS) st in
    let i := Z.to_nat i in
    let saved := nth i (leds st) CRGB.Black in
    let st := show (set_leds (list_set i CRGB.White (leds st)) st) in
    show (set_leds (list_set i saved (leds st)) st)
  else st.

(** ** The quiet colour *)

Definition UpdateQuietColor (st : State) : State :=
  set_quiet (hue st) (saturation st) (brightness st)
            (shade (saturation st) (brightness st) (Hue (hue st))) st.

(** ** Colour organ: values computed once in [setup()] *)

Definition redHPalpha : R :=
  1 - pow 2.71828 (- SAMPLE_TIME * 2 * PI * RED_HP_CORNER).
Definition greenHPalpha : R :=
  1 - pow 2.71828 (- SAMPLE_TIME * 2 * PI * GREEN_HP_CORNER).
Definition greenLPalpha : R :=
  1 - pow 2.71828 (- SAMPLE_TIME * 2 * PI * GREEN_LP_CORNER).
Definition blueLPalpha : R :=
  1 - pow 2.71828 (- SAMPLE_TIME * 2 * PI * BLUE_LP_CORNER).
Definition blueHPalpha : R :=
  1 - pow 2.71828 (- SAMPLE_TIME * 2 * PI * BLUE_HP_CORNER).
Definition AGCboost : R := pow 10 (AGC_BOOST / 20).
Definition biasLpAlpha : R := 1 - pow 2.71828 (- UPDATE_PERIOD * 0.001 / 1).
Definition AGCalpha : R := UPDATE_PERIOD * 0.001 / AGC_TAU.

(** [hanningWindow[i] = 0.5 * (1.0 - cos(2 * PI * i / (SAMPLE_SIZE - 1)))]
    for [0 <= i < SAMPLE_SIZE]. *)
Definition hanningWindow : list R :=
  map (fun i => 0.5 * (1.0 - cos (2 * PI * INR i / IZR (SAMPLE_SIZE - 1))))
      (seq 0 (Z.to_nat SAMPLE_SIZE)).

(** An array read; [None] when the index is outside the array. *)
Definition array_get (a : list R) (i : Z) : option R :=
  if (i <? 0)%Z then None else nth_error a (Z.to_nat i).

(** ** Colour organ: one sample *)

(** The AGC lines of the sampling loop: the peak of the block so far and
    the gain, from the de-biased sample. *)
Definition AGC (rawSample sampleMax inputGain : R) : R * R :=
  if abs rawSample >? sampleMax then
    let sampleMax := abs rawSample in
    if inputGain * sampleMax >? MAX_ANALOG / 2 then
      (sampleMax, MAX_ANALOG / 2 / sampleMax)
    else (sampleMax, inputGain)
  else (sampleMax, inputGain).

(** Full-wave peak detection with decay. *)
Definition peak_detect (out peak brightnessAlpha : R) : R :=
  if abs out >? peak then abs out else peak * (1 - brightnessAlpha).

(** The body of the sampling loop; [sampleCount] is already incremented. *)
Definition sample (e : Env) (o : OrganVars) : option OrganVars :=
  let rawSample := IZR (analogRead e (analogReads o)) in
  let inputBias := rawSample * biasLpAlpha + inputBias o * (1 - biasLpAlpha) in
  let rawSample := rawSample - inputBias in
  let (sampleMax, inputGain) := AGC rawSample (sampleMax o) (inputGain o) in
  let audioSample := rawSample * inputGain in
  match array_get hanningWindow (sampleCount o - 1) with
  | None => None
  | Some w =>
    let audioSample := audioSample * w in
    let redHP := redHPalpha * audioSample + (1 - redHPalpha) * redHP o in
    let redOut := audioSample - redHP in
    let redHP2 := redHPalpha * redOut + (1 - redHPalpha) * redHP2 o in
    let redOut := redOut - redHP2 in
    let redHP3 := redHPalpha * redOut + (1 - redHPalpha) * redHP3 o in
    let redOut := redOut - redHP3 in
    let greenLP := greenLPalpha * audioSample + (1 - greenLPalpha) * greenLP o in
    let greenLP2 := greenLPalpha * greenLP + (1 - greenLPalpha) * greenLP2 o in
    let greenLP3 := greenLPalpha * greenLP2 + (1 - greenLPalpha) * greenLP3 o in
    let greenHP := greenHPalpha * greenLP3 + (1 - greenHPalpha) * greenHP o in
    let greenHPout := greenLP3 - greenHP in
    let greenHP2 :=
      greenHPalpha * greenHPout + (1 - greenHPalpha) * greenHP2 o in
    let greenHPout := greenHPout - greenHP2 in
    let greenHP3 :=
      greenHPalpha * greenHPout + (1 - greenHPalpha) * greenHP3 o in
    let greenOut := greenHPout - greenHP3 in
    let blueLP := blueLPalpha * audioSample + (1 - blueLPalpha) * blueLP o in
    let blueLP2 := blueLPalpha * blueLP + (1 - blueLPalpha) * blueLP2 o in
    let blueLP3 := blueLPalpha * blueLP2 + (1 - blueLPalpha) * blueLP3 o in
    let blueHP := blueHPalpha * blueLP3 + (1 - blueHPalpha) * blueHP o in
    let blueOut := blueLP3 - blueHP in
    let brightnessAlpha :=
      1 - pow 2.71828 (- UPDATE_PERIOD * 0.001 / BRIGHTNESS_TAU) in
    Some {| sampleCount := sampleCount o;
            analogReads := S (analogReads o);
            inputBias := inputBias;
            rawSample := rawSample;
            sampleMax := sampleMax;
            inputGain := inputGain;
            audioSample := audioSample;
            redHP := redHP; redHP2 := redHP2; redHP3 := redHP3;
            greenLP := greenLP; greenLP2 := greenLP2; greenLP3 := greenLP3;
            greenHP := greenHP; greenHP2 := greenHP2; greenHP3 := greenHP3;
            blueLP := blueLP; blueLP2 := blueLP2; blueLP3 := blueLP3;
            blueHP := blueHP;
            peakRed := peak_detect redOut (peakRed o) brightnessAlpha;
            peakGreen := peak_detect greenOut (peakGreen o) brightnessAlpha;
            peakBlue := peak_detect blueOut (peakBlue o) brightnessAlpha;
            toggle := negb (toggle o) |}
  end.

(** ** Colour organ: the sampling loop

    [while (sampleCount++ < SAMPLE_SIZE) { ... }], run for at most [fuel]
    tests of its condition.  [Done] is the state when the loop has ended,
    [Interrupted] the state reached when the fuel ran out first, that is
    after [fuel] passes of the body, and [OutOfBounds] an access outside
    [hanningWindow]. *)

Inductive Outcome : Type :=
  | Done (o : OrganVars)
  | Interrupted (o : OrganVars)
  | OutOfBounds.

Fixpoint sampling_loop (e : Env) (fuel : nat) (o : OrganVars) : Outcome :=
  match fuel with
  | O => Interrupted o
  | S fuel' =>
      let continue := (sampleCount o <? SAMPLE_SIZE)%Z in
      let o := set_sampleCount (int32 (sampleCount o + 1)) o in
      if continue then
        match sample e o with
        | Some o' => sampling_loop e fuel' o'
        | None => OutOfBounds
        end
      else Done o
  end.

(** ** Colour organ: brightness of a block *)

(** The value of a C float expression that may be infinite or undefined. *)
Inductive xfloat : Type :=
  | Fin (x : R)
  | NegInf
  | NaN.

(** [log10(x)]: minus infinity at 0, undefined below. *)
Definition log10 (x : R) : xfloat :=
  if x >? 0 then Fin (ln x / ln 10)
  else if x =? 0 then NegInf
  else NaN.

(** [255. - 255. * 20 * log10(bright / MAX_ANALOG) / (-DYNAMIC_RANGE)].
    At minus infinity the product is minus infinity, the quotient by the
    negative range plus infinity and the difference minus infinity. *)
Definition dB_scale (bright : R) : xfloat :=
  match log10 (bright / MAX_ANALOG) with
  | Fin l => Fin (255 - 255 * 20 * l / (- DYNAMIC_RANGE))
  | NegInf => NegInf
  | NaN => NaN
  end.

(** [x < 0.], [x == y], [x < 23], [x != 0] and [x++] on such values. *)
Definition xlt (x : xfloat) (c : R) : bool :=
  match x with Fin v => v <? c | NegInf => true | NaN => false end.
Definition xeq (x y : xfloat) : bool :=
  match x, y with
  | Fin v, Fin w => v =? w
  | NegInf, NegInf => true
  | _, _ => false
  end.
Definition xincr (x : xfloat) : xfloat :=
  match x with Fin v => Fin (v + 1) | _ => x end.

(** [if (x < 0.) x = byte(round(quiet / 16.6))]. *)
Definition quiet_default (x : xfloat) (quiet : R) : xfloat :=
  if xlt x 0 then Fin (IZR (byte (round (quiet / 16.6)))) else x.

(** [(byte) x] of a float: defined for values that truncate into a byte. *)
Definition cast_byte (x : xfloat) : option Z :=
  match x with
  | Fin v => if (v >? -1) && (v <? 256) then Some (truncZ v) else None
  | _ => None
  end.

(** Gain, clamp, dB scale and quiet colour of one channel. *)
Definition channel_brightness (gain peak quiet : R) : xfloat :=
  let bright := gain * peak in
  let bright := makeValid bright in
  quiet_default (dB_scale bright) quiet.

(** [red == green && green == blue && blue < 23 && blue != 0]. *)
Definition dim_white (red green blue : xfloat) : bool :=
  xeq red green && xeq green blue && xlt blue 23 && negb (xeq blue (Fin 0)).

(** The three values sent to every LED after a block: the channels, then
    the lift of blue by one on a dim white. *)
Definition organ_rgb (o : OrganVars) (quietRed quietGreen quietBlue : R)
  : xfloat * xfloat * xfloat :=
  let red := channel_brightness RED_GAIN (peakRed o) quietRed in
  let green := channel_brightness GREEN_GAIN (peakGreen o) quietGreen in
  let blue := channel_brightness BLUE_GAIN (peakBlue o) quietBlue in
  let blue := if dim_white red green blue then xincr blue else blue in
  (red, green, blue).

(** The slow recovery of the AGC gain after a block. *)
Definition AGC_recover (o : OrganVars) : OrganVars :=
  if inputGain o <? AGCboost
  then set_inputGain (AGCboost * AGCalpha + (1 - AGCalpha) * inputGain o) o
  else o.

Definition ShowColorOrgan (e : Env) (st : State) : option State :=
  match sampling_loop e (S (Z.to_nat SAMPLE_SIZE))
                      (set_sampleCount 0 (organ st)) with
  | Done o =>
      let o := AGC_recover o in
      let o := set_sampleMax 0 o in
      let '(red, green, blue) :=
        organ_rgb o (quietRed st) (quietGreen st) (quietBlue st) in
      match cast_byte red, cast_byte green, cast_byte blue with
      | Some r, Some g, Some b =>
          Some (show (set_leds (map (fun _ => CRGB.mk r g b)
                                    (seq 0 TOTAL_LEDS))
                               (set_organ o st)))
      | _, _, _ => None
      end
  | _ => None
  end.

(** ** Remote control: the handlers of [switch (keyCode)] *)

(** Re-pressing the key of the current mode: start the animation at
    [first] ms per step, or double the time per step up to
    [MAX_ANIMATION_TIME], with a blink at the limit. *)
Definition slow_animation (first : Z) (e : Env) (st : State) : State :=
  if (slowAnimationTime st =? 0)%Z then
    set_slowAnimationTimer (millis e) (set_slowAnimationTime first st)
  else
    let st := set_slowAnimationTime (int32 (slowAnimationTime st * 2)) st in
    if (slowAnimationTime st >? MAX_ANIMATION_TIME)%Z then
      Blink (set_slowAnimationTime MAX_ANIMATION_TIME st)
    else st.

(** The hue one step further, a third of a step between red and green. *)
Definition step_hue (hue step : R) : R :=
  if (hue >? 0.33) && (hue <? 0.66)
  then MakeHueValid (hue + step / 3.0)
  else MakeHueValid (hue + step).

Definition if_quiet (st : State) : State :=
  if Mode_eqb (currentState st) QuietColor then UpdateQuietColor st else st.

Definition key_switch (e : Env) (st : State) : State :=
  let k := keyCode st in
  if (k =? 0x08f7)%Z then                      (* return to colour organ *)
    set_currentState ColorOrgan st
  else if (k =? 0x8877)%Z then                 (* show quiet colour *)
    let st := set_currentState QuietColor st in
    let st := set_slowAnimationTime 0 st in
    let st := set_sparkle false st in
    let st := set_saturation (quietSaturation st) st in
    let st := set_hue (quietHue st) st in
    set_brightness (quietBrightness st) st
  else if (k =? 0x48b7)%Z then                 (* solid colour *)
    if negb (Mode_eqb (currentState st) SolidColor) then
      let st := set_currentState SolidColor st in
      let st := set_slowAnimationTime 0 st in
      let st := set_saturation 1.0 st in
      let st := set_hue 0 st in
      set_brightness 1.0 st
    else slow_animation MIN_ANIMATION_TIME e st
  else if (k =? 0x28d7)%Z then                 (* rainbow *)
    if negb (Mode_eqb (currentState st) Rainbow) then
      let st := set_currentState Rainbow st in
      let st := set_slowAnimationTime 0 st in
      let st := set_saturation 1.0 st in
      let st := set_hue 0 st in
      set_brightness 1.0 st
    else slow_animation MIN_ANIMATION_TIME e st
  else if (k =? 0xa857)%Z then                 (* trickle rainbow, sparkles *)
    let st := set_currentState Rainbow st in
    let st := set_saturation 1.0 st in
    let st := set_brightness 0.25 st in
    let st :=
      set_slowAnimationTime
        (MIN_ANIMATION_TIME + MAX_ANIMATION_TIME ÷ 2)%Z st in
    set_sparkle true st
  else if (k =? 0x6897)%Z then                 (* random colours *)
    if negb (Mode_eqb (currentState st) RandomColors) then
      let st := set_currentState RandomColors st in
      let st := set_slowAnimationTime 0 st in
      let st := set_saturation 1.0 st in
      set_brightness 1.0 st
    else slow_animation (MIN_ANIMATION_TIME * 8)%Z e st
  else if (k =? 0x18e7)%Z then                 (* sparkle on, rate *)
    if negb (sparkle st) then
      set_sparklesPerMinute MAX_SPARKLE_RATE (set_sparkle true st)
    else
      let st := set_sparklesPerMinute (sparklesPerMinute st ÷ 2)%Z st in
      if (sparklesPerMinute st <? MIN_SPARKLE_RATE)%Z
      then set_sparklesPerMinute MIN_SPARKLE_RATE st
      else st
  else if (k =? 0x9867)%Z then                 (* sparkle off *)
    set_sparkle false st
  else if (k =? 0x609f)%Z then                 (* next hue *)
    let st := set_hue (step_hue (hue st) (1 / HUE_STEPS)) st in
    let st := CreateSolidColor (hue st) (saturation st) (brightness st) st in
    if_quiet st
  else if (k =? 0x20df)%Z then                 (* previous hue *)
    let st := set_hue (step_hue (hue st) (- (1 / HUE_STEPS))) st in
    let st := CreateSolidColor (hue st) (saturation st) (brightness st) st in
    if_quiet st
  else if (k =? 0xa05f)%Z then                 (* desaturate *)
    let st := set_saturation (saturation st * 0.98) st in
    let st :=
      if saturation st <? SATURATION_LIMIT
      then Blink (set_saturation 0 st) else st in
    if_quiet st
  else if (k =? 0xb04f)%Z then                 (* resaturate *)
    let st :=
      if saturation st =? 0 then set_saturation SATURATION_LIMIT st
      else if saturation st / 0.98 - saturation st <? BRIGHT_LSB
      then set_saturation (saturation st + BRIGHT_LSB) st
      else set_saturation (saturation st / 0.98) st in
    if saturation st >? 1.0 - BRIGHT_LSB
    then Blink (set_saturation 1.0 st) else st
  else if (k =? 0x708f)%Z then                 (* brighten *)
    let st :=
      if brightness st =? 0 then set_brightness BRIGHT_LSB st
      else if brightness st / 0.92 - brightness st <? BRIGHT_LSB
      then set_brightness (brightness st + BRIGHT_LSB) st
      else set_brightness (brightness st / 0.92) st in
    let st :=
      if brightness st >? 1.0 - BRIGHT_LSB
      then Blink (set_brightness 1.0 st) else st in
    if_quiet st
  else if (k =? 0x30cf)%Z then                 (* dim *)
    let st :=
      if brightness st * (1.0 - 0.9) >? BRIGHT_LSB
      then set_brightness (brightness st * 0.9) st
      else if brightness st - BRIGHT_LSB >? 0.0
      then set_brightness (brightness st - BRIGHT_LSB) st
      else set_brightness 0 st in
    if_quiet st
  else st.

(** The refresh of the display in the current mode after the switch. *)
Definition refresh (e : Env) (st : State) : State :=
  let st :=
    if Mode_eqb (currentState st) SolidColor
       || Mode_eqb (currentState st) QuietColor
    then ShowBuffer
           (CreateSolidColor (hue st) (saturation st) (brightness st) st)
    else st in
  let st :=
    if Mode_eqb (currentState st) RandomColors
    then ShowBuffer (CreateRandom e (saturation st) (brightness st) st)
    else st in
  if Mode_eqb (currentState st) Rainbow
  then ShowBuffer (CreateRainbow (hue st) (saturation st) (brightness st) st)
  else st.

(** A decoded key: the On/Off button is always checked, the remaining
    buttons only if ON. *)
Definition key_pressed (e : Env) (st : State) : State :=
  let st :=
    if (keyCode st =? 0x58a7)%Z then
      let st := set_onOff (negb (onOff st)) st in
      if negb (onOff st) then show (leds_off st) else st
    else st in
  if onOff st then refresh e (key_switch e st) else st.

(** ** [loop()]: the remote control *)

(** The reset of the repeat count if idle, at the head of [loop()]. *)
Definition idle_reset (e : Env) (st : State) : State :=
  if (u32 (millis e - keyTimer st) >? 500)%Z
  then set_keyCode 0 (set_repeatCount 0 st) else st.

Definition remote (e : Env) (st : State) : State :=
  let st := idle_reset e st in
  match frame e with
  | None => st
  | Some f =>
      let '(v, st) :=
        if (value f =? 0xffffffff)%Z then
          let st := set_keyTimer (millis e) st in
          let count := repeatCount st in
          let st := set_repeatCount (u32 (count + 1)) st in
          if (count >? 5)%Z then (keyCode st, st) else (value f, st)
        else (value f, st) in
      if (protocolNum f =? 1)%Z && negb (v =? 0)%Z
         && negb (v =? 0xffffffff)%Z
      then
        let st := set_keyCode (Z.land v 0xffff) st in
        let st := set_keyTimer (millis e) st in
        key_pressed e st
      else st
  end.

(** ** [loop()]: colour organ or fixed animation, if ON *)

Definition animate (e : Env) (st : State) : State :=
  let st :=
    if (u32 (millis e - animationTimer st) >? FAST_ANIMATION_TIME)%Z then
      let st := set_animationTimer (millis e) st in
      if sparkle st then Sparkle e st else st
    else st in
  if (slowAnimationTime st >? 0)%Z
     && (u32 (millis e - slowAnimationTimer st)
         >? u32 (slowAnimationTime st))%Z
  then
    let st := set_slowAnimationTimer (millis e) st in
    let st :=
      if Mode_eqb (currentState st) SolidColor then
        let st := set_hue (step_hue (hue st) (1 / HUE_STEPS)) st in
        ShowBuffer
          (CreateSolidColor (hue st) (saturation st) (brightness st) st)
      else st in
    let st :=
      if Mode_eqb (currentState st) Rainbow then
        let st := set_hue (MakeHueValid (hue st + 1 / HUE_STEPS)) st in
        ShowBuffer
          (CreateRainbow (hue st) (saturation st) (brightness st) st)
      else st in
    if Mode_eqb (currentState st) RandomColors
    then ShowBuffer (CreateRandom e (saturation st) (brightness st) st)
    else st
  else st.

Definition running (e : Env) (st : State) : option State :=
  if onOff st then
    match
      (if Mode_eqb (currentState st) ColorOrgan
       then ShowColorOrgan e st else Some st)
    with
    | Some st =>
        if negb (Mode_eqb (currentState st) ColorOrgan)
        then Some (animate e st) else Some st
    | None => None
    end
  else Some st.

Definition loop (e : Env) (st : State) : option State :=
  running e (remote e st).

(** [loop()] again and again, one environment for each pass. *)
Fixpoint loops (es : list Env) (st : State) : option State :=
  match es with
  | [] => Some st
  | e :: es' =>
      match loop e st with
      | Some st' => loops es' st'
      | None => None
      end
  end.

(** ** Power-up and [setup()] *)

(** The globals as their declarations initialise them. *)
Definition zero_organ : OrganVars :=
  {| sampleCount := 0; analogReads := 0; inputBias := 0; rawSample := 0;
     sampleMax := 0; inputGain := 0; audioSample := 0;
     redHP := 0; redHP2 := 0; redHP3 := 0;
     greenLP := 0; greenLP2 := 0; greenLP3 := 0;
     greenHP := 0; greenHP2 := 0; greenHP3 := 0;
     blueLP := 0; blueLP2 := 0; blueLP3 := 0; blueHP := 0;
     peakRed := 0; peakGreen := 0; peakBlue := 0; toggle := false |}.

Definition power_up : State :=
  {| onOff := true; hue := 0.0; saturation := 1.0; brightness := 1.0;
     quietRed := 0; quietBlue := 0; quietGreen := 0;
     sparkle := false; sparklesPerMinute := 0; slowAnimationTime := 0;
     quietHue := 0; quietSaturation := 0; quietBrightness := 0;
     keyCode := 0; repeatCount := 0; keyTimer := 0;
     leds := map (fun _ => CRGB.Black) (seq 0 TOTAL_LEDS);
     buffer := map (fun _ => zeroRGB) (seq 0 TOTAL_LEDS);
     animationTimer := 0; slowAnimationTimer := 0;
     currentState := ColorOrgan; organ := zero_organ;
     randomCalls := 0; output := [] |}.

(** The colour that identifies string [j] at start. *)
Definition string_colour (j : nat) : CRGB.t :=
  match j with
  | 0%nat => CRGB.mk 255 0 255
  | 1%nat => CRGB.mk 0 0 255
  | 2%nat => CRGB.mk 0 255 0
  | _ => CRGB.mk 255 255 0
  end.

Definition light_string (st : State) (j : nat) : State :=
  show (set_leds
          (map (fun i => if (i / LEDS_PER_STRING =? j)%nat
                         then string_colour j
                         else nth i (leds st) CRGB.Black)
               (seq 0 TOTAL_LEDS)) st).

Definition setup : State :=
  let st := power_up in
  let st :=
    set_organ
      {| sampleCount := 0; analogReads := 0;
         inputBias := DC_BIAS / 3.3 * MAX_ANALOG; rawSample := 0;
         sampleMax := 0; inputGain := 0; audioSample := 0;
         redHP := 0; redHP2 := 0; redHP3 := 0;
         greenLP := 0; greenLP2 := 0; greenLP3 := 0;
         greenHP := 0; greenHP2 := 0; greenHP3 := 0;
         blueLP := 0; blueLP2 := 0; blueLP3 := 0; blueHP := 0;
         peakRed := 0; peakGreen := 0; peakBlue := 0; toggle := false |}
      st in
  let st := fold_left light_string (seq 0 NUMBER_STRINGS) st in
  let st := set_output (delay 2000 :: output st) st in
  let st := set_saturation 0.0 st in
  let st := set_hue 0 st in
  let st := set_brightness 0.0 st in
  let st := UpdateQuietColor st in
  let st := set_slowAnimationTime 0 st in
  let st := set_sparkle false st in
  let st := set_sparklesPerMinute MAX_SPARKLE_RATE st in
  let st := set_saturation 1.0 st in
  let st := set_brightness 1.0 st in
  set_currentState ColorOrgan st.

(** * Vocabulary of the statements *)

(** Case analysis on the float comparisons of the goal. *)
Ltac float_cases :=
  unfold fgt, flt, fge, fle, feq in *;
  repeat match goal with
    | |- context [Rgt_dec ?a ?b] => destruct (Rgt_dec a b)
    | |- context [Rlt_dec ?a ?b] => destruct (Rlt_dec a b)
    | |- context [Rge_dec ?a ?b] => destruct (Rge_dec a b)
    | |- context [Rle_dec ?a ?b] => destruct (Rle_dec a b)
    | |- context [Req_dec_T ?a ?b] => destruct (Req_dec_T a b)
    end;
  cbn [andb orb negb] in *.

(** An entry of the frame buffer is valid when its three components are
    in [0, MAX_ANALOG]; an LED is at most [n] when its three bytes are. *)
Definition valid_RGB (c : float_RGB.t) : Prop :=
  0 <= float_RGB.r c <= MAX_ANALOG /\
  0 <= float_RGB.g c <= MAX_ANALOG /\
  0 <= float_RGB.b c <= MAX_ANALOG.

Definition at_most (n : Z) (c : CRGB.t) : Prop :=
  (0 <= CRGB.r c <= n /\ 0 <= CRGB.g c <= n /\ 0 <= CRGB.b c <= n)%Z.

(** Two hues are congruent modulo the hue cycle when they differ by a whole
    number of cycles. *)
Definition hue_congruent (x y : R) : Prop := exists k : Z, x = y + IZR k.

(** The input clamped to the nearest end of the hue range. *)
Definition clamp_hue (v : R) : R :=
  if v >? 1 then 1 else if v <? 0 then 0 else v.

(** One pass of the loop once its condition holds: the increment of
    [sampleCount], then the body. *)
Definition pass (e : Env) (o : OrganVars) : option OrganVars :=
  sample e (set_sampleCount (int32 (sampleCount o + 1)) o).

(** The finite value of the dB scale of a positive brightness. *)
Definition dB (bright : R) : R :=
  255 - 255 * 20 * (ln (bright / MAX_ANALOG) / ln 10) / (- DYNAMIC_RANGE).

(** The 8-bit value of a component of the quiet colour. *)
Definition quiet_8bit (quiet : R) : R := IZR (byte (round (quiet / 16.6))).

(** A channel is below the floor when its dB value is negative. *)
Definition below_floor (gain peak : R) : bool :=
  xlt (dB_scale (makeValid (gain * peak))) 0.

(** The value of a channel before the lift of blue: the quiet colour below
    the floor, the dB scale otherwise. *)
Definition substituted (gain peak quiet : R) : xfloat :=
  if below_floor gain peak then Fin (quiet_8bit quiet)
  else dB_scale (makeValid (gain * peak)).

(** The byte it is cast to. *)
Definition substituted_byte (gain peak quiet : R) : Z :=
  if below_floor gain peak then byte (round (quiet / 16.6))
  else truncZ (dB (makeValid (gain * peak))).

(** The order of two finite brightness values. *)
Definition xle (x y : xfloat) : Prop :=
  match x, y with
  | Fin v, Fin w => v <= w
  | _, _ => False
  end.

(** A new peak of the block with which the gain would pass the ceiling. *)
Definition overshoot (o o' : OrganVars) : Prop :=
  Rabs (rawSample o') > sampleMax o /\
  inputGain o * Rabs (rawSample o') > MAX_ANALOG / 2.

(** The invariant of the AGC inside a block. *)
Definition AGC_inv (o : OrganVars) : Prop :=
  0 <= inputGain o /\ inputGain o * sampleMax o <= MAX_ANALOG / 2.

(** The state of the modes: what the remote control sets. *)
Definition mode_state (st : State) :=
  (currentState st, (hue st, saturation st, brightness st),
   slowAnimationTime st, (sparkle st, sparklesPerMinute st),
   (quietHue st, quietSaturation st, quietBrightness st),
   (quietRed st, quietGreen st, quietBlue st)).

(** The receiver holds a fresh NEC frame for the key [code]. *)
Definition key_event (e : Env) (code : Z) : Prop :=
  exists f,
    frame e = Some f /\ protocolNum f = 1%Z /\
    value f <> 0xffffffff%Z /\ Z.land (value f) 0xffff = code.

(** What the display routines leave alone. *)
Definition kept (st st' : State) : Prop :=
  mode_state st' = mode_state st /\ onOff st' = onOff st /\
  organ st' = organ st /\ keyCode st' = keyCode st.

(** Only the variables of the key handling may differ. *)
Definition untouched (st st' : State) : Prop :=
  onOff st' = onOff st /\ mode_state st' = mode_state st /\
  organ st' = organ st /\ leds st' = leds st /\ buffer st' = buffer st /\
  output st' = output st /\ randomCalls st' = randomCalls st /\
  animationTimer st' = animationTimer st /\
  slowAnimationTimer st' = slowAnimationTimer st.

(** The frame of a blink: all LEDs off. *)
Definition dark : list CRGB.t := map (fun _ => CRGB.Black) (seq 0 TOTAL_LEDS).

(** A display in SolidColor, animated at 32 ms per step, and the
    environment of a pass in which the SolidColor key arrives. *)
Definition solid_32 : State :=
  set_slowAnimationTime 32 (set_currentState SolidColor setup).

Definition solid_key : Env :=
  mkEnv 0 (Some (mkFrame 1 0x48b7)) (fun _ => 0%Z) (fun _ => 0%Z).

(** The snapshot of the quiet colour is the colour now set. *)
Definition snapshot_current (st : State) : Prop :=
  (quietHue st, quietSaturation st, quietBrightness st)
    = (hue st, saturation st, brightness st) /\
  float_RGB.mk (quietRed st) (quietGreen st) (quietBlue st)
    = shade (saturation st) (brightness st) (Hue (hue st)).

(** The keys that nudge the hue, the saturation and the brightness. *)
Definition next_hue : Z := 0x609f.
Definition previous_hue : Z := 0x20df.
Definition desaturate : Z := 0xa05f.
Definition resaturate : Z := 0xb04f.
Definition brighten : Z := 0x708f.
Definition dim : Z := 0x30cf.

(** Case analysis on every test of the goal. *)
Ltac branches :=
  repeat match goal with
    | |- context [if ?c then _ else _] => destruct c
    end.

(** The quiet colour as the snapshot holds it. *)
Definition quiet_snapshot (st : State) :=
  (quietHue st, quietSaturation st, quietBrightness st,
   (quietRed st, quietGreen st, quietBlue st)).

(** The passes in which the QuietColor key and the key to resaturate
    arrive. *)
Definition quiet_key : Env :=
  mkEnv 0 (Some (mkFrame 1 0x8877)) (fun _ => 0%Z) (fun _ => 0%Z).

Definition resaturate_key : Env :=
  mkEnv 0 (Some (mkFrame 1 resaturate)) (fun _ => 0%Z) (fun _ => 0%Z).

(** The AGC variables as a block finds them. *)
Definition block_start (st : State) : Prop :=
  sampleMax (organ st) = 0 /\ 0 <= inputGain (organ st).

(** A pass in which the On/Off key arrives, and a pass without a key. *)
Definition power_key : Env :=
  mkEnv 0 (Some (mkFrame 1 0x58a7)) (fun _ => 0%Z) (fun _ => 0%Z).

Definition no_key : Env := mkEnv 0 None (fun _ => 0%Z) (fun _ => 0%Z).

(** Case analysis on the float comparisons of the goal, one at a time,
    those on a variable first, leaving out the cases that contradict the
    hypotheses. *)
Ltac float_prune :=
  unfold fgt, flt, fge, fle, feq;
  repeat (match goal with
          | |- context [Rgt_dec ?a ?b] => is_var a; destruct (Rgt_dec a b)
          | |- context [Rlt_dec ?a ?b] => is_var a; destruct (Rlt_dec a b)
          | |- context [Rge_dec ?a ?b] => is_var a; destruct (Rge_dec a b)
          | |- context [Rle_dec ?a ?b] => is_var a; destruct (Rle_dec a b)
          | |- context [Req_dec_T ?a ?b] => is_var a; destruct (Req_dec_T a b)
          end;
          try (exfalso; lra);
          cbn [andb orb negb]);
  repeat (match goal with
          | |- context [Rgt_dec ?a ?b] => destruct (Rgt_dec a b)
          | |- context [Rlt_dec ?a ?b] => destruct (Rlt_dec a b)
          | |- context [Rge_dec ?a ?b] => destruct (Rge_dec a b)
          | |- context [Rle_dec ?a ?b] => destruct (Rle_dec a b)
          | |- context [Req_dec_T ?a ?b] => destruct (Req_dec_T a b)
          end;
          try (exfalso; lra);
          cbn [andb orb negb]).

(** The hue clamped to [0, 1], as [Hue] does first. *)
Definition hue_clamped (hue : R) : R :=
  let hue := if hue <? 0.0 then 0.0 else hue in
  if hue >? 1.0 then 1.0 else hue.

(** Pure blue, the colour at both ends of the hue cycle. *)
Definition pure_blue : float_RGB.t := float_RGB.mk 0 0 MAX_ANALOG.

(** A dim white with equal bytes, which the strings render with a red
    flicker. *)
Definition flickers (c : CRGB.t) : Prop :=
  CRGB.r c = CRGB.g c /\ CRGB.g c = CRGB.b c /\ (0 < CRGB.b c < 23)%Z.

(** The white of level [MAX_ANALOG * brightness] that is left of any colour
    at saturation 0. *)
Definition white (brightness : R) : float_RGB.t :=
  let w := makeValid (MAX_ANALOG * brightness) in float_RGB.mk w w w.

(** A saturation the remote control can set: none (white), or between the
    practical limit and full. *)
Definition valid_saturation (s : R) : Prop :=
  s = 0 \/ SATURATION_LIMIT <= s <= 1.

Definition valid_HSB (h s v : R) : Prop :=
  0 <= h <= 1 /\ valid_saturation s /\ 0 <= v <= 1.

(** What holds of the modes from [setup()] on: the colour set and the
    quiet colour are valid, the time per step of the animation and the rate
    of the sparkles are within their limits, and the RGB values of the
    quiet colour are those of its hue, saturation and brightness. *)
Definition state_inv (st : State) : Prop :=
  valid_HSB (hue st) (saturation st) (brightness st) /\
  valid_HSB (quietHue st) (quietSaturation st) (quietBrightness st) /\
  (0 <= slowAnimationTime st <= MAX_ANIMATION_TIME)%Z /\
  (MIN_SPARKLE_RATE <= sparklesPerMinute st <= MAX_SPARKLE_RATE)%Z /\
  quietRed st = float_RGB.r (shade (quietSaturation st) (quietBrightness st)
                                   (Hue (quietHue st))) /\
  quietGreen st = float_RGB.g (shade (quietSaturation st) (quietBrightness st)
                                     (Hue (quietHue st))) /\
  quietBlue st = float_RGB.b (shade (quietSaturation st) (quietBrightness st)
                                    (Hue (quietHue st))).

(** Reduction of the fields of a state that was built by the setters and
    the display routines. *)
Ltac state_simpl :=
  cbn [onOff hue saturation brightness quietRed quietBlue quietGreen sparkle
       sparklesPerMinute slowAnimationTime quietHue quietSaturation
       quietBrightness keyCode repeatCount keyTimer leds buffer
       animationTimer slowAnimationTimer currentState organ randomCalls
       output set_onOff set_hue set_saturation set_brightness set_sparkle
       set_sparklesPerMinute set_slowAnimationTime set_keyCode
       set_repeatCount set_keyTimer set_leds set_buffer set_animationTimer
       set_slowAnimationTimer set_currentState set_organ set_randomCalls
       set_output set_quiet Blink ShowBuffer show leds_off CreateSolidColor
       UpdateQuietColor] in *.

(** Case analysis on a test of the goal whose operands hold no other
    test, keeping what the test says. *)
Ltac no_test a :=
  lazymatch a with
  | context [if _ then _ else _] => fail
  | _ => idtac
  end.

Ltac test_step :=
  match goal with
  | |- context [Rgt_dec ?a ?b] => no_test a; no_test b; destruct (Rgt_dec a b)
  | |- context [Rlt_dec ?a ?b] => no_test a; no_test b; destruct (Rlt_dec a b)
  | |- context [Rge_dec ?a ?b] => no_test a; no_test b; destruct (Rge_dec a b)
  | |- context [Rle_dec ?a ?b] => no_test a; no_test b; destruct (Rle_dec a b)
  | |- context [Req_dec_T ?a ?b] =>
      no_test a; no_test b; destruct (Req_dec_T a b)
  | |- context [Mode_eqb ?a ?b] => no_test a; destruct (Mode_eqb a b)
  end.

(** The filters and the peak detectors hold nothing and the gain is 0, as
    at power-up. *)
Definition at_rest (o : OrganVars) : Prop :=
  inputGain o = 0 /\
  (redHP o = 0 /\ redHP2 o = 0 /\ redHP3 o = 0) /\
  (greenLP o = 0 /\ greenLP2 o = 0 /\ greenLP3 o = 0) /\
  (greenHP o = 0 /\ greenHP2 o = 0 /\ greenHP3 o = 0) /\
  (blueLP o = 0 /\ blueLP2 o = 0 /\ blueLP3 o = 0 /\ blueHP o = 0) /\
  (peakRed o = 0 /\ peakGreen o = 0 /\ peakBlue o = 0).

(** The three components of the quiet colour, as one entry of a buffer. *)
Definition quiet_RGB (st : State) : float_RGB.t :=
  float_RGB.mk (quietRed st) (quietGreen st) (quietBlue st).

(** A frame of another protocol than NEC, a repeat frame of the NEC
    protocol, and a state in which the SolidColor key is held down. *)
Definition other_protocol : Env :=
  mkEnv 0 (Some (mkFrame 2 0x58a7)) (fun _ => 0%Z) (fun _ => 0%Z).

Definition repeat_frame : Env :=
  mkEnv 0 (Some (mkFrame 1 0xffffffff)) (fun _ => 0%Z) (fun _ => 0%Z).

Definition key_held : State :=
  set_repeatCount 6 (set_keyCode 0x48b7 power_up).

(** The display switched OFF at power-up. *)
Definition powered_off : State := set_onOff false power_up.

(** A peak of the blue channel whose dB value is 5.5, and the colour organ
    at the end of a block with this peak and none for red and green. *)
Definition peak_5_5 : R :=
  MAX_ANALOG * Rpower 10 (- (249.5 / 204)) / BLUE_GAIN.

Definition blue_5_5 : OrganVars :=
  {| sampleCount := 0; analogReads := 0; inputBias := 0; rawSample := 0;
     sampleMax := 0; inputGain := 0; audioSample := 0;
     redHP := 0; redHP2 := 0; redHP3 := 0;
     greenLP := 0; greenLP2 := 0; greenLP3 := 0;
     greenHP := 0; greenHP2 := 0; greenHP3 := 0;
     blueLP := 0; blueLP2 := 0; blueLP3 := 0; blueHP := 0;
     peakRed := 0; peakGreen := 0; peakBlue := peak_5_5; toggle := false |}.

(** The bounds of the samples, of the filters and of the peak detectors,
    in terms of half the range of the ADC. *)
Definition within (b x : R) : Prop := - b <= x <= b.

Definition filters_bounded (o : OrganVars) : Prop :=
  let A := MAX_ANALOG / 2 in
  within A (audioSample o) /\
  (within A (redHP o) /\ within (2 * A) (redHP2 o) /\
   within (4 * A) (redHP3 o)) /\
  (within A (greenLP o) /\ within A (greenLP2 o) /\ within A (greenLP3 o)) /\
  (within A (greenHP o) /\ within (2 * A) (greenHP2 o) /\
   within (4 * A) (greenHP3 o)) /\
  (within A (blueLP o) /\ within A (blueLP2 o) /\ within A (blueLP3 o) /\
   within A (blueHP o)) /\
  (0 <= peakRed o <= 8 * A /\ 0 <= peakGreen o <= 8 * A /\
   0 <= peakBlue o <= 2 * A).




(** A display whose quiet colour was taken from the colour set at
    power-up. *)
Definition quiet_taken : State := UpdateQuietColor power_up.

(** A read of the audio pin at full scale in every pass, and the colour
    organ as [setup()] leaves it (bias at mid-scale) with a gain of 2. *)
Definition full_scale : Env :=
  mkEnv 0 None (fun _ => 4095%Z) (fun _ => 0%Z).

Definition gain_2 : OrganVars := set_inputGain 2 (organ setup).

(** A peak of the blue channel whose dB value is 5, and the colour organ
    at the end of a block with this peak and none for red and green. *)
Definition peak_5 : R :=
  MAX_ANALOG * Rpower 10 (- (250 / 204)) / BLUE_GAIN.

Definition blue_5 : OrganVars :=
  {| sampleCount := 0; analogReads := 0; inputBias := 0; rawSample := 0;
     sampleMax := 0; inputGain := 0; audioSample := 0;
     redHP := 0; redHP2 := 0; redHP3 := 0;
     greenLP := 0; greenLP2 := 0; greenLP3 := 0;
     greenHP := 0; greenHP2 := 0; greenHP3 := 0;
     blueLP := 0; blueLP2 := 0; blueLP3 := 0; blueHP := 0;
     peakRed := 0; peakGreen := 0; peakBlue := peak_5; toggle := false |}.

(** * Properties *)

(** ** Float comparisons and clamps *)

Lemma fgt_true (a b : R) : (a >? b) = true <-> a > b.
Proof. unfold fgt; destruct (Rgt_dec a b); split; intros; congruence || lra. Qed.

Lemma flt_true (a b : R) : (a <? b) = true <-> a < b.
Proof. unfold flt; destruct (Rlt_dec a b); split; intros; congruence || lra. Qed.

Lemma fgt_false (a b : R) : (a >? b) = false <-> a <= b.
Proof. unfold fgt; destruct (Rgt_dec a b); split; intros; congruence || lra. Qed.

Lemma flt_false (a b : R) : (a <? b) = false <-> b <= a.
Proof. unfold flt; destruct (Rlt_dec a b); split; intros; congruence || lra. Qed.

Lemma abs_Rabs (x : R) : abs x = Rabs x.
Proof.
  unfold abs, Rabs, fgt.
  destruct (Rgt_dec x 0), (Rcase_abs x); lra.
Qed.

Lemma makeValid_range (x : R) : 0 <= makeValid x <= MAX_ANALOG.
Proof. unfold makeValid, MAX_ANALOG. float_cases; lra. Qed.

Lemma makeValid_mono (x y : R) : x <= y -> makeValid x <= makeValid y.
Proof. unfold makeValid, MAX_ANALOG. intros. float_cases; lra. Qed.

(** ** Quantisation to 8 bits *)

Lemma Int_part_bounds (x : R) (lo hi : Z) :
  IZR lo <= x -> x < IZR hi + 1 -> (lo <= Int_part x <= hi)%Z.
Proof.
  intros Hlo Hhi.
  destruct (base_Int_part x) as [Hle Hgt].
  split.
  - apply Z.lt_succ_r, lt_IZR. rewrite succ_IZR. lra.
  - apply Z.lt_succ_r, lt_IZR. rewrite succ_IZR. lra.
Qed.

Lemma round_bounds (x : R) (lo hi : Z) :
  (0 <= lo)%Z -> IZR lo - 0.5 < x -> x < IZR hi + 0.5 ->
  (lo <= round x <= hi)%Z.
Proof.
  intros Hlo Hx Hhi.
  assert (0 <= IZR lo) by (apply IZR_le in Hlo; exact Hlo).
  unfold round, truncZ. float_cases; try lra.
  - apply Int_part_bounds; lra.
  - assert (Hz : (0 <= Int_part (- (x - 0.5)) <= 0)%Z)
      by (apply Int_part_bounds; simpl; lra).
    assert (Hl : IZR lo < 1) by lra.
    apply lt_IZR in Hl.
    assert (Hh : 0 < IZR hi + 1) by lra.
    rewrite <- succ_IZR in Hh. apply lt_IZR in Hh. lia.
Qed.

Lemma scale_8bit_range (x : R) :
  0 <= x <= MAX_ANALOG -> (0 <= byte (round (x / 16.6)) <= 247)%Z.
Proof.
  unfold MAX_ANALOG. intros Hx.
  assert (H : (0 <= round (x / 16.6) <= 247)%Z)
    by (apply round_bounds; [lia | lra | lra]).
  unfold byte. rewrite Z.mod_small; lia.
Qed.

Lemma quantize_at_most_247 (c : float_RGB.t) :
  valid_RGB c -> at_most 247 (quantize c).
Proof.
  intros (Hr & Hg & Hb).
  apply scale_8bit_range in Hr, Hg, Hb.
  unfold quantize, at_most.
  destruct (_ && _) eqn:E; cbn [CRGB.r CRGB.g CRGB.b]; try lia.
  repeat (apply andb_prop in E; destruct E as [E ?]).
  repeat split; try lia.
  - unfold byte at 1. apply Z.mod_pos_bound. lia.
  - unfold byte at 1. rewrite Z.mod_small; lia.
Qed.

Lemma valid_zeroRGB : valid_RGB zeroRGB.
Proof. unfold valid_RGB, zeroRGB, MAX_ANALOG; simpl; lra. Qed.

Lemma valid_shade (s v : R) (c : float_RGB.t) : valid_RGB (shade s v c).
Proof. repeat split; apply makeValid_range. Qed.

Lemma leds_ShowBuffer (st : State) :
  leds (ShowBuffer st) =
  map (fun i => quantize (nth i (buffer st) zeroRGB)) (seq 0 TOTAL_LEDS).
Proof. reflexivity. Qed.

Lemma ShowBuffer_valid (st : State) :
  Forall valid_RGB (buffer st) -> Forall (at_most 247) (leds (ShowBuffer st)).
Proof.
  intros Hb. rewrite leds_ShowBuffer.
  apply Forall_map, Forall_forall. intros i _.
  apply quantize_at_most_247.
  destruct (nth_in_or_default i (buffer st) zeroRGB) as [Hin | ->].
  - rewrite Forall_forall in Hb. apply Hb, Hin.
  - apply valid_zeroRGB.
Qed.

Lemma valid_CreateSolidColor (h s v : R) (st : State) :
  Forall valid_RGB (buffer (CreateSolidColor h s v st)).
Proof.
  unfold CreateSolidColor. cbn [buffer set_buffer].
  apply Forall_map, Forall_forall. intros; apply valid_shade.
Qed.

Lemma valid_rainbow_leds (n : nat) (step ratio h s v : R) :
  Forall valid_RGB (rainbow_leds n step ratio h s v).
Proof.
  revert h. induction n as [|n IH]; intros h; cbn [rainbow_leds].
  - constructor.
  - constructor; [apply valid_shade | apply IH].
Qed.

Lemma valid_CreateRainbow (h s v : R) (st : State) :
  Forall valid_RGB (buffer (CreateRainbow h s v st)).
Proof.
  unfold CreateRainbow. cbn [buffer set_buffer]. apply valid_rainbow_leds.
Qed.

Lemma valid_random_leds (e : Env) (n : nat) (s v : R) (st : State) :
  Forall valid_RGB (fst (random_leds e n s v st)).
Proof.
  revert st. induction n as [|n IH]; intros st; cbn [random_leds].
  - constructor.
  - unfold random.
    specialize (IH (set_randomCalls (S (randomCalls st)) st)).
    destruct (random_leds e n s v _) as [l st'].
    constructor; [apply valid_shade | exact IH].
Qed.

Lemma valid_CreateRandom (e : Env) (s v : R) (st : State) :
  Forall valid_RGB (buffer (CreateRandom e s v st)).
Proof.
  unfold CreateRandom.
  pose proof (valid_random_leds e TOTAL_LEDS s v st) as H.
  destruct (random_leds e TOTAL_LEDS s v st) as [l st']. exact H.
Qed.

(** C9.  Whatever valid frame buffer [ShowBuffer] is given (components in
    [0, MAX_ANALOG]), every 8-bit value it writes to an LED is at most 247;
    hence after [CreateSolidColor], [CreateRainbow] or [CreateRandom], for
    any hue, saturation and brightness, no channel of any LED is driven to
    255. *)
Theorem ShowBuffer_at_most_247 :
  (forall st, Forall valid_RGB (buffer st) ->
              Forall (at_most 247) (leds (ShowBuffer st))) /\
  (forall h s v st,
      Forall (at_most 247) (leds (ShowBuffer (CreateSolidColor h s v st)))) /\
  (forall h s v st,
      Forall (at_most 247) (leds (ShowBuffer (CreateRainbow h s v st)))) /\
  (forall e s v st,
      Forall (at_most 247) (leds (ShowBuffer (CreateRandom e s v st)))).
Proof.
  repeat split; intros.
  - now apply ShowBuffer_valid.
  - apply ShowBuffer_valid, valid_CreateSolidColor.
  - apply ShowBuffer_valid, valid_CreateRainbow.
  - apply ShowBuffer_valid, valid_CreateRandom.
Qed.


(** ** MakeHueValid *)

(** C5, as the claim states it, fails: a hue of 1.5 is taken to 0, which is
    not 1.5 wrapped around the hue cycle (that would be 0.5). *)
Lemma MakeHueValid_not_cyclic :
  (1.5 < 0 \/ 1.5 > 1) /\
  MakeHueValid 1.5 = 0 /\ ~ hue_congruent (MakeHueValid 1.5) 1.5.
Proof.
  assert (E : MakeHueValid 1.5 = 0)
    by (unfold MakeHueValid; float_cases; lra).
  split; [right; lra|]. split; [exact E|].
  rewrite E. intros [k Hk].
  assert (H : IZR (2 * k) = IZR (-3)) by (rewrite mult_IZR; lra).
  apply eq_IZR in H. lia.
Qed.

(** C5, amended.  An input outside [0, 1] is taken to the opposite end of
    the hue range: 0 for an input above 1, 1 for an input below 0.  The
    result lies in [0, 1] and is not the input clamped to the nearest end. *)
Theorem MakeHueValid_outside (v : R) :
  v < 0 \/ v > 1 ->
  0 <= MakeHueValid v <= 1 /\
  (v > 1 -> MakeHueValid v = 0) /\
  (v < 0 -> MakeHueValid v = 1) /\
  MakeHueValid v <> clamp_hue v.
Proof.
  intros H. unfold MakeHueValid, clamp_hue.
  float_cases; repeat split; intros; lra.
Qed.

Lemma MakeHueValid_outside_witness :
  (1.5 < 0 \/ 1.5 > 1) /\
  0 <= MakeHueValid 1.5 <= 1 /\
  (1.5 > 1 -> MakeHueValid 1.5 = 0) /\
  (1.5 < 0 -> MakeHueValid 1.5 = 1) /\
  MakeHueValid 1.5 <> clamp_hue 1.5.
Proof.
  assert (H : 1.5 < 0 \/ 1.5 > 1) by (right; lra).
  split; [exact H | exact (MakeHueValid_outside 1.5 H)].
Defined.

Lemma MakeHueValid_inside (v : R) : 0 <= v <= 1 -> MakeHueValid v = v.
Proof. intros H. unfold MakeHueValid. float_cases; lra. Qed.

(** ** The sampling loop *)

Lemma int32_small (n : Z) :
  (- 2147483648 <= n < 2147483648)%Z -> int32 n = n.
Proof.
  intros H. unfold int32.
  change (2 ^ 31)%Z with 2147483648%Z.
  change (2 ^ 32)%Z with 4294967296%Z.
  rewrite Z.mod_small; lia.
Qed.

Lemma length_hanningWindow : length hanningWindow = Z.to_nat SAMPLE_SIZE.
Proof. unfold hanningWindow. now rewrite length_map, length_seq. Qed.

Lemma array_get_hanningWindow (i : Z) :
  (0 <= i < SAMPLE_SIZE)%Z <-> array_get hanningWindow i <> None.
Proof.
  unfold array_get. destruct (Z.ltb_spec i 0).
  - split; [lia | congruence].
  - rewrite nth_error_Some, length_hanningWindow. unfold SAMPLE_SIZE. lia.
Qed.

Lemma sampling_loop_S (e : Env) (fuel : nat) (o : OrganVars) :
  sampling_loop e (S fuel) o =
  if (sampleCount o <? SAMPLE_SIZE)%Z then
    match pass e o with
    | Some o' => sampling_loop e fuel o'
    | None => OutOfBounds
    end
  else Done (set_sampleCount (int32 (sampleCount o + 1)) o).
Proof. reflexivity. Qed.

(** What a pass does to the counters and to the AGC variables. *)
Lemma pass_Some (e : Env) (o o' : OrganVars) :
  pass e o = Some o' ->
  (sampleMax o', inputGain o') =
    AGC (rawSample o') (sampleMax o) (inputGain o) /\
  exists w,
    array_get hanningWindow (sampleCount o' - 1) = Some w /\
    audioSample o' = rawSample o' * inputGain o' * w.
Proof.
  unfold pass, sample.
  cbn [sampleCount set_sampleCount analogReads inputBias sampleMax inputGain].
  destruct (AGC _ (sampleMax o) (inputGain o)) as [sm ig] eqn:EA.
  destruct (array_get hanningWindow _) as [w|] eqn:EW; [|discriminate].
  intros [= <-].
  cbn [sampleMax inputGain rawSample sampleCount audioSample].
  split; [now rewrite EA|]. exists w. split; [exact EW | reflexivity].
Qed.

Lemma pass_spec (e : Env) (o : OrganVars) :
  (0 <= sampleCount o < SAMPLE_SIZE)%Z ->
  exists o',
    pass e o = Some o' /\
    sampleCount o' = (sampleCount o + 1)%Z /\
    analogReads o' = S (analogReads o).
Proof.
  intros H. unfold pass, sample.
  cbn [sampleCount set_sampleCount analogReads inputBias sampleMax inputGain].
  unfold SAMPLE_SIZE in H. rewrite int32_small by lia.
  destruct (AGC _ (sampleMax o) (inputGain o)) as [sm ig] eqn:EA.
  destruct (array_get hanningWindow (sampleCount o + 1 - 1)) as [w|] eqn:EW.
  - eexists. split; [reflexivity|].
    cbn [sampleCount analogReads]. split; reflexivity.
  - exfalso. revert EW. apply array_get_hanningWindow.
    unfold SAMPLE_SIZE. lia.
Qed.

(** The state after [k] passes, for every [k] up to [SAMPLE_SIZE]. *)
Lemma sampling_loop_passes (e : Env) (k : nat) (o : OrganVars) :
  (0 <= sampleCount o)%Z ->
  (sampleCount o + Z.of_nat k <= SAMPLE_SIZE)%Z ->
  exists ok,
    sampling_loop e k o = Interrupted ok /\
    sampleCount ok = (sampleCount o + Z.of_nat k)%Z /\
    analogReads ok = (analogReads o + k)%nat.
Proof.
  revert o. induction k as [|k IH]; intros o H0 Hk.
  - exists o. cbn. split; [reflexivity|]. split; [lia | lia].
  - rewrite sampling_loop_S.
    destruct (Z.ltb_spec (sampleCount o) SAMPLE_SIZE) as [Hlt|]; [|lia].
    destruct (pass_spec e o) as (o' & -> & Hc & Hr); [lia|].
    destruct (IH o') as (ok & E & Hc' & Hr'); [lia | lia |].
    exists ok. split; [exact E|]. split; [lia | lia].
Qed.

(** With enough fuel the loop ends, after exactly [SAMPLE_SIZE] passes. *)
Lemma sampling_loop_done (e : Env) (fuel : nat) (o : OrganVars) :
  (Z.to_nat SAMPLE_SIZE < fuel)%nat ->
  exists o320 o',
    sampling_loop e (Z.to_nat SAMPLE_SIZE) (set_sampleCount 0 o)
      = Interrupted o320 /\
    o' = set_sampleCount (SAMPLE_SIZE + 1) o320 /\
    sampling_loop e fuel (set_sampleCount 0 o) = Done o' /\
    analogReads o' = (analogReads o + Z.to_nat SAMPLE_SIZE)%nat.
Proof.
  intros Hf.
  destruct (sampling_loop_passes e (Z.to_nat SAMPLE_SIZE) (set_sampleCount 0 o))
    as (o320 & E & Hc & Hr);
    [cbn; lia | cbn; unfold SAMPLE_SIZE; lia |].
  exists o320, (set_sampleCount (SAMPLE_SIZE + 1) o320).
  split; [exact E|]. split; [reflexivity|].
  cbn [sampleCount set_sampleCount] in Hc.
  cbn [analogReads set_sampleCount] in Hr.
  split; [|cbn [analogReads set_sampleCount]; exact Hr].
  replace fuel with (Z.to_nat SAMPLE_SIZE + S (fuel - S (Z.to_nat SAMPLE_SIZE)))%nat
    by lia.
  generalize (fuel - S (Z.to_nat SAMPLE_SIZE))%nat as extra.
  intros extra. revert E.
  generalize (set_sampleCount 0 o) as o0.
  generalize (Z.to_nat SAMPLE_SIZE) as n.
  induction n as [|n IH]; intros o0 E.
  - cbn [sampling_loop] in E. injection E as ->.
    cbn [Nat.add]. rewrite sampling_loop_S.
    destruct (Z.ltb_spec (sampleCount o320) SAMPLE_SIZE) as [Hlt|Hge].
    + exfalso. unfold SAMPLE_SIZE in *. lia.
    + rewrite Hc. rewrite int32_small by (unfold SAMPLE_SIZE; lia).
      unfold SAMPLE_SIZE. repeat f_equal.
  - cbn [Nat.add]. rewrite sampling_loop_S in *.
    destruct (sampleCount o0 <? SAMPLE_SIZE)%Z; [|discriminate].
    destruct (pass e o0) as [o1|]; [|discriminate].
    now apply IH.
Qed.

(** ** Brightness of a channel *)

Lemma ln10_pos : 0 < ln 10.
Proof. rewrite <- ln_1. apply ln_increasing; lra. Qed.

Lemma ln_le (x y : R) : 0 < x -> x <= y -> ln x <= ln y.
Proof.
  intros H0 [Hlt | ->]; [|lra].
  left. now apply ln_increasing.
Qed.

Lemma dB_linear (bright : R) :
  dB bright = 255 + 204 * (ln (bright / MAX_ANALOG) / ln 10).
Proof.
  pose proof ln10_pos. unfold dB, DYNAMIC_RANGE. field. lra.
Qed.

Lemma dB_scale_0 : dB_scale 0 = NegInf.
Proof.
  unfold dB_scale, log10, MAX_ANALOG.
  replace (0 / 4095) with 0 by lra.
  float_cases; try lra; reflexivity.
Qed.

Lemma dB_scale_pos (bright : R) : 0 < bright -> dB_scale bright = Fin (dB bright).
Proof.
  intros H. unfold dB_scale, log10, dB.
  assert (0 < bright / MAX_ANALOG)
    by (unfold MAX_ANALOG; apply Rdiv_lt_0_compat; lra).
  float_cases; try lra; reflexivity.
Qed.

Lemma dB_le_255 (bright : R) : 0 < bright <= MAX_ANALOG -> dB bright <= 255.
Proof.
  intros [H0 H1]. rewrite dB_linear.
  assert (Hl : ln (bright / MAX_ANALOG) <= 0).
  { rewrite <- ln_1. unfold MAX_ANALOG in *.
    apply ln_le; [apply Rdiv_lt_0_compat; lra|].
    apply Rmult_le_reg_r with 4095; [lra|].
    unfold Rdiv. rewrite Rmult_assoc, Rinv_l; lra. }
  pose proof ln10_pos as H10.
  assert (Hq : ln (bright / MAX_ANALOG) / ln 10 <= 0).
  { assert (0 < / ln 10) by (apply Rinv_0_lt_compat; lra).
    unfold Rdiv at 1. nra. }
  lra.
Qed.

Lemma dB_mono (x y : R) : 0 < x -> x <= y -> dB x <= dB y.
Proof.
  intros H0 H. rewrite !dB_linear.
  pose proof ln10_pos as H10.
  assert (Hl : ln (x / MAX_ANALOG) <= ln (y / MAX_ANALOG)).
  { unfold MAX_ANALOG. apply ln_le; [apply Rdiv_lt_0_compat; lra|].
    apply Rmult_le_compat_r; lra. }
  assert (Hq : ln (x / MAX_ANALOG) / ln 10 <= ln (y / MAX_ANALOG) / ln 10).
  { apply Rmult_le_compat_r; [|exact Hl].
    left. now apply Rinv_0_lt_compat. }
  lra.
Qed.

Lemma byte_range (n : Z) : (0 <= byte n <= 255)%Z.
Proof. unfold byte. pose proof (Z.mod_pos_bound n 256). lia. Qed.

Lemma quiet_8bit_range (quiet : R) : 0 <= quiet_8bit quiet <= 255.
Proof.
  unfold quiet_8bit. pose proof (byte_range (round (quiet / 16.6))) as [H0 H1].
  apply IZR_le in H0, H1. lra.
Qed.

(** What [channel_brightness] computes: the quiet colour below the floor,
    the dB value, between 0 and 255, otherwise. *)
Lemma channel_brightness_cases (gain peak quiet : R) :
  (below_floor gain peak = true /\
   channel_brightness gain peak quiet = Fin (quiet_8bit quiet)) \/
  (below_floor gain peak = false /\
   0 < makeValid (gain * peak) /\
   0 <= dB (makeValid (gain * peak)) <= 255 /\
   channel_brightness gain peak quiet = Fin (dB (makeValid (gain * peak)))).
Proof.
  unfold channel_brightness, below_floor, quiet_default.
  destruct (makeValid_range (gain * peak)) as [H0 H1].
  destruct (Req_dec_T (makeValid (gain * peak)) 0) as [E|N].
  - rewrite E, dB_scale_0. left. split; reflexivity.
  - assert (Hp : 0 < makeValid (gain * peak)) by lra.
    rewrite (dB_scale_pos _ Hp). cbn [xlt].
    pose proof (dB_le_255 _ (conj Hp H1)).
    destruct (flt_true (dB (makeValid (gain * peak))) 0) as [Ht _].
    destruct (flt_false (dB (makeValid (gain * peak))) 0) as [Hf _].
    destruct (_ <? _).
    + left. split; reflexivity.
    + right. specialize (Hf eq_refl). repeat split; try lra.
Qed.

Lemma channel_brightness_range (gain peak quiet : R) :
  exists v, channel_brightness gain peak quiet = Fin v /\ 0 <= v <= 255.
Proof.
  destruct (channel_brightness_cases gain peak quiet)
    as [[_ ->] | (_ & _ & H & ->)].
  - eexists; split; [reflexivity | apply quiet_8bit_range].
  - eexists; split; [reflexivity | exact H].
Qed.

(** ** The bytes sent to the LEDs after a block *)

Lemma Int_part_IZR (z : Z) : Int_part (IZR z) = z.
Proof. symmetry. apply Int_part_spec. lra. Qed.

Lemma Int_part_succ (x : R) : Int_part (x + 1) = (Int_part x + 1)%Z.
Proof.
  symmetry. apply Int_part_spec.
  destruct (base_Int_part x). rewrite plus_IZR. lra.
Qed.

Lemma truncZ_nonneg (x : R) : 0 <= x -> truncZ x = Int_part x.
Proof. intros H. unfold truncZ. float_cases; [reflexivity | lra]. Qed.

Lemma truncZ_IZR (z : Z) : (0 <= z)%Z -> truncZ (IZR z) = z.
Proof.
  intros H. rewrite truncZ_nonneg by (now apply IZR_le in H).
  apply Int_part_IZR.
Qed.

Lemma cast_byte_Fin (v : R) :
  0 <= v <= 255 ->
  cast_byte (Fin v) = Some (Int_part v) /\ (0 <= Int_part v <= 255)%Z.
Proof.
  intros H. cbn [cast_byte].
  replace (v >? -1) with true by (float_cases; lra).
  replace (v <? 256) with true by (float_cases; lra).
  cbn [andb]. rewrite truncZ_nonneg by lra.
  split; [reflexivity|]. apply Int_part_bounds; simpl; lra.
Qed.

Lemma channel_brightness_substituted (gain peak quiet : R) :
  channel_brightness gain peak quiet = substituted gain peak quiet.
Proof. reflexivity. Qed.

Lemma cast_substituted (gain peak quiet : R) :
  exists v,
    channel_brightness gain peak quiet = Fin v /\ 0 <= v <= 255 /\
    Int_part v = substituted_byte gain peak quiet.
Proof.
  unfold substituted_byte.
  destruct (channel_brightness_cases gain peak quiet)
    as [[-> ->] | (-> & Hp & H & ->)].
  - exists (quiet_8bit quiet). split; [reflexivity|].
    split; [apply quiet_8bit_range|]. apply Int_part_IZR.
  - eexists. split; [reflexivity|]. split; [exact H|].
    symmetry. apply truncZ_nonneg. lra.
Qed.

Lemma dim_white_Fin (vr vg vb : R) :
  dim_white (Fin vr) (Fin vg) (Fin vb) = true ->
  vr = vg /\ vg = vb /\ vb < 23 /\ vb <> 0.
Proof.
  unfold dim_white. cbn [xeq xlt]. float_cases; intros; try discriminate.
  repeat split; lra.
Qed.

(** The result of [organ_rgb] and the bytes it is cast to. *)
Lemma organ_rgb_bytes (o : OrganVars) (qr qg qb : R) :
  exists red green blue0 : xfloat,
    red = substituted RED_GAIN (peakRed o) qr /\
    green = substituted GREEN_GAIN (peakGreen o) qg /\
    blue0 = substituted BLUE_GAIN (peakBlue o) qb /\
    let blue := if dim_white red green blue0 then xincr blue0 else blue0 in
    organ_rgb o qr qg qb = (red, green, blue) /\
    cast_byte red = Some (substituted_byte RED_GAIN (peakRed o) qr) /\
    cast_byte green = Some (substituted_byte GREEN_GAIN (peakGreen o) qg) /\
    cast_byte blue =
      Some (substituted_byte BLUE_GAIN (peakBlue o) qb
            + if dim_white red green blue0 then 1 else 0)%Z /\
    (0 <= substituted_byte RED_GAIN (peakRed o) qr <= 255)%Z /\
    (0 <= substituted_byte GREEN_GAIN (peakGreen o) qg <= 255)%Z /\
    (0 <= substituted_byte BLUE_GAIN (peakBlue o) qb
          + (if dim_white red green blue0 then 1 else 0) <= 255)%Z.
Proof.
  unfold organ_rgb.
  change (channel_brightness RED_GAIN (peakRed o) qr)
    with (substituted RED_GAIN (peakRed o) qr).
  change (channel_brightness GREEN_GAIN (peakGreen o) qg)
    with (substituted GREEN_GAIN (peakGreen o) qg).
  change (channel_brightness BLUE_GAIN (peakBlue o) qb)
    with (substituted BLUE_GAIN (peakBlue o) qb).
  destruct (cast_substituted RED_GAIN (peakRed o) qr) as (vr & Er & Hr & Br).
  destruct (cast_substituted GREEN_GAIN (peakGreen o) qg) as (vg & Eg & Hg & Bg).
  destruct (cast_substituted BLUE_GAIN (peakBlue o) qb) as (vb & Eb & Hb & Bb).
  change (substituted RED_GAIN (peakRed o) qr = Fin vr) in Er.
  change (substituted GREEN_GAIN (peakGreen o) qg = Fin vg) in Eg.
  change (substituted BLUE_GAIN (peakBlue o) qb = Fin vb) in Eb.
  do 3 eexists. do 3 (split; [reflexivity|]).
  rewrite Er, Eg, Eb. cbv zeta.
  destruct (cast_byte_Fin vr Hr) as [Cr Rr].
  destruct (cast_byte_Fin vg Hg) as [Cg Rg].
  destruct (cast_byte_Fin vb Hb) as [Cb Rb].
  rewrite <- Br, <- Bg, <- Bb.
  split; [reflexivity|]. split; [exact Cr|]. split; [exact Cg|].
  destruct (dim_white (Fin vr) (Fin vg) (Fin vb)) eqn:D.
  - apply dim_white_Fin in D. destruct D as (_ & _ & H23 & _).
    cbn [xincr].
    destruct (cast_byte_Fin (vb + 1)) as [Cb1 Rb1]; [lra|].
    rewrite Int_part_succ in Cb1, Rb1.
    assert ((Int_part vb <= 22)%Z) by (apply Int_part_bounds with (lo := 0%Z); simpl; lra).
    repeat split; try assumption; lia.
  - rewrite Z.add_0_r. repeat split; try assumption; lia.
Qed.

(** A block always ends and always sends bytes to the LEDs. *)
Lemma ShowColorOrgan_spec (e : Env) (st : State) :
  exists o320 c,
    sampling_loop e (Z.to_nat SAMPLE_SIZE) (set_sampleCount 0 (organ st))
      = Interrupted o320 /\
    at_most 255 c /\
    ShowColorOrgan e st =
      Some (show (set_leds (map (fun _ => c) (seq 0 TOTAL_LEDS))
                   (set_organ
                      (set_sampleMax 0
                         (AGC_recover (set_sampleCount (SAMPLE_SIZE + 1) o320)))
                      st))).
Proof.
  destruct (sampling_loop_done e (S (Z.to_nat SAMPLE_SIZE)) (organ st))
    as (o320 & o' & E320 & -> & E & _); [lia|].
  unfold ShowColorOrgan. rewrite E.
  set (o := set_sampleMax 0 (AGC_recover (set_sampleCount (SAMPLE_SIZE + 1) o320))).
  destruct (organ_rgb_bytes o (quietRed st) (quietGreen st) (quietBlue st))
    as (red & green & blue0 & _ & _ & _ & H).
  cbv zeta in H. destruct H as (-> & -> & -> & -> & Hr & Hg & Hb).
  exists o320. eexists. split; [exact E320|]. split; [|reflexivity].
  repeat split; cbn [CRGB.r CRGB.g CRGB.b]; lia.
Qed.

Lemma ShowColorOrgan_total (e : Env) (st : State) :
  exists st', ShowColorOrgan e st = Some st'.
Proof.
  destruct (ShowColorOrgan_spec e st) as (o & c & _ & _ & ->). now eexists.
Qed.

(** ** The brightness mapper: range and monotonicity *)

Lemma makeValid_id (x : R) : 0 <= x <= MAX_ANALOG -> makeValid x = x.
Proof. unfold makeValid, MAX_ANALOG. intros. float_cases; lra. Qed.

Lemma below_floor_0 (gain : R) : below_floor gain 0 = true.
Proof.
  unfold below_floor. rewrite Rmult_0_r.
  rewrite makeValid_id by (unfold MAX_ANALOG; lra).
  now rewrite dB_scale_0.
Qed.

Lemma below_floor_pos (gain peak : R) :
  0 < makeValid (gain * peak) ->
  below_floor gain peak = (dB (makeValid (gain * peak)) <? 0).
Proof. intros H. unfold below_floor. now rewrite dB_scale_pos. Qed.

Lemma quiet_8bit_4095 : quiet_8bit 4095 = 247.
Proof.
  unfold quiet_8bit.
  assert (H : (247 <= round (4095 / 16.6) <= 247)%Z)
    by (apply round_bounds; [lia | lra | lra]).
  replace (round (4095 / 16.6)) with 247%Z by lia. reflexivity.
Qed.

Lemma dB_tenth : dB 409.5 = 51.
Proof.
  rewrite dB_linear. unfold MAX_ANALOG.
  replace (409.5 / 4095) with (/ 10) by lra.
  rewrite ln_Rinv by lra.
  pose proof ln10_pos. field. lra.
Qed.

(** C2, as the claim states it, fails in its second half: with a bright
    quiet colour (component 4095, sent as 247) a silent red channel is
    shown at 247, while a red peak of 81.9, ten times under full scale
    after the gain, is shown at 51. *)
Lemma channel_brightness_not_monotone :
  0 <= 81.9 /\
  channel_brightness RED_GAIN 0 4095 = Fin 247 /\
  channel_brightness RED_GAIN 81.9 4095 = Fin 51 /\
  ~ xle (channel_brightness RED_GAIN 0 4095)
        (channel_brightness RED_GAIN 81.9 4095).
Proof.
  assert (E0 : channel_brightness RED_GAIN 0 4095 = Fin 247).
  { change (channel_brightness RED_GAIN 0 4095)
      with (substituted RED_GAIN 0 4095).
    unfold substituted. now rewrite below_floor_0, quiet_8bit_4095. }
  assert (E1 : channel_brightness RED_GAIN 81.9 4095 = Fin 51).
  { assert (Em : makeValid (RED_GAIN * 81.9) = 409.5).
    { unfold RED_GAIN. rewrite makeValid_id; unfold MAX_ANALOG; lra. }
    change (channel_brightness RED_GAIN 81.9 4095)
      with (substituted RED_GAIN 81.9 4095).
    unfold substituted. rewrite below_floor_pos by (rewrite Em; lra).
    rewrite Em, dB_tenth.
    replace (51 <? 0) with false by (float_cases; lra).
    rewrite dB_scale_pos by lra. now rewrite dB_tenth. }
  split; [lra|]. split; [exact E0|]. split; [exact E1|].
  rewrite E0, E1. cbn [xle]. lra.
Qed.

(** C2, amended.  For a channel gain that is not negative, the value that
    the mapper computes for a channel always lies in [0, 255].  It is
    monotonically non-decreasing in the peak from any peak that is at or
    above the floor of the dynamic range, and over all peaks when the
    quiet colour of the channel is sent as 0 (the default, black).  Red and
    green are sent as computed; blue is sent as computed, or one higher
    when the three values come out as a dim white (equal, below 23 and not
    0), and then also lies in [0, 255]. *)
Theorem channel_brightness_range_mono (gain quiet p1 p2 : R)
  (o : OrganVars) (qr qg qb : R) :
  0 <= gain -> p1 <= p2 ->
  (exists v1 v2,
     channel_brightness gain p1 quiet = Fin v1 /\
     channel_brightness gain p2 quiet = Fin v2 /\
     0 <= v1 <= 255 /\ 0 <= v2 <= 255 /\
     (below_floor gain p1 = false -> v1 <= v2) /\
     (quiet_8bit quiet = 0 -> v1 <= v2)) /\
  (exists vr vg vb lift,
     channel_brightness RED_GAIN (peakRed o) qr = Fin vr /\
     channel_brightness GREEN_GAIN (peakGreen o) qg = Fin vg /\
     channel_brightness BLUE_GAIN (peakBlue o) qb = Fin vb /\
     organ_rgb o qr qg qb = (Fin vr, Fin vg, Fin (vb + lift)) /\
     (vr = vg /\ vg = vb /\ 0 < vb < 23 -> lift = 1) /\
     (lift = 0 \/ lift = 1 /\ vr = vg /\ vg = vb /\ 0 < vb < 23) /\
     0 <= vr <= 255 /\ 0 <= vg <= 255 /\ 0 <= vb <= 255 /\
     0 <= vb + lift <= 255).
Proof.
  intros Hg Hp. split.
  - assert (Hm : makeValid (gain * p1) <= makeValid (gain * p2))
      by (apply makeValid_mono; nra).
    destruct (channel_brightness_cases gain p1 quiet)
      as [[B1 E1] | (B1 & P1 & R1 & E1)];
    destruct (channel_brightness_cases gain p2 quiet)
      as [[B2 E2] | (B2 & P2 & R2 & E2)];
    rewrite E1, E2; do 2 eexists;
    (split; [reflexivity|]); (split; [reflexivity|]).
    + pose proof (quiet_8bit_range quiet).
      repeat split; intros; first [lra | congruence].
    + pose proof (quiet_8bit_range quiet).
      repeat split; intros; first [lra | congruence].
    + exfalso.
      assert (P2 : 0 < makeValid (gain * p2)) by lra.
      rewrite (below_floor_pos _ _ P2) in B2. apply flt_true in B2.
      pose proof (dB_mono _ _ P1 Hm). lra.
    + pose proof (dB_mono _ _ P1 Hm). repeat split; lra.
  - destruct (cast_substituted RED_GAIN (peakRed o) qr) as (vr & Er & Hr & _).
    destruct (cast_substituted GREEN_GAIN (peakGreen o) qg)
      as (vg & Eg & Hgr & _).
    destruct (cast_substituted BLUE_GAIN (peakBlue o) qb)
      as (vb & Eb & Hb & _).
    exists vr, vg, vb.
    exists (if dim_white (Fin vr) (Fin vg) (Fin vb) then 1 else 0).
    split; [exact Er|]. split; [exact Eg|]. split; [exact Eb|].
    unfold organ_rgb. cbv zeta. rewrite Er, Eg, Eb.
    destruct (dim_white (Fin vr) (Fin vg) (Fin vb)) eqn:D.
    + apply dim_white_Fin in D. destruct D as (D1 & D2 & D3 & D4).
      cbn [xincr]. split; [reflexivity|].
      split; [reflexivity|]. split; [right; repeat split; lra|].
      repeat split; lra.
    + split; [now rewrite Rplus_0_r|]. split.
      * intros (D1 & D2 & D3 & D4). exfalso. revert D.
        unfold dim_white. cbn [xeq xlt].
        unfold feq, flt.
        destruct (Req_dec_T vr vg); [|lra].
        destruct (Req_dec_T vg vb); [|lra].
        destruct (Rlt_dec vb 23); [|lra].
        destruct (Req_dec_T vb 0); [lra|]. discriminate.
      * split; [now left|]. repeat split; lra.
Qed.

(** ** The quiet colour below the floor *)

Lemma quiet_8bit_dim_white : byte (round (95.823 / 16.6)) = 6%Z.
Proof.
  assert (H : (6 <= round (95.823 / 16.6) <= 6)%Z)
    by (apply round_bounds; [lia | lra | lra]).
  replace (round (95.823 / 16.6)) with 6%Z by lia. reflexivity.
Qed.

(** C3, as the claim states it, fails for blue: with no signal at all and
    a dim white quiet colour (saturation 0 and brightness 0.0234, six
    steps up from black: the three components are 4095 * 0.0234 = 95.823,
    which scale to 6) the blue channel is below the floor, and the value
    sent for blue is 7, not 6. *)
Lemma quiet_blue_lifted :
  below_floor BLUE_GAIN (peakBlue zero_organ) = true /\
  byte (round (95.823 / 16.6)) = 6%Z /\
  organ_rgb zero_organ 95.823 95.823 95.823 = (Fin 6, Fin 6, Fin 7) /\
  cast_byte (snd (organ_rgb zero_organ 95.823 95.823 95.823)) = Some 7%Z.
Proof.
  assert (E : forall gain, channel_brightness gain 0 95.823 = Fin 6).
  { intros gain.
    change (channel_brightness gain 0 95.823)
      with (substituted gain 0 95.823).
    unfold substituted, quiet_8bit.
    now rewrite below_floor_0, quiet_8bit_dim_white. }
  assert (D : dim_white (Fin 6) (Fin 6) (Fin 6) = true).
  { unfold dim_white. cbn [xeq xlt]. float_cases; try lra; reflexivity. }
  assert (O : organ_rgb zero_organ 95.823 95.823 95.823
              = (Fin 6, Fin 6, Fin 7)).
  { unfold organ_rgb. cbn [peakRed peakGreen peakBlue zero_organ].
    rewrite !E, D. cbn [xincr]. do 2 f_equal. lra. }
  split; [apply below_floor_0|]. split; [apply quiet_8bit_dim_white|].
  split; [exact O|]. rewrite O. cbn [snd].
  destruct (cast_byte_Fin 7) as [-> _]; [lra|].
  f_equal. apply (Int_part_IZR 7).
Qed.

(** C3, amended.  For red and green, a channel below the floor is sent as
    the 8-bit value of its quiet colour component,
    [byte(round(quiet / 16.6))], and a channel at or above the floor as its
    dB value.  The same holds for blue, except that when the three values
    come out as a dim white (equal, below 23 and not 0) blue is sent one
    higher. *)
Theorem quiet_colour_substitution (o : OrganVars) (qr qg qb : R) :
  exists red green blue0 : xfloat,
    red = (if below_floor RED_GAIN (peakRed o)
           then Fin (IZR (byte (round (qr / 16.6))))
           else dB_scale (makeValid (RED_GAIN * peakRed o))) /\
    green = (if below_floor GREEN_GAIN (peakGreen o)
             then Fin (IZR (byte (round (qg / 16.6))))
             else dB_scale (makeValid (GREEN_GAIN * peakGreen o))) /\
    blue0 = (if below_floor BLUE_GAIN (peakBlue o)
             then Fin (IZR (byte (round (qb / 16.6))))
             else dB_scale (makeValid (BLUE_GAIN * peakBlue o))) /\
    organ_rgb o qr qg qb =
      (red, green, if dim_white red green blue0 then xincr blue0 else blue0) /\
    cast_byte red =
      Some (if below_floor RED_GAIN (peakRed o)
            then byte (round (qr / 16.6))
            else truncZ (dB (makeValid (RED_GAIN * peakRed o)))) /\
    cast_byte green =
      Some (if below_floor GREEN_GAIN (peakGreen o)
            then byte (round (qg / 16.6))
            else truncZ (dB (makeValid (GREEN_GAIN * peakGreen o)))) /\
    cast_byte (if dim_white red green blue0 then xincr blue0 else blue0) =
      Some ((if below_floor BLUE_GAIN (peakBlue o)
             then byte (round (qb / 16.6))
             else truncZ (dB (makeValid (BLUE_GAIN * peakBlue o))))
            + (if dim_white red green blue0 then 1 else 0))%Z.
Proof.
  destruct (organ_rgb_bytes o qr qg qb)
    as (red & green & blue0 & Hr & Hg & Hb & H).
  cbv zeta in H. destruct H as (E & Cr & Cg & Cb & _).
  exists red, green, blue0.
  repeat split; assumption.
Qed.

(** ** The automatic gain control *)

Lemma AGC_spec (raw sm g : R) :
  forall sm' g', AGC raw sm g = (sm', g') ->
    Rabs raw <= sm' /\
    g' <= g /\
    (0 <= g -> 0 <= g') /\
    (g * sm <= MAX_ANALOG / 2 -> g' * sm' <= MAX_ANALOG / 2) /\
    (Rabs raw > sm /\ g * Rabs raw > MAX_ANALOG / 2 ->
     sm' = Rabs raw /\ g' = MAX_ANALOG / 2 / sm' /\
     g' * sm' = MAX_ANALOG / 2 /\ g' < g) /\
    (~ (Rabs raw > sm /\ g * Rabs raw > MAX_ANALOG / 2) -> g' = g).
Proof.
  intros sm' g'. unfold AGC. rewrite abs_Rabs.
  pose proof (Rabs_pos raw) as Ha. set (a := Rabs raw) in *.
  unfold MAX_ANALOG.
  destruct (a >? sm) eqn:E1.
  - apply fgt_true in E1.
    destruct (g * a >? 4095 / 2) eqn:E2.
    + apply fgt_true in E2. intros [= <- <-].
      assert (Hpos : 0 < a).
      { destruct Ha as [Hp | Hz]; [exact Hp|].
        rewrite <- Hz, Rmult_0_r in E2. lra. }
      assert (Hprod : 4095 / 2 / a * a = 4095 / 2) by (field; lra).
      assert (Hlt : 4095 / 2 / a < g).
      { apply Rmult_lt_reg_r with a; [exact Hpos|]. lra. }
      assert (Hge : 0 <= 4095 / 2 / a).
      { apply Rmult_le_reg_r with a; [exact Hpos|]. lra. }
      repeat split; intros; try lra.
    + apply fgt_false in E2. intros [= <- <-].
      repeat split; intros; try lra.
  - apply fgt_false in E1. intros [= <- <-].
    repeat split; intros; try lra.
Qed.

Lemma sampling_loop_invariant (Inv : OrganVars -> Prop) (e : Env) :
  (forall o o', Inv o -> pass e o = Some o' -> Inv o') ->
  forall k o ok, Inv o -> sampling_loop e k o = Interrupted ok -> Inv ok.
Proof.
  intros Hstep. induction k as [|k IH]; intros o ok Ho E.
  - cbn in E. now injection E as <-.
  - rewrite sampling_loop_S in E.
    destruct (sampleCount o <? SAMPLE_SIZE)%Z; [|discriminate].
    destruct (pass e o) as [o1|] eqn:Ep; [|discriminate].
    apply (IH o1); [now apply (Hstep o) | exact E].
Qed.

Lemma sampling_loop_add (e : Env) (k j : nat) (o ok : OrganVars) :
  sampling_loop e k o = Interrupted ok ->
  sampling_loop e (k + j) o = sampling_loop e j ok.
Proof.
  revert o. induction k as [|k IH]; intros o E.
  - cbn in E. now injection E as <-.
  - cbn [Nat.add]. rewrite sampling_loop_S in *.
    destruct (sampleCount o <? SAMPLE_SIZE)%Z; [|discriminate].
    destruct (pass e o) as [o1|]; [|discriminate].
    now apply IH.
Qed.

(** Two consecutive interruptions of the loop are one pass apart. *)
Lemma sampling_loop_next (e : Env) (k : nat) (o ok ok' : OrganVars) :
  sampling_loop e k o = Interrupted ok ->
  sampling_loop e (S k) o = Interrupted ok' ->
  (sampleCount ok < SAMPLE_SIZE)%Z /\ pass e ok = Some ok'.
Proof.
  intros E E'.
  replace (S k) with (k + 1)%nat in E' by lia.
  rewrite (sampling_loop_add e k 1 o ok E), sampling_loop_S in E'.
  destruct (Z.ltb_spec (sampleCount ok) SAMPLE_SIZE); [|discriminate].
  destruct (pass e ok) as [o1|]; [|discriminate].
  cbn in E'. injection E' as <-. now split.
Qed.

(** An interruption after a pass follows an interruption before it. *)
Lemma sampling_loop_prev (e : Env) (k : nat) (o ok' : OrganVars) :
  sampling_loop e (S k) o = Interrupted ok' ->
  exists ok, sampling_loop e k o = Interrupted ok.
Proof.
  revert o. induction k as [|k IH]; intros o E.
  - now exists o.
  - rewrite sampling_loop_S in E. rewrite sampling_loop_S.
    destruct (sampleCount o <? SAMPLE_SIZE)%Z; [|discriminate].
    destruct (pass e o) as [o1|]; [|discriminate].
    now apply IH.
Qed.

Lemma pass_gain (e : Env) (o o' : OrganVars) :
  pass e o = Some o' ->
  inputGain o' = inputGain o \/ (overshoot o o' /\ inputGain o' < inputGain o).
Proof.
  intros Hp. apply pass_Some in Hp. destruct Hp as [Hp _]. symmetry in Hp.
  destruct (AGC_spec _ _ _ _ _ Hp) as (_ & _ & _ & _ & Hover & Hno).
  destruct (Rgt_dec (Rabs (rawSample o')) (sampleMax o)) as [H1|H1];
    [destruct (Rgt_dec (inputGain o * Rabs (rawSample o')) (MAX_ANALOG / 2))
       as [H2|H2]|].
  - right. split; [now split|]. now apply Hover.
  - left. apply Hno. intros [_ ?]. contradiction.
  - left. apply Hno. intros [? _]. contradiction.
Qed.

Lemma pass_gain_le (e : Env) (o o' : OrganVars) :
  pass e o = Some o' -> inputGain o' <= inputGain o.
Proof. intros Hp. destruct (pass_gain e o o' Hp) as [-> | [_ H]]; lra. Qed.

Lemma sampling_loop_gain_le (e : Env) (k : nat) (o ok : OrganVars) :
  sampling_loop e k o = Interrupted ok -> inputGain ok <= inputGain o.
Proof.
  apply (sampling_loop_invariant (fun x => inputGain x <= inputGain o) e).
  - intros o1 o2 H1 Hp. apply pass_gain_le in Hp. lra.
  - lra.
Qed.

Lemma pass_AGC_inv (e : Env) (o o' : OrganVars) :
  AGC_inv o -> pass e o = Some o' -> AGC_inv o'.
Proof.
  intros [H0 H1] Hp. apply pass_Some in Hp. destruct Hp as [Hp _].
  symmetry in Hp.
  destruct (AGC_spec _ _ _ _ _ Hp) as (_ & _ & Hg & Hc & _).
  split; [now apply Hg | now apply Hc].
Qed.

Lemma hanningWindow_range (i : Z) (w : R) :
  array_get hanningWindow i = Some w -> 0 <= w <= 1.
Proof.
  unfold array_get. destruct (i <? 0)%Z; [discriminate|].
  intros H. apply nth_error_In in H. unfold hanningWindow in H.
  apply in_map_iff in H. destruct H as (n & <- & _).
  pose proof (COS_bound (2 * PI * INR n / IZR (SAMPLE_SIZE - 1))). lra.
Qed.

Lemma AGCalpha_value : AGCalpha = 0.032.
Proof. unfold AGCalpha, UPDATE_PERIOD, AGC_TAU. lra. Qed.

Lemma AGCboost_pos : 0 < AGCboost.
Proof. unfold AGCboost, pow, Rpower. apply exp_pos. Qed.

Lemma AGC_recover_gain (o : OrganVars) :
  inputGain o <= inputGain (AGC_recover o) /\
  (inputGain o < AGCboost -> inputGain o < inputGain (AGC_recover o)) /\
  (0 <= inputGain o -> 0 <= inputGain (AGC_recover o)).
Proof.
  unfold AGC_recover. rewrite AGCalpha_value.
  destruct (inputGain o <? AGCboost) eqn:E.
  - apply flt_true in E. cbn [inputGain set_inputGain].
    repeat split; intros; lra.
  - apply flt_false in E. repeat split; intros; lra.
Qed.

(** C1.  In a block that starts as every block does, with no peak yet and
    a gain that is not negative, after each of the [SAMPLE_SIZE] passes the
    gain times the peak of the block is at most [MAX_ANALOG / 2], and so is
    the magnitude of [rawSample * inputGain], before and after the window;
    a new peak with which the gain would pass the ceiling sets the gain, in
    that pass, to [MAX_ANALOG / 2] divided by the peak. *)
Theorem AGC_gain_peak_bounded (e : Env) (st : OrganVars) (k : nat) :
  sampleMax st = 0 -> 0 <= inputGain st ->
  (k < Z.to_nat SAMPLE_SIZE)%nat ->
  exists o o' w,
    sampling_loop e k (set_sampleCount 0 st) = Interrupted o /\
    sampling_loop e (S k) (set_sampleCount 0 st) = Interrupted o' /\
    inputGain o' * sampleMax o' <= MAX_ANALOG / 2 /\
    Rabs (rawSample o' * inputGain o') <= MAX_ANALOG / 2 /\
    audioSample o' = rawSample o' * inputGain o' * w /\
    Rabs (audioSample o') <= MAX_ANALOG / 2 /\
    (overshoot o o' ->
     sampleMax o' = Rabs (rawSample o') /\
     inputGain o' = MAX_ANALOG / 2 / sampleMax o' /\
     inputGain o' * sampleMax o' = MAX_ANALOG / 2).
Proof.
  intros Hmax Hgain Hk.
  destruct (sampling_loop_passes e k (set_sampleCount 0 st))
    as (o & E & Hc & _);
    [cbn; lia | cbn; unfold SAMPLE_SIZE in *; lia |].
  cbn [sampleCount set_sampleCount] in Hc.
  destruct (pass_spec e o) as (o' & Hp & _);
    [unfold SAMPLE_SIZE in *; lia|].
  assert (E' : sampling_loop e (S k) (set_sampleCount 0 st) = Interrupted o').
  { replace (S k) with (k + 1)%nat by lia.
    rewrite (sampling_loop_add e k 1 _ o E), sampling_loop_S, Hp.
    destruct (Z.ltb_spec (sampleCount o) SAMPLE_SIZE);
      [reflexivity | unfold SAMPLE_SIZE in *; lia]. }
  assert (Hinv : AGC_inv o).
  { apply (sampling_loop_invariant AGC_inv e (pass_AGC_inv e) k
             (set_sampleCount 0 st)); [|exact E].
    split; cbn [inputGain sampleMax set_sampleCount];
      [exact Hgain | rewrite Hmax; unfold MAX_ANALOG; lra]. }
  destruct Hinv as [Hg0 Hprod].
  destruct (pass_Some e o o' Hp) as (HA & w & Hw & Haudio).
  symmetry in HA.
  destruct (AGC_spec _ _ _ _ _ HA) as (Hpeak & _ & Hg & Hc' & Hover & _).
  specialize (Hg Hg0). specialize (Hc' Hprod).
  apply hanningWindow_range in Hw.
  assert (Hraw : Rabs (rawSample o' * inputGain o') <= MAX_ANALOG / 2).
  { rewrite Rabs_mult, (Rabs_pos_eq (inputGain o')) by exact Hg.
    apply Rle_trans with (sampleMax o' * inputGain o'); [|lra].
    apply Rmult_le_compat_r; assumption. }
  exists o, o', w.
  split; [exact E|]. split; [exact E'|]. split; [exact Hc'|].
  split; [exact Hraw|]. split; [exact Haudio|]. split.
  - rewrite Haudio, Rabs_mult, (Rabs_pos_eq w) by lra.
    pose proof (Rabs_pos (rawSample o' * inputGain o')). nra.
  - intros Ho. destruct (Hover Ho) as (H1 & H2 & H3 & _). now repeat split.
Qed.

(** C10.  The sampling loop ends, after exactly [SAMPLE_SIZE] passes of its
    body and as many ADC readings; in the pass that follows [k] earlier
    ones, [k] below [SAMPLE_SIZE], the index [sampleCount - 1] into
    [hanningWindow] is [k], between 0 and [SAMPLE_SIZE - 1], and the read is
    inside the array. *)
Theorem sampling_loop_window_in_bounds (e : Env) (o : OrganVars) :
  (exists o320,
     sampling_loop e (Z.to_nat SAMPLE_SIZE) (set_sampleCount 0 o)
       = Interrupted o320 /\
     sampling_loop e (S (Z.to_nat SAMPLE_SIZE)) (set_sampleCount 0 o)
       = Done (set_sampleCount (SAMPLE_SIZE + 1) o320) /\
     analogReads o320 = (analogReads o + Z.to_nat SAMPLE_SIZE)%nat) /\
  forall k, (k < Z.to_nat SAMPLE_SIZE)%nat ->
    exists ok ok' w,
      sampling_loop e k (set_sampleCount 0 o) = Interrupted ok /\
      sampling_loop e (S k) (set_sampleCount 0 o) = Interrupted ok' /\
      pass e ok = Some ok' /\
      (sampleCount ok' - 1)%Z = Z.of_nat k /\
      (0 <= sampleCount ok' - 1 <= SAMPLE_SIZE - 1)%Z /\
      array_get hanningWindow (sampleCount ok' - 1) = Some w.
Proof.
  split.
  - destruct (sampling_loop_done e (S (Z.to_nat SAMPLE_SIZE)) o)
      as (o320 & o' & E320 & -> & E & Hr); [lia|].
    exists o320. split; [exact E320|]. split; [exact E|exact Hr].
  - intros k Hk.
    destruct (sampling_loop_passes e k (set_sampleCount 0 o))
      as (ok & E & Hc & _);
      [cbn; lia | cbn; unfold SAMPLE_SIZE in *; lia |].
    cbn [sampleCount set_sampleCount] in Hc.
    destruct (pass_spec e ok) as (ok' & Hp & Hc' & _);
      [unfold SAMPLE_SIZE in *; lia|].
    destruct (pass_Some e ok ok' Hp) as (_ & w & Hw & _).
    exists ok, ok', w. split; [exact E|]. split.
    { replace (S k) with (k + 1)%nat by lia.
      rewrite (sampling_loop_add e k 1 _ ok E), sampling_loop_S, Hp.
      destruct (Z.ltb_spec (sampleCount ok) SAMPLE_SIZE);
        [reflexivity | unfold SAMPLE_SIZE in *; lia]. }
    split; [exact Hp|]. split; [lia|]. split; [|exact Hw].
    unfold SAMPLE_SIZE in *. lia.
Qed.

(** C4.  In a block the gain never increases from one pass to a later one,
    and a pass changes it only to correct an overshoot, downwards.  The one
    step that can raise it is the recovery after the [SAMPLE_SIZE] passes,
    which never lowers it.  Hence over a block without overshoot the gain
    stays as it was during the passes and is not lower after the block. *)
Theorem AGC_gain_rises_only_between_blocks (e : Env) (st : State) :
  exists o320 st',
    sampling_loop e (Z.to_nat SAMPLE_SIZE) (set_sampleCount 0 (organ st))
      = Interrupted o320 /\
    ShowColorOrgan e st = Some st' /\
    (forall k1 k2 o1 o2,
        (k1 <= k2)%nat ->
        sampling_loop e k1 (set_sampleCount 0 (organ st)) = Interrupted o1 ->
        sampling_loop e k2 (set_sampleCount 0 (organ st)) = Interrupted o2 ->
        inputGain o2 <= inputGain o1) /\
    (forall k o o',
        sampling_loop e k (set_sampleCount 0 (organ st)) = Interrupted o ->
        sampling_loop e (S k) (set_sampleCount 0 (organ st))
          = Interrupted o' ->
        inputGain o' = inputGain o \/
        (overshoot o o' /\ inputGain o' < inputGain o)) /\
    inputGain o320 <= inputGain (organ st') /\
    (inputGain o320 < AGCboost -> inputGain o320 < inputGain (organ st')) /\
    ((forall k o o',
         sampling_loop e k (set_sampleCount 0 (organ st)) = Interrupted o ->
         sampling_loop e (S k) (set_sampleCount 0 (organ st))
           = Interrupted o' ->
         ~ overshoot o o') ->
     (forall k ok,
         sampling_loop e k (set_sampleCount 0 (organ st)) = Interrupted ok ->
         inputGain ok = inputGain (organ st)) /\
     inputGain (organ st) <= inputGain (organ st')).
Proof.
  destruct (ShowColorOrgan_spec e st) as (o320 & c & E320 & _ & ES).
  eexists o320, _. split; [exact E320|]. split; [exact ES|].
  cbn [organ show set_output set_leds set_organ inputGain set_sampleMax].
  destruct (AGC_recover_gain (set_sampleCount (SAMPLE_SIZE + 1) o320))
    as (Hup & Hstrict & _).
  cbn [inputGain set_sampleCount] in Hup, Hstrict.
  assert (Hnext : forall k o o',
    sampling_loop e k (set_sampleCount 0 (organ st)) = Interrupted o ->
    sampling_loop e (S k) (set_sampleCount 0 (organ st)) = Interrupted o' ->
    inputGain o' = inputGain o \/
    (overshoot o o' /\ inputGain o' < inputGain o)).
  { intros k o o' E E'.
    destruct (sampling_loop_next e k _ o o' E E') as [_ Hp].
    now apply (pass_gain e). }
  split; [|split; [exact Hnext|split; [exact Hup|split; [exact Hstrict|]]]].
  - intros k1 k2 o1 o2 Hk E1 E2.
    replace k2 with (k1 + (k2 - k1))%nat in E2 by lia.
    rewrite (sampling_loop_add e k1 (k2 - k1) _ o1 E1) in E2.
    now apply sampling_loop_gain_le in E2.
  - intros Hno.
    assert (Hconst : forall k ok,
      sampling_loop e k (set_sampleCount 0 (organ st)) = Interrupted ok ->
      inputGain ok = inputGain (organ st)).
    { induction k as [|k IH]; intros ok E.
      - cbn in E. now injection E as <-.
      - destruct (sampling_loop_prev e k _ ok E) as [o1 Ek].
        destruct (Hnext k o1 ok Ek E) as [-> | [Ho _]].
        + now apply IH.
        + exfalso. now apply (Hno k o1 ok). }
    split; [exact Hconst|].
    rewrite <- (Hconst _ _ E320). exact Hup.
Qed.

(** ** The remote control *)

Lemma remote_key_event (e : Env) (code : Z) (st : State) :
  key_event e code -> code <> 0%Z ->
  remote e st =
  key_pressed e (set_keyTimer (millis e) (set_keyCode code (idle_reset e st))).
Proof.
  intros (f & Hf & Hp & Hv & Hc) Hcode.
  apply Z.eqb_neq in Hv.
  assert (H0 : (value f =? 0)%Z = false).
  { apply Z.eqb_neq. intros E0. rewrite E0 in Hc. cbn in Hc. congruence. }
  unfold remote. fold (idle_reset e st).
  rewrite Hf, Hv, Hp, H0, Hv, Hc. reflexivity.
Qed.

Lemma mode_state_ShowBuffer (st : State) :
  mode_state (ShowBuffer st) = mode_state st.
Proof. reflexivity. Qed.

Lemma mode_state_Blink (st : State) : mode_state (Blink st) = mode_state st.
Proof. reflexivity. Qed.

Lemma kept_refl (st : State) : kept st st.
Proof. repeat split. Qed.

Lemma kept_trans (a b c : State) : kept a b -> kept b c -> kept a c.
Proof.
  intros (H1 & H2 & H3 & H4) (K1 & K2 & K3 & K4).
  repeat split; congruence.
Qed.

Lemma random_leds_kept (e : Env) (n : nat) (s v : R) (st : State) :
  kept st (snd (random_leds e n s v st)).
Proof.
  revert st. induction n as [|n IH]; intros st; cbn [random_leds].
  - apply kept_refl.
  - unfold random.
    specialize (IH (set_randomCalls (S (randomCalls st)) st)).
    destruct (random_leds e n s v _) as [l st1]. exact IH.
Qed.

Lemma CreateRandom_kept (e : Env) (s v : R) (st : State) :
  kept st (CreateRandom e s v st).
Proof.
  unfold CreateRandom.
  pose proof (random_leds_kept e TOTAL_LEDS s v st) as H.
  destruct (random_leds e TOTAL_LEDS s v st) as [l st1]. exact H.
Qed.

Lemma ShowBuffer_kept (st : State) : kept st (ShowBuffer st).
Proof. repeat split. Qed.

Lemma Blink_kept (st : State) : kept st (Blink st).
Proof. repeat split. Qed.

Lemma refresh_kept (e : Env) (st : State) : kept st (refresh e st).
Proof.
  unfold refresh.
  set (st1 := if Mode_eqb (currentState st) SolidColor
                 || Mode_eqb (currentState st) QuietColor
              then _ else st).
  assert (H1 : kept st st1).
  { subst st1. destruct (_ || _); [repeat split | apply kept_refl]. }
  clearbody st1.
  set (st2 := if Mode_eqb (currentState st1) RandomColors then _ else st1).
  assert (H2 : kept st1 st2).
  { subst st2. destruct (Mode_eqb (currentState st1) RandomColors);
      [|apply kept_refl].
    eapply kept_trans; [apply CreateRandom_kept | apply ShowBuffer_kept]. }
  clearbody st2.
  apply (kept_trans _ st2); [now apply (kept_trans _ st1)|].
  destruct (Mode_eqb (currentState st2) Rainbow);
    [repeat split | apply kept_refl].
Qed.

Lemma key_switch_power (e : Env) (st : State) :
  keyCode st = 0x58a7%Z -> key_switch e st = st.
Proof. intros H. unfold key_switch. rewrite H. reflexivity. Qed.

Lemma key_pressed_other (e : Env) (st : State) :
  keyCode st <> 0x58a7%Z -> onOff st = true ->
  key_pressed e st = refresh e (key_switch e st).
Proof.
  intros Hk Hon. unfold key_pressed.
  apply Z.eqb_neq in Hk. rewrite Hk, Hon. reflexivity.
Qed.

Lemma key_pressed_power_off (e : Env) (st : State) :
  keyCode st = 0x58a7%Z -> onOff st = true ->
  key_pressed e st = show (leds_off (set_onOff false st)).
Proof.
  intros Hk Hon. unfold key_pressed. rewrite Hk, Hon. reflexivity.
Qed.

Lemma key_pressed_power_on (e : Env) (st : State) :
  keyCode st = 0x58a7%Z -> onOff st = false ->
  key_pressed e st = refresh e (set_onOff true st).
Proof.
  intros Hk Hoff. unfold key_pressed. rewrite Hk, Hoff.
  cbn [Z.eqb Pos.eqb negb onOff set_onOff].
  now rewrite key_switch_power.
Qed.

Lemma untouched_idle_reset (e : Env) (st : State) :
  untouched st (idle_reset e st).
Proof. unfold idle_reset. destruct (_ >? _)%Z; repeat split. Qed.

Lemma untouched_trans (a b c : State) :
  untouched a b -> untouched b c -> untouched a c.
Proof.
  unfold untouched. intros H K.
  decompose [and] H. decompose [and] K. repeat split; congruence.
Qed.

Lemma running_off (e : Env) (st : State) :
  onOff st = false -> running e st = Some st.
Proof. intros H. unfold running. now rewrite H. Qed.

(** A pass of the remote control while OFF: nothing but the key variables
    changes, unless the On/Off button turns the display ON, and then the
    modes are as they were. *)
Lemma remote_off (e : Env) (st : State) :
  onOff st = false ->
  untouched st (remote e st) \/
  (onOff (remote e st) = true /\ keyCode (remote e st) = 0x58a7%Z /\
   mode_state (remote e st) = mode_state st /\
   organ (remote e st) = organ st).
Proof.
  intros Hoff. unfold remote. fold (idle_reset e st).
  pose proof (untouched_idle_reset e st) as H0.
  set (st0 := idle_reset e st) in *. clearbody st0.
  destruct (frame e) as [f|]; [|now left].
  set (p := if (value f =? 0xffffffff)%Z then _ else (value f, st0)).
  assert (Hp : untouched st (snd p)).
  { subst p. destruct (value f =? 0xffffffff)%Z; [|exact H0].
    cbn [repeatCount set_keyTimer].
    destruct (repeatCount st0 >? 5)%Z;
      (eapply untouched_trans; [exact H0|]); repeat split. }
  clearbody p. destruct p as [v st1]. cbn [snd] in Hp.
  destruct (_ && _); [|now left].
  set (st2 := set_keyTimer (millis e) (set_keyCode (Z.land v 0xffff) st1)).
  assert (H2 : untouched st st2)
    by (eapply untouched_trans; [exact Hp|]; repeat split).
  assert (Hoff2 : onOff st2 = false) by (destruct H2 as [-> _]; exact Hoff).
  destruct (Z.eq_dec (keyCode st2) 0x58a7) as [Hk|Hk].
  - right. rewrite (key_pressed_power_on e st2 Hk Hoff2).
    destruct (refresh_kept e (set_onOff true st2)) as (Hm & Ho & Hg & Hc).
    destruct H2 as (_ & Hm2 & Hg2 & _).
    rewrite Ho, Hm, Hg, Hc. repeat split; assumption.
  - left. unfold key_pressed. apply Z.eqb_neq in Hk. rewrite Hk, Hoff2.
    exact H2.
Qed.

Lemma loop_idle_off (e : Env) (st : State) :
  frame e = None -> onOff st = false ->
  loop e st = Some (idle_reset e st).
Proof.
  intros Hf Hoff. unfold loop, remote. fold (idle_reset e st). rewrite Hf.
  apply running_off. now destruct (untouched_idle_reset e st) as [-> _].
Qed.

Lemma loops_idle_off (es : list Env) (st : State) :
  Forall (fun e => frame e = None) es -> onOff st = false ->
  exists st', loops es st = Some st' /\ untouched st st'.
Proof.
  intros H. revert st. induction H as [|e es He _ IH]; intros st Hoff.
  - exists st. split; [reflexivity | repeat split].
  - cbn [loops]. rewrite (loop_idle_off e st He Hoff).
    pose proof (untouched_idle_reset e st) as H0.
    destruct (IH (idle_reset e st)) as (st' & E & H');
      [destruct H0 as [-> _]; exact Hoff|].
    exists st'. split; [exact E|]. now apply (untouched_trans _ _ _ H0).
Qed.

(** C8.  The On/Off button pressed while ON blanks the LEDs and leaves the
    modes and the colour organ as they are.  While OFF, passes of [loop()]
    without a key change nothing but the key variables, and any pass
    either does the same or is the On/Off button turning the display ON.
    The On/Off button pressed again hands the modes to the display as they
    were before OFF: mode, hue, saturation, brightness, animation period,
    sparkle and its rate, and the quiet colour. *)
Theorem power_off_on (st : State) (e_off e_on : Env) (es : list Env) :
  onOff st = true ->
  key_event e_off 0x58a7 ->
  Forall (fun e => frame e = None) es ->
  key_event e_on 0x58a7 ->
  exists st1 st2,
    loop e_off st = Some st1 /\
    loops es st1 = Some st2 /\
    onOff st1 = false /\
    leds st1 = map (fun _ => CRGB.Black) (seq 0 TOTAL_LEDS) /\
    output st1 = FastLED_show (leds st1) :: output st /\
    mode_state st1 = mode_state st /\
    organ st1 = organ st /\
    untouched st1 st2 /\
    onOff (remote e_on st2) = true /\
    mode_state (remote e_on st2) = mode_state st /\
    organ (remote e_on st2) = organ st /\
    (forall e s,
        onOff s = false ->
        mode_state (remote e s) = mode_state s /\
        organ (remote e s) = organ s /\
        (onOff (remote e s) = true -> keyCode (remote e s) = 0x58a7%Z) /\
        (onOff (remote e s) = false ->
         loop e s = Some (remote e s) /\ untouched s (remote e s))).
Proof.
  intros Hon Hoff Hes Hon'.
  assert (Hne : 0x58a7%Z <> 0%Z) by discriminate.
  set (st1 := show (leds_off (set_onOff false
                (set_keyTimer (millis e_off)
                   (set_keyCode 0x58a7 (idle_reset e_off st)))))).
  assert (H0 : untouched st (idle_reset e_off st))
    by apply untouched_idle_reset.
  assert (E1 : remote e_off st = st1).
  { rewrite (remote_key_event e_off _ st Hoff Hne).
    apply key_pressed_power_off; [reflexivity|].
    cbn [onOff set_keyTimer set_keyCode].
    destruct H0 as [-> _]. exact Hon. }
  assert (Hoff1 : onOff st1 = false) by reflexivity.
  destruct (loops_idle_off es st1 Hes Hoff1) as (st2 & E2 & H2).
  exists st1, st2.
  split; [unfold loop; rewrite E1; now apply running_off|].
  split; [exact E2|]. split; [exact Hoff1|]. split; [reflexivity|].
  split; [change (FastLED_show (leds st1) :: output (idle_reset e_off st)
                  = FastLED_show (leds st1) :: output st);
          f_equal; now destruct H0 as (_ & _ & _ & _ & _ & -> & _)|].
  split; [change (mode_state (idle_reset e_off st) = mode_state st);
          now destruct H0 as (_ & -> & _)|].
  split; [change (organ (idle_reset e_off st) = organ st);
          now destruct H0 as (_ & _ & -> & _)|].
  split; [exact H2|].
  assert (Hoff2 : onOff st2 = false) by (destruct H2 as [-> _]; exact Hoff1).
  assert (E3 : remote e_on st2 =
               refresh e_on (set_onOff true
                 (set_keyTimer (millis e_on)
                    (set_keyCode 0x58a7 (idle_reset e_on st2))))).
  { rewrite (remote_key_event e_on _ st2 Hon' Hne).
    apply key_pressed_power_on; [reflexivity|].
    cbn [onOff set_keyTimer set_keyCode].
    destruct (untouched_idle_reset e_on st2) as [-> _]. exact Hoff2. }
  rewrite E3.
  destruct (refresh_kept e_on (set_onOff true
              (set_keyTimer (millis e_on)
                 (set_keyCode 0x58a7 (idle_reset e_on st2)))))
    as (Hm & Ho & Hg & _).
  destruct (untouched_idle_reset e_on st2) as (_ & Hm3 & Hg3 & _).
  destruct H2 as (_ & Hm2 & Hg2 & _).
  destruct H0 as (_ & Hm0 & Hg0 & _).
  split; [rewrite Ho; reflexivity|].
  split; [rewrite Hm;
          change (mode_state (idle_reset e_on st2) = mode_state st);
          rewrite Hm3, Hm2; exact Hm0|].
  split; [rewrite Hg;
          change (organ (idle_reset e_on st2) = organ st);
          rewrite Hg3, Hg2; exact Hg0|].
  intros e s Hs.
  destruct (remote_off e s Hs) as [Hu | (Ho' & Hk' & Hm' & Hg')].
  - destruct Hu as (Ho' & Hm' & Hg' & Hrest).
    split; [exact Hm'|]. split; [exact Hg'|].
    split; [intros Ht; congruence|].
    intros _. split; [|repeat split; tauto].
    unfold loop. apply running_off. congruence.
  - split; [exact Hm'|]. split; [exact Hg'|].
    split; [intros _; exact Hk'|]. intros Hf. congruence.
Qed.

Lemma mode_state_fields (st st' : State) :
  mode_state st' = mode_state st ->
  currentState st' = currentState st /\ hue st' = hue st /\
  saturation st' = saturation st /\ brightness st' = brightness st /\
  slowAnimationTime st' = slowAnimationTime st.
Proof. unfold mode_state. intros [= -> -> -> -> ->]. repeat split. Qed.

Lemma key_switch_solid (e : Env) (st : State) :
  keyCode st = 0x48b7%Z -> currentState st = SolidColor ->
  key_switch e st = slow_animation MIN_ANIMATION_TIME e st.
Proof. intros Hk Hm. unfold key_switch. rewrite Hk, Hm. reflexivity. Qed.

Lemma refresh_SolidColor (e : Env) (st : State) :
  currentState st = SolidColor ->
  refresh e st =
  ShowBuffer (CreateSolidColor (hue st) (saturation st) (brightness st) st).
Proof.
  intros Hm. unfold refresh. rewrite Hm. cbn [Mode_eqb orb]. cbv zeta.
  set (st1 := ShowBuffer _).
  assert (E : currentState st1 = SolidColor) by exact Hm.
  rewrite E. cbn [Mode_eqb]. rewrite E. reflexivity.
Qed.

(** The SolidColor key pressed again while in SolidColor and ON. *)
Lemma remote_solid_again (e : Env) (st : State) :
  key_event e 0x48b7 -> onOff st = true -> currentState st = SolidColor ->
  exists st0,
    untouched st st0 /\
    remote e st = refresh e (slow_animation MIN_ANIMATION_TIME e st0).
Proof.
  intros He Hon Hm.
  exists (set_keyTimer (millis e) (set_keyCode 0x48b7 (idle_reset e st))).
  pose proof (untouched_idle_reset e st) as H0.
  split; [eapply untouched_trans; [exact H0|]; repeat split|].
  rewrite (remote_key_event e _ st He) by discriminate.
  rewrite key_pressed_other;
    [| cbn [keyCode set_keyTimer set_keyCode]; discriminate
     | cbn [onOff set_keyTimer set_keyCode];
       destruct H0 as [-> _]; exact Hon].
  rewrite key_switch_solid; [reflexivity | reflexivity |].
  cbn [currentState set_keyTimer set_keyCode].
  destruct H0 as (_ & Hms & _). apply mode_state_fields in Hms.
  destruct Hms as [-> _]. exact Hm.
Qed.

Lemma output_Blink (st : State) :
  output (Blink st) =
  FastLED_show (leds (Blink st)) :: delay 100 :: FastLED_show dark
    :: output st.
Proof. reflexivity. Qed.

(** What [slow_animation] does to the time per step and to the output. *)
Lemma slow_animation_spec (first : Z) (e : Env) (st : State) :
  (0 <= slowAnimationTime st <= MAX_ANIMATION_TIME)%Z ->
  let t := slowAnimationTime st in
  let st' := slow_animation first e st in
  mode_state st' =
    mode_state (set_slowAnimationTime (slowAnimationTime st') st) /\
  (t = 0%Z ->
   slowAnimationTime st' = first /\ slowAnimationTimer st' = millis e /\
   output st' = output st) /\
  ((0 < t)%Z /\ (2 * t <= MAX_ANIMATION_TIME)%Z ->
   slowAnimationTime st' = (2 * t)%Z /\ output st' = output st) /\
  ((MAX_ANIMATION_TIME < 2 * t)%Z ->
   slowAnimationTime st' = MAX_ANIMATION_TIME /\
   exists f,
     output st' =
       FastLED_show f :: delay 100 :: FastLED_show dark :: output st).
Proof.
  unfold MAX_ANIMATION_TIME. intros Ht. cbv zeta. unfold slow_animation.
  destruct (Z.eqb_spec (slowAnimationTime st) 0) as [E0|N0].
  - split; [reflexivity|].
    split; [intros _; repeat split|]. split; intros; lia.
  - cbn [slowAnimationTime set_slowAnimationTime].
    rewrite int32_small by lia.
    destruct (Z.gtb_spec (slowAnimationTime st * 2) MAX_ANIMATION_TIME)
      as [Hgt|Hle]; unfold MAX_ANIMATION_TIME in *.
    + split; [reflexivity|]. split; [intros; lia|]. split; [intros; lia|].
      intros _. split; [reflexivity|]. eexists.
      exact (output_Blink (set_slowAnimationTime 4096
               (set_slowAnimationTime (slowAnimationTime st * 2) st))).
    + split; [reflexivity|]. split; [intros; lia|]. split; [|intros; lia].
      intros _.
      split; [cbn [slowAnimationTime set_slowAnimationTime]; lia
             | reflexivity].
Qed.

(** The time per step after the SolidColor key is pressed again. *)
Lemma remote_solid_again_time (e : Env) (st : State) :
  key_event e 0x48b7 -> onOff st = true -> currentState st = SolidColor ->
  exists st0,
    untouched st st0 /\
    remote e st = refresh e (slow_animation MIN_ANIMATION_TIME e st0) /\
    slowAnimationTime (remote e st)
      = slowAnimationTime (slow_animation MIN_ANIMATION_TIME e st0) /\
    slowAnimationTime st0 = slowAnimationTime st.
Proof.
  intros He Hon Hm.
  destruct (remote_solid_again e st He Hon Hm) as (st0 & Hu & E).
  exists st0. split; [exact Hu|]. split; [exact E|]. rewrite E.
  destruct (refresh_kept e (slow_animation MIN_ANIMATION_TIME e st0))
    as (Hk & _).
  apply mode_state_fields in Hk. destruct Hk as (_ & _ & _ & _ & ->).
  split; [reflexivity|].
  destruct Hu as (_ & Hms & _). apply mode_state_fields in Hms. tauto.
Qed.

Lemma key_event_solid_key : key_event solid_key 0x48b7.
Proof. exists (mkFrame 1 0x48b7). repeat split. discriminate. Qed.

(** C6, as the claim states it, fails in its second part: a further press
    of the SolidColor key does not halve the time per step, it doubles it
    (32 ms becomes 64 ms, not 16 ms). *)
Lemma SolidColor_key_doubles :
  onOff solid_32 = true /\ currentState solid_32 = SolidColor /\
  slowAnimationTime solid_32 = 32%Z /\
  slowAnimationTime (remote solid_key solid_32) = 64%Z /\
  slowAnimationTime (remote solid_key solid_32) <> (32 / 2)%Z.
Proof.
  assert (E : slowAnimationTime (remote solid_key solid_32) = 64%Z).
  { destruct (remote_solid_again_time solid_key solid_32)
      as (st0 & _ & _ & -> & Ht);
      [apply key_event_solid_key | reflexivity | reflexivity |].
    change (slowAnimationTime solid_32) with 32%Z in Ht.
    destruct (slow_animation_spec MIN_ANIMATION_TIME solid_key st0)
      as (_ & _ & H2 & _); [rewrite Ht; unfold MAX_ANIMATION_TIME; lia|].
    cbv zeta in H2. rewrite Ht in H2.
    destruct H2 as [-> _]; [unfold MAX_ANIMATION_TIME; lia | reflexivity]. }
  split; [reflexivity|]. split; [reflexivity|]. split; [reflexivity|].
  split; [exact E|]. rewrite E. discriminate.
Qed.

(** C6, amended.  With the display ON and in SolidColor, the SolidColor
    key keeps the mode and the colour.  With the animation static it
    starts the animation at the minimum time per step; otherwise it
    doubles the time per step, up to the maximum; once the double would
    pass the maximum the time per step is left at the maximum, and the
    display blinks (all LEDs off, 100 ms, then the buffer again). *)
Theorem SolidColor_key_again (e : Env) (st : State) :
  key_event e 0x48b7 -> onOff st = true -> currentState st = SolidColor ->
  (0 <= slowAnimationTime st <= MAX_ANIMATION_TIME)%Z ->
  let t := slowAnimationTime st in
  let st' := remote e st in
  currentState st' = SolidColor /\
  (hue st', saturation st', brightness st')
    = (hue st, saturation st, brightness st) /\
  (t = 0%Z ->
   slowAnimationTime st' = MIN_ANIMATION_TIME /\
   slowAnimationTimer st' = millis e /\
   output st' = FastLED_show (leds st') :: output st) /\
  ((0 < t)%Z /\ (2 * t <= MAX_ANIMATION_TIME)%Z ->
   slowAnimationTime st' = (2 * t)%Z /\
   output st' = FastLED_show (leds st') :: output st) /\
  ((MAX_ANIMATION_TIME < 2 * t)%Z ->
   slowAnimationTime st' = MAX_ANIMATION_TIME /\
   exists f,
     output st' =
       FastLED_show (leds st') :: FastLED_show f :: delay 100
         :: FastLED_show dark :: output st).
Proof.
  intros He Hon Hm Ht. cbv zeta.
  destruct (remote_solid_again_time e st He Hon Hm)
    as (st0 & Hu & E & Et & Et0).
  destruct (slow_animation_spec MIN_ANIMATION_TIME e st0)
    as (Hms & H0 & H2 & Hmax); [now rewrite Et0|].
  cbv zeta in Hms, H0, H2, Hmax. rewrite Et0 in H0, H2, Hmax.
  set (sa := slow_animation MIN_ANIMATION_TIME e st0) in *.
  destruct Hu as (_ & Hu & _ & _ & _ & Hout & _).
  apply mode_state_fields in Hms.
  cbn [currentState hue saturation brightness set_slowAnimationTime] in Hms.
  destruct Hms as (Hc & Hh & Hs & Hb & _).
  apply mode_state_fields in Hu. destruct Hu as (Hc0 & Hh0 & Hs0 & Hb0 & _).
  assert (Hsolid : currentState sa = SolidColor) by congruence.
  rewrite E, (refresh_SolidColor e sa Hsolid) in *.
  set (st' := ShowBuffer _) in *.
  assert (Eo : output st' = FastLED_show (leds st') :: output sa)
    by reflexivity.
  assert (Etimer : slowAnimationTimer st' = slowAnimationTimer sa)
    by reflexivity.
  split; [exact Hsolid|].
  split; [change (hue st', saturation st', brightness st')
            with (hue sa, saturation sa, brightness sa); congruence|].
  rewrite Et, Eo, Etimer. split; [|split].
  - intros H. destruct (H0 H) as (-> & -> & ->). now rewrite Hout.
  - intros H. destruct (H2 H) as (-> & ->). now rewrite Hout.
  - intros H. destruct (Hmax H) as (-> & f & ->). split; [reflexivity|].
    exists f. now rewrite Hout.
Qed.

Lemma SolidColor_key_again_witness :
  slowAnimationTime solid_32 = 32%Z /\
  slowAnimationTime (remote solid_key solid_32) = (2 * 32)%Z.
Proof.
  split; [reflexivity|].
  refine (proj1 (proj1 (proj2 (proj2 (proj2
    (SolidColor_key_again solid_key solid_32 key_event_solid_key
       eq_refl eq_refl _)))) _)).
  - change (slowAnimationTime solid_32) with 32%Z.
    unfold MAX_ANIMATION_TIME. lia.
  - change (slowAnimationTime solid_32) with 32%Z.
    unfold MAX_ANIMATION_TIME. lia.
Defined.

(** ** The quiet colour follows the edits made in QuietColor *)

Lemma snapshot_UpdateQuietColor (st : State) :
  snapshot_current (UpdateQuietColor st).
Proof.
  unfold snapshot_current, UpdateQuietColor.
  cbn [quietHue quietSaturation quietBrightness quietRed quietGreen quietBlue
       hue saturation brightness set_quiet].
  split; [reflexivity|]. now destruct (shade _ _ _).
Qed.

Lemma snapshot_if_quiet (st : State) :
  currentState st = QuietColor -> snapshot_current (if_quiet st).
Proof.
  intros H. unfold if_quiet. rewrite H. cbn [Mode_eqb].
  apply snapshot_UpdateQuietColor.
Qed.

Lemma snapshot_mode_state (st st' : State) :
  mode_state st' = mode_state st ->
  snapshot_current st -> snapshot_current st'.
Proof.
  unfold mode_state, snapshot_current.
  intros [= _ -> -> -> _ _ _ -> -> -> -> -> ->]. tauto.
Qed.

Lemma key_switch_snapshot (e : Env) (code : Z) (st : State) :
  In code [next_hue; previous_hue; desaturate; brighten; dim] ->
  keyCode st = code -> currentState st = QuietColor ->
  snapshot_current (key_switch e st) /\
  currentState (key_switch e st) = QuietColor.
Proof.
  intros Hin Hk Hm. unfold key_switch. rewrite Hk.
  assert (Hq : forall x, currentState x = QuietColor ->
            snapshot_current (if_quiet x) /\
            currentState (if_quiet x) = QuietColor).
  { intros x Hx. split; [now apply snapshot_if_quiet|].
    unfold if_quiet. rewrite Hx. exact Hx. }
  cbn [In] in Hin.
  destruct Hin as [<- | [<- | [<- | [<- | [<- | []]]]]];
    cbn [Z.eqb Pos.eqb next_hue previous_hue desaturate brighten dim];
    cbv zeta; apply Hq; branches; exact Hm.
Qed.

(** In QuietColor, the keys for the next and the previous hue, to
    desaturate, to brighten and to dim leave the snapshot of the quiet
    colour equal to the colour they set. *)
Lemma quiet_colour_follows (e : Env) (code : Z) (st : State) :
  In code [next_hue; previous_hue; desaturate; brighten; dim] ->
  key_event e code -> onOff st = true -> currentState st = QuietColor ->
  snapshot_current (remote e st).
Proof.
  intros Hin He Hon Hm.
  assert (Hcode : code <> 0%Z /\ code <> 0x58a7%Z).
  { cbn [In] in Hin.
    destruct Hin as [<- | [<- | [<- | [<- | [<- | []]]]]];
      split; discriminate. }
  destruct Hcode as [Hne Hnp].
  rewrite (remote_key_event e code st He Hne).
  pose proof (untouched_idle_reset e st) as (Ho & Hms & _).
  set (st0 := set_keyTimer (millis e) (set_keyCode code (idle_reset e st))).
  assert (Hon0 : onOff st0 = true)
    by (change (onOff (idle_reset e st) = true); congruence).
  assert (Hm0 : currentState st0 = QuietColor).
  { apply mode_state_fields in Hms. destruct Hms as [Hc _].
    change (currentState (idle_reset e st) = QuietColor). congruence. }
  rewrite (key_pressed_other e st0 Hnp Hon0).
  destruct (key_switch_snapshot e code st0 Hin eq_refl Hm0) as [Hs _].
  destruct (refresh_kept e (key_switch e st0)) as [Hk _].
  now apply (snapshot_mode_state _ _ Hk).
Qed.

Lemma quiet_snapshot_mode_state (st st' : State) :
  mode_state st' = mode_state st -> quiet_snapshot st' = quiet_snapshot st.
Proof.
  unfold mode_state, quiet_snapshot.
  now intros [= _ _ _ _ _ _ _ -> -> -> -> -> ->].
Qed.

(** The key to resaturate never calls [UpdateQuietColor]. *)
Lemma key_switch_resaturate (e : Env) (st : State) :
  keyCode st = resaturate ->
  quiet_snapshot (key_switch e st) = quiet_snapshot st /\
  currentState (key_switch e st) = currentState st /\
  (saturation st = 0 -> saturation (key_switch e st) = SATURATION_LIMIT).
Proof.
  intros Hk. unfold key_switch. rewrite Hk.
  cbn [Z.eqb Pos.eqb resaturate]. cbv zeta.
  split; [branches; reflexivity|]. split; [branches; reflexivity|].
  intros Hs. unfold feq, flt, fgt, BRIGHT_LSB, SATURATION_LIMIT. rewrite !Hs.
  destruct (Req_dec_T 0 0); [|lra].
  cbn [saturation set_saturation].
  destruct (Rgt_dec 0.45 (1.0 - 0.0039)); [lra|].
  reflexivity.
Qed.

(** The key to resaturate, with the display ON. *)
Lemma remote_resaturate (e : Env) (st : State) :
  key_event e resaturate -> onOff st = true ->
  quiet_snapshot (remote e st) = quiet_snapshot st /\
  currentState (remote e st) = currentState st /\
  (saturation st = 0 -> saturation (remote e st) = SATURATION_LIMIT).
Proof.
  intros He Hon.
  set (st0 := set_keyTimer (millis e)
                (set_keyCode resaturate (idle_reset e st))).
  destruct (untouched_idle_reset e st) as (Ho & Hms & _).
  assert (E : remote e st = refresh e (key_switch e st0)).
  { rewrite (remote_key_event _ _ st He) by discriminate.
    apply key_pressed_other; [discriminate|].
    change (onOff (idle_reset e st) = true). congruence. }
  assert (Hms0 : mode_state st0 = mode_state st) by exact Hms.
  destruct (key_switch_resaturate e st0 eq_refl) as (Hq & Hc & Hs).
  destruct (refresh_kept e (key_switch e st0)) as [Hk _].
  pose proof (quiet_snapshot_mode_state _ _ Hk) as Hqk.
  pose proof (quiet_snapshot_mode_state _ _ Hms0) as Hq0.
  apply mode_state_fields in Hk. destruct Hk as (Hck & _ & Hsk & _).
  apply mode_state_fields in Hms0. destruct Hms0 as (Hc0 & _ & Hs0 & _).
  rewrite E. split; [congruence|]. split; [congruence|].
  intros Hsat. rewrite Hsk. apply Hs. congruence.
Qed.

(** The QuietColor key, with the display ON: the mode is QuietColor and the
    colour set is the quiet colour. *)
Lemma remote_quiet_key (e : Env) (st : State) :
  key_event e 0x8877 -> onOff st = true ->
  onOff (remote e st) = true /\
  currentState (remote e st) = QuietColor /\
  (hue (remote e st), saturation (remote e st), brightness (remote e st))
    = (quietHue st, quietSaturation st, quietBrightness st) /\
  quiet_snapshot (remote e st) = quiet_snapshot st.
Proof.
  intros He Hon.
  set (st0 := set_keyTimer (millis e) (set_keyCode 0x8877 (idle_reset e st))).
  destruct (untouched_idle_reset e st) as (Ho & Hms & _).
  assert (Hms0 : mode_state st0 = mode_state st) by exact Hms.
  assert (Hon0 : onOff st0 = true)
    by (change (onOff (idle_reset e st) = true); congruence).
  assert (Hk0 : keyCode st0 = 0x8877%Z) by reflexivity.
  assert (E : remote e st = refresh e (key_switch e st0)).
  { rewrite (remote_key_event _ _ st He) by discriminate.
    apply key_pressed_other; [rewrite Hk0; discriminate | exact Hon0]. }
  clearbody st0.
  destruct (refresh_kept e (key_switch e st0)) as (Hk & Hon' & _).
  pose proof (quiet_snapshot_mode_state _ _ Hk) as Hqk.
  pose proof (quiet_snapshot_mode_state _ _ Hms0) as Hq0.
  apply mode_state_fields in Hk. destruct Hk as (Hc & Hh & Hs & Hb & _).
  rewrite E, Hon', Hc, Hh, Hs, Hb, Hqk.
  assert (Ek : key_switch e st0 =
    set_brightness (quietBrightness st0)
      (set_hue (quietHue st0)
         (set_saturation (quietSaturation st0)
            (set_sparkle false
               (set_slowAnimationTime 0
                  (set_currentState QuietColor st0))))))
    by (unfold key_switch; rewrite Hk0; reflexivity).
  rewrite Ek.
  cbn [onOff currentState hue saturation brightness
       set_brightness set_hue set_saturation set_sparkle
       set_slowAnimationTime set_currentState].
  split; [exact Hon0|]. split; [reflexivity|]. split; [|exact Hq0].
  unfold quiet_snapshot in Hq0. now injection Hq0 as -> -> -> _ _ _.
Qed.

(** C7 at an input where the code misses it.  After [setup()], the
    QuietColor key shows the quiet colour, whose saturation is 0; the key
    to resaturate then takes the saturation to [SATURATION_LIMIT] and
    leaves the snapshot of the quiet colour at 0. *)
Theorem resaturate_leaves_quiet_colour :
  let st1 := remote quiet_key setup in
  let st2 := remote resaturate_key st1 in
  onOff st1 = true /\ currentState st1 = QuietColor /\
  (quietHue st1, quietSaturation st1, quietBrightness st1)
    = (hue st1, saturation st1, brightness st1) /\
  currentState st2 = QuietColor /\
  saturation st2 = SATURATION_LIMIT /\
  quietSaturation st2 = 0 /\
  quietSaturation st2 <> saturation st2 /\
  ~ snapshot_current st2.
Proof.
  cbv zeta.
  assert (He1 : key_event quiet_key 0x8877).
  { exists (mkFrame 1 0x8877). repeat split. discriminate. }
  assert (He2 : key_event resaturate_key resaturate).
  { exists (mkFrame 1 resaturate). repeat split. discriminate. }
  destruct (remote_quiet_key quiet_key setup He1 eq_refl)
    as (Hon1 & Hc1 & Hhsb & Hq1).
  set (st1 := remote quiet_key setup) in *. clearbody st1.
  unfold quiet_snapshot in Hq1.
  injection Hq1 as Hqh Hqsat Hqb _ _ _.
  injection Hhsb as Hh Hs Hb.
  destruct (remote_resaturate resaturate_key st1 He2 Hon1)
    as (Hq2 & Hc2 & Hsat2).
  set (st2 := remote resaturate_key st1) in *. clearbody st2.
  unfold quiet_snapshot in Hq2. injection Hq2 as _ Hqsat2 _ _ _ _.
  assert (Esat : saturation st2 = SATURATION_LIMIT)
    by (apply Hsat2; rewrite Hs; lra).
  assert (Equiet : quietSaturation st2 = 0)
    by (rewrite Hqsat2, Hqsat; lra).
  split; [exact Hon1|]. split; [exact Hc1|].
  split; [congruence|]. split; [congruence|].
  split; [exact Esat|]. split; [exact Equiet|].
  assert (Hne : quietSaturation st2 <> saturation st2)
    by (rewrite Esat, Equiet; unfold SATURATION_LIMIT; lra).
  split; [exact Hne|].
  intros [Hsn _]. injection Hsn as _ Hsn _. contradiction.
Qed.

(** ** Every block starts with no peak and a gain that is not negative *)

Lemma key_switch_organ (e : Env) (st : State) :
  organ (key_switch e st) = organ st.
Proof.
  unfold key_switch, slow_animation, if_quiet. branches; reflexivity.
Qed.

Lemma key_pressed_organ (e : Env) (st : State) :
  organ (key_pressed e st) = organ st.
Proof.
  unfold key_pressed.
  set (st1 := if (keyCode st =? 0x58a7)%Z then _ else st).
  assert (H1 : organ st1 = organ st) by (subst st1; branches; reflexivity).
  clearbody st1. destruct (onOff st1); [|exact H1].
  destruct (refresh_kept e (key_switch e st1)) as (_ & _ & -> & _).
  now rewrite key_switch_organ.
Qed.

Lemma remote_organ (e : Env) (st : State) : organ (remote e st) = organ st.
Proof.
  unfold remote. fold (idle_reset e st).
  destruct (untouched_idle_reset e st) as (_ & _ & H0 & _).
  set (st0 := idle_reset e st) in *. clearbody st0.
  destruct (frame e) as [f|]; [|exact H0].
  set (p := if (value f =? 0xffffffff)%Z then _ else (value f, st0)).
  assert (Hp : organ (snd p) = organ st)
    by (subst p; branches; exact H0).
  clearbody p. destruct p as [v st1]. cbn [snd] in Hp.
  destruct (_ && _); [|exact Hp].
  now rewrite key_pressed_organ.
Qed.

Lemma Sparkle_organ (e : Env) (st : State) :
  organ (Sparkle e st) = organ st.
Proof. unfold Sparkle, random. branches; reflexivity. Qed.

Lemma animate_organ (e : Env) (st : State) :
  organ (animate e st) = organ st.
Proof.
  unfold animate.
  set (st1 := if (u32 (millis e - animationTimer st) >? _)%Z then _ else st).
  assert (H1 : organ st1 = organ st).
  { subst st1. destruct (_ >? _)%Z; [|reflexivity].
    destruct (sparkle _); [|reflexivity].
    exact (Sparkle_organ e (set_animationTimer (millis e) st)). }
  clearbody st1. destruct (_ && _); [|exact H1].
  set (st2 := set_slowAnimationTimer (millis e) st1).
  assert (H2 : organ st2 = organ st) by exact H1. clearbody st2.
  set (st3 := if Mode_eqb (currentState st2) SolidColor then _ else st2).
  assert (H3 : organ st3 = organ st)
    by (subst st3; destruct (Mode_eqb _ _); exact H2).
  clearbody st3.
  set (st4 := if Mode_eqb (currentState st3) Rainbow then _ else st3).
  assert (H4 : organ st4 = organ st)
    by (subst st4; destruct (Mode_eqb _ _); exact H3).
  clearbody st4.
  destruct (Mode_eqb _ _); [|exact H4].
  destruct (CreateRandom_kept e (saturation st4) (brightness st4) st4)
    as (_ & _ & Hg & _).
  destruct (ShowBuffer_kept
              (CreateRandom e (saturation st4) (brightness st4) st4))
    as (_ & _ & Hs & _).
  congruence.
Qed.

Lemma ShowColorOrgan_block_start (e : Env) (st st' : State) :
  block_start st -> ShowColorOrgan e st = Some st' -> block_start st'.
Proof.
  intros [Hmax Hgain] E.
  destruct (ShowColorOrgan_spec e st) as (o320 & c & E320 & _ & ES).
  rewrite ES in E. injection E as <-.
  unfold block_start.
  cbn [organ show set_output set_leds set_organ sampleMax inputGain
       set_sampleMax].
  split; [reflexivity|].
  destruct (AGC_recover_gain (set_sampleCount (SAMPLE_SIZE + 1) o320))
    as (_ & _ & H). apply H. cbn [inputGain set_sampleCount].
  assert (Hinv : AGC_inv o320).
  { apply (sampling_loop_invariant AGC_inv e (pass_AGC_inv e) _ _ _ ) in E320;
      [exact E320|].
    split; cbn [inputGain sampleMax set_sampleCount];
      [exact Hgain | rewrite Hmax; unfold MAX_ANALOG; lra]. }
  exact (proj1 Hinv).
Qed.

Lemma loop_block_start (e : Env) (st st' : State) :
  block_start st -> loop e st = Some st' -> block_start st'.
Proof.
  unfold loop, running. intros H.
  assert (H0 : block_start (remote e st))
    by (unfold block_start; now rewrite remote_organ).
  set (st0 := remote e st) in *. clearbody st0.
  destruct (onOff st0); [|now intros [= <-]].
  destruct (Mode_eqb (currentState st0) ColorOrgan).
  - destruct (ShowColorOrgan e st0) as [st1|] eqn:E; [|discriminate].
    apply ShowColorOrgan_block_start in E; [|exact H0].
    destruct (negb _); intros [= <-]; [|exact E].
    unfold block_start. now rewrite animate_organ.
  - destruct (negb _); intros [= <-]; [|exact H0].
    unfold block_start. now rewrite animate_organ.
Qed.

(** From [setup()] on, whatever the keys and the audio, each pass of
    [loop()] ends, and each block starts as C1 assumes. *)
Lemma block_start_setup : block_start setup.
Proof. split; [reflexivity | apply Rle_refl]. Qed.

Lemma loops_block_start (es : list Env) (st st' : State) :
  block_start st -> loops es st = Some st' -> block_start st'.
Proof.
  revert st. induction es as [|e es IH]; intros st H; cbn [loops].
  - now intros [= <-].
  - destruct (loop e st) as [st1|] eqn:E; [|discriminate].
    apply IH. now apply (loop_block_start e st).
Qed.

Lemma loop_total (e : Env) (st : State) : exists st', loop e st = Some st'.
Proof.
  unfold loop, running.
  destruct (onOff (remote e st)); [|now eexists].
  destruct (Mode_eqb (currentState (remote e st)) ColorOrgan).
  - destruct (ShowColorOrgan_total e (remote e st)) as [st1 ->].
    destruct (negb _); now eexists.
  - destruct (negb _); now eexists.
Qed.

(** ** An OFF and ON of the display, from [setup()] *)

Lemma power_off_on_witness :
  onOff setup = true /\
  key_event power_key 0x58a7 /\
  Forall (fun e => frame e = None) [no_key] /\
  exists st1 st2,
    loop power_key setup = Some st1 /\
    loops [no_key] st1 = Some st2 /\
    onOff st1 = false /\
    onOff (remote power_key st2) = true /\
    mode_state (remote power_key st2) = mode_state setup.
Proof.
  assert (He : key_event power_key 0x58a7).
  { exists (mkFrame 1 0x58a7). repeat split. discriminate. }
  assert (Hf : Forall (fun e => frame e = None) [no_key])
    by (constructor; [reflexivity | constructor]).
  split; [reflexivity|]. split; [exact He|]. split; [exact Hf|].
  destruct (power_off_on setup power_key power_key [no_key] eq_refl He Hf He)
    as (st1 & st2 & H1 & H2 & H3 & _ & _ & _ & _ & _ & H4 & H5 & _).
  exists st1, st2. repeat split; assumption.
Defined.

(** ** The hue cycle *)

Lemma hue_clamped_range (hue : R) : 0 <= hue_clamped hue <= 1.
Proof. unfold hue_clamped. float_prune; lra. Qed.

Lemma Hue_hue_clamped (hue : R) : Hue hue = Hue (hue_clamped hue).
Proof.
  pose proof (hue_clamped_range hue) as H.
  unfold Hue. cbv zeta.
  change (if (if hue <? 0.0 then 0.0 else hue) >? 1.0 then 1.0
          else (if hue <? 0.0 then 0.0 else hue))
    with (hue_clamped hue).
  set (h := hue_clamped hue) in *. clearbody h.
  replace (if h <? 0.0 then 0.0 else h) with h by (float_prune; lra).
  replace (if h >? 1.0 then 1.0 else h) with h by (float_prune; lra).
  reflexivity.
Qed.

(** The three ramps of a hue in [0, 1]. *)
Lemma Hue_ramps (h : R) :
  0 <= h <= 1 ->
  let c := Hue h in
  (h <= 0.33 ->
   float_RGB.r c = MAX_ANALOG / 0.33 * h /\ float_RGB.g c = 0 /\
   float_RGB.b c = MAX_ANALOG - MAX_ANALOG / 0.33 * h) /\
  (0.33 <= h <= 0.66 ->
   float_RGB.r c = MAX_ANALOG - MAX_ANALOG / 0.33 * (h - 0.33) /\
   float_RGB.g c = MAX_ANALOG / 0.33 * (h - 0.33) /\ float_RGB.b c = 0) /\
  (0.66 <= h <= 0.99 ->
   float_RGB.r c = 0 /\
   float_RGB.g c = MAX_ANALOG - MAX_ANALOG / 0.33 * (h - 0.66) /\
   float_RGB.b c = MAX_ANALOG / 0.33 * (h - 0.66)) /\
  (0.99 <= h -> c = pure_blue).
Proof.
  intros Hh. cbv zeta. unfold Hue, pure_blue, makeValid, MAX_ANALOG.
  cbn [float_RGB.r float_RGB.g float_RGB.b].
  replace (if h <? 0.0 then 0.0 else h) with h by (float_prune; lra).
  replace (if h >? 1.0 then 1.0 else h) with h by (float_prune; lra).
  split; [|split; [|split]]; intros Hc.
  - float_prune; repeat split; lra.
  - float_prune; repeat split; lra.
  - float_prune; repeat split; lra.
  - float_prune; f_equal; lra.
Qed.

Lemma Hue_ends (h : R) : h <= 0 \/ 0.99 <= h -> Hue h = pure_blue.
Proof.
  intros H. rewrite Hue_hue_clamped.
  pose proof (hue_clamped_range h) as Hr.
  assert (Hc : hue_clamped h = 0 \/ 0.99 <= hue_clamped h).
  { unfold hue_clamped. destruct H; float_prune; lra. }
  set (hc := hue_clamped h) in *. clearbody hc.
  destruct (Hue_ramps hc Hr) as (H1 & _ & _ & H4). cbv zeta in *.
  destruct Hc as [-> | Hc]; [|now apply H4].
  destruct H1 as (Er & Eg & Eb); [lra|].
  unfold pure_blue. destruct (Hue 0) as [r g b].
  cbn [float_RGB.r float_RGB.g float_RGB.b] in *.
  unfold MAX_ANALOG in *. f_equal; lra.
Qed.

(** X1.  Whatever the hue, the three components that [Hue] returns are in
    [0, MAX_ANALOG], they add up to [MAX_ANALOG], and one of them is 0: the
    hue cycle keeps the total constant and never mixes more than two
    primaries. *)
Theorem Hue_constant_sum (hue : R) :
  let c := Hue hue in
  valid_RGB c /\
  float_RGB.r c + float_RGB.g c + float_RGB.b c = MAX_ANALOG /\
  (float_RGB.r c = 0 \/ float_RGB.g c = 0 \/ float_RGB.b c = 0).
Proof.
  cbv zeta. rewrite Hue_hue_clamped.
  pose proof (hue_clamped_range hue) as Hr.
  set (h := hue_clamped hue) in *. clearbody h.
  destruct (Hue_ramps h Hr) as (H1 & H2 & H3 & H4). cbv zeta in *.
  unfold valid_RGB.
  destruct (Rle_dec h 0.33) as [L1|L1];
    [|destruct (Rle_dec h 0.66) as [L2|L2];
      [|destruct (Rle_dec h 0.99) as [L3|L3]]].
  - destruct H1 as (-> & -> & ->); [exact L1|].
    unfold MAX_ANALOG. repeat split; lra.
  - destruct H2 as (-> & -> & ->); [lra|].
    unfold MAX_ANALOG. repeat split; lra.
  - destruct H3 as (-> & -> & ->); [lra|].
    unfold MAX_ANALOG. repeat split; lra.
  - rewrite H4 by lra. unfold pure_blue, MAX_ANALOG.
    cbn [float_RGB.r float_RGB.g float_RGB.b].
    repeat split; lra.
Qed.

(** X2.  The hue cycle closes on blue: at both ends of the range and
    beyond them [Hue] returns pure blue, and so it does on what
    [MakeHueValid] returns there.  A hue nudged past an end of the range is
    shown in the colour it had at that end. *)
Theorem Hue_cycle_closes (v : R) :
  v <= 0 \/ 1 <= v ->
  Hue v = pure_blue /\ Hue (MakeHueValid v) = pure_blue /\
  (MakeHueValid v = 0 \/ MakeHueValid v = 1).
Proof.
  intros H.
  assert (Hm : MakeHueValid v = 0 \/ MakeHueValid v = 1).
  { unfold MakeHueValid. destruct H; float_prune; lra. }
  split; [apply Hue_ends; lra|]. split; [|exact Hm].
  apply Hue_ends. destruct Hm as [-> | ->]; lra.
Qed.

Lemma Hue_cycle_closes_witness :
  (1.5 <= 0 \/ 1 <= 1.5) /\
  Hue 1.5 = pure_blue /\ Hue (MakeHueValid 1.5) = pure_blue.
Proof.
  assert (H : 1.5 <= 0 \/ 1 <= 1.5) by (right; lra).
  split; [exact H|].
  destruct (Hue_cycle_closes 1.5 H) as (H1 & H2 & _). split; assumption.
Defined.

(** ** The frame buffer on its way to the LEDs *)

Lemma quantize_no_flicker (c : float_RGB.t) : ~ flickers (quantize c).
Proof.
  unfold quantize, flickers.
  pose proof (byte_range (round (float_RGB.b c / 16.6))) as Hb.
  set (r := byte (round (float_RGB.r c / 16.6))).
  set (g := byte (round (float_RGB.g c / 16.6))).
  set (b := byte (round (float_RGB.b c / 16.6))) in *.
  clearbody r g b.
  destruct (Z.eqb_spec r g) as [Erg|Nrg]; cbn [andb CRGB.r CRGB.g CRGB.b];
    [|intros (H & _); contradiction].
  destruct (Z.eqb_spec g b) as [Egb|Ngb]; cbn [andb CRGB.r CRGB.g CRGB.b];
    [|intros (_ & H & _); contradiction].
  destruct (Z.ltb_spec b 23) as [L|L]; cbn [andb CRGB.r CRGB.g CRGB.b];
    [|intros (_ & _ & H); lia].
  destruct (Z.eqb_spec b 0) as [E0|N0]; cbn [negb CRGB.r CRGB.g CRGB.b];
    [intros (_ & _ & H); lia|].
  unfold byte. rewrite Z.mod_small by lia. intros (_ & H & _). lia.
Qed.

(** X3.  [ShowBuffer] always loads [TOTAL_LEDS] LEDs with bytes, and never
    with a dim white of equal bytes (r = g = b, between 1 and 22), the
    combination on which the strings flicker: blue is then one higher. *)
Theorem ShowBuffer_never_flickers (st : State) :
  length (leds (ShowBuffer st)) = TOTAL_LEDS /\
  Forall (fun c => at_most 255 c /\ ~ flickers c) (leds (ShowBuffer st)).
Proof.
  rewrite leds_ShowBuffer. split; [now rewrite length_map, length_seq|].
  apply Forall_map, Forall_forall. intros i _.
  split; [|apply quantize_no_flicker].
  unfold quantize, at_most.
  destruct (_ && _); cbn [CRGB.r CRGB.g CRGB.b];
    repeat split; apply byte_range.
Qed.

(** ** Sparkle *)

Lemma list_set_restore {A : Type} (i : nat) (c d : A) (l : list A) :
  list_set i (nth i l d) (list_set i c l) = l.
Proof.
  revert i. induction l as [|h t IH]; intros [|i]; cbn; try reflexivity.
  now rewrite IH.
Qed.

(** X4.  A call of [Sparkle] leaves the LEDs, the frame buffer and the
    modes as they were.  When the draw is below [sparklesPerMinute] it
    sends two frames: the LEDs with one of them, below [TOTAL_LEDS], white,
    then the LEDs as they were; otherwise it sends nothing. *)
Theorem Sparkle_restores (e : Env) (st : State) :
  let st' := Sparkle e st in
  leds st' = leds st /\ buffer st' = buffer st /\
  mode_state st' = mode_state st /\
  ((0 + rand e (randomCalls st) mod (6000 - 0) < sparklesPerMinute st)%Z /\
   (exists i, (i < TOTAL_LEDS)%nat /\
      output st' =
        FastLED_show (leds st)
          :: FastLED_show (list_set i CRGB.White (leds st)) :: output st)
   \/
   (sparklesPerMinute st <= 0 + rand e (randomCalls st) mod (6000 - 0))%Z /\
   output st' = output st).
Proof.
  cbv zeta. unfold Sparkle, random.
  cbn [sparklesPerMinute set_randomCalls randomCalls].
  destruct (Z.ltb_spec (0 + rand e (randomCalls st) mod (6000 - 0))
              (sparklesPerMinute st)) as [Hlt|Hge].
  - cbn [leds buffer show set_output set_leds set_randomCalls output].
    rewrite list_set_restore.
    split; [reflexivity|]. split; [reflexivity|]. split; [reflexivity|].
    left. split; [exact Hlt|]. eexists. split; [|reflexivity].
    pose proof (Z.mod_pos_bound (rand e (S (randomCalls st)))
                  (Z.of_nat TOTAL_LEDS - 0)) as Hm.
    change (Z.of_nat TOTAL_LEDS - 0)%Z with 200%Z in *.
    change TOTAL_LEDS with 200%nat. lia.
  - split; [reflexivity|]. split; [reflexivity|]. split; [reflexivity|].
    right. split; [exact Hge | reflexivity].
Qed.

(** ** Saturation and brightness of the fixed effects *)

Lemma shade_black (s : R) (c : float_RGB.t) : shade s 0 c = zeroRGB.
Proof.
  unfold shade, zeroRGB. rewrite !Rmult_0_r.
  rewrite makeValid_id by (unfold MAX_ANALOG; lra). reflexivity.
Qed.

Lemma shade_white (v : R) (c : float_RGB.t) : shade 0 v c = white v.
Proof. unfold shade, white. f_equal; f_equal; lra. Qed.

Lemma map_const_seq {A : Type} (c : A) (n s : nat) :
  map (fun _ => c) (seq s n) = repeat c n.
Proof.
  revert s. induction n as [|n IH]; intros s; cbn; [reflexivity|].
  now rewrite IH.
Qed.

Lemma rainbow_leds_uniform (c : float_RGB.t) (s v : R) :
  (forall x, shade s v x = c) ->
  forall n step ratio h, rainbow_leds n step ratio h s v = repeat c n.
Proof.
  intros Hc. induction n as [|n IH]; intros step ratio h; cbn [rainbow_leds].
  - reflexivity.
  - rewrite Hc, IH. reflexivity.
Qed.

Lemma random_leds_uniform (c : float_RGB.t) (e : Env) (s v : R) :
  (forall x, shade s v x = c) ->
  forall n st, fst (random_leds e n s v st) = repeat c n.
Proof.
  intros Hc. induction n as [|n IH]; intros st; cbn [random_leds].
  - reflexivity.
  - unfold random.
    specialize (IH (set_randomCalls (S (randomCalls st)) st)).
    destruct (random_leds e n s v _) as [l st']. cbn [fst] in *.
    now rewrite Hc, IH.
Qed.

(** The three effects, when every colour is shaded to [c]. *)
Lemma effects_uniform (c : float_RGB.t) (s v : R) :
  (forall x, shade s v x = c) ->
  forall e h st,
    buffer (CreateSolidColor h s v st) = repeat c TOTAL_LEDS /\
    buffer (CreateRainbow h s v st) = repeat c TOTAL_LEDS /\
    buffer (CreateRandom e s v st) = repeat c TOTAL_LEDS.
Proof.
  intros Hc e h st. split; [|split].
  - unfold CreateSolidColor. cbn [buffer set_buffer].
    rewrite Hc. apply map_const_seq.
  - unfold CreateRainbow. cbn [buffer set_buffer].
    now apply rainbow_leds_uniform.
  - unfold CreateRandom.
    pose proof (random_leds_uniform c e s v Hc TOTAL_LEDS st) as H.
    destruct (random_leds e TOTAL_LEDS s v st) as [l st']. exact H.
Qed.

Lemma quantize_zeroRGB : quantize zeroRGB = CRGB.Black.
Proof.
  assert (H : (0 <= round (0 / 16.6) <= 0)%Z)
    by (apply round_bounds; [lia | lra | lra]).
  unfold quantize, zeroRGB. cbn [float_RGB.r float_RGB.g float_RGB.b].
  replace (round (0 / 16.6)) with 0%Z by lia. reflexivity.
Qed.

Lemma ShowBuffer_uniform (c : float_RGB.t) (st : State) :
  buffer st = repeat c TOTAL_LEDS ->
  leds (ShowBuffer st) = repeat (quantize c) TOTAL_LEDS.
Proof.
  intros Hb. rewrite leds_ShowBuffer, Hb.
  rewrite <- (map_const_seq (quantize c) TOTAL_LEDS 0).
  apply map_ext_in. intros i Hi. apply in_seq in Hi.
  now rewrite nth_repeat_lt by lia.
Qed.

(** X5.  At brightness 0 the three fixed effects are dark: whatever the
    hue, the saturation and the random draws, [CreateSolidColor],
    [CreateRainbow] and [CreateRandom] fill the buffer with zeros and
    [ShowBuffer] then sends black to every LED. *)
Theorem brightness_0_is_dark (e : Env) (h s : R) (st : State) :
  leds (ShowBuffer (CreateSolidColor h s 0 st)) = repeat CRGB.Black TOTAL_LEDS /\
  leds (ShowBuffer (CreateRainbow h s 0 st)) = repeat CRGB.Black TOTAL_LEDS /\
  leds (ShowBuffer (CreateRandom e s 0 st)) = repeat CRGB.Black TOTAL_LEDS.
Proof.
  destruct (effects_uniform zeroRGB s 0 (shade_black s) e h st)
    as (H1 & H2 & H3).
  rewrite <- quantize_zeroRGB.
  repeat split; now apply ShowBuffer_uniform.
Qed.

(** X6.  At saturation 0 the hue does not show: the three fixed effects
    fill the buffer with one and the same white, of level
    [MAX_ANALOG * brightness] clamped to [0, MAX_ANALOG], whatever the hue
    and the random draws. *)
Theorem saturation_0_is_white (e : Env) (h v : R) (st : State) :
  buffer (CreateSolidColor h 0 v st) = repeat (white v) TOTAL_LEDS /\
  buffer (CreateRainbow h 0 v st) = repeat (white v) TOTAL_LEDS /\
  buffer (CreateRandom e 0 v st) = repeat (white v) TOTAL_LEDS.
Proof. exact (effects_uniform (white v) 0 v (shade_white v) e h st). Qed.

(** ** What holds of the modes from [setup()] on *)

Lemma MakeHueValid_range (v : R) : 0 <= MakeHueValid v <= 1.
Proof. unfold MakeHueValid. float_prune; lra. Qed.

Lemma step_hue_range (h step : R) : 0 <= step_hue h step <= 1.
Proof. unfold step_hue. destruct (_ && _); apply MakeHueValid_range. Qed.

Lemma state_inv_mode_state (st st' : State) :
  mode_state st' = mode_state st -> state_inv st -> state_inv st'.
Proof.
  unfold mode_state, state_inv.
  intros [= _ -> -> -> -> _ -> -> -> -> -> -> ->]. tauto.
Qed.

Lemma state_inv_slow_animation (first : Z) (e : Env) (st : State) :
  (0 <= first <= MAX_ANIMATION_TIME)%Z ->
  state_inv st -> state_inv (slow_animation first e st).
Proof.
  intros Hf Hinv.
  assert (Ht : (0 <= slowAnimationTime st <= MAX_ANIMATION_TIME)%Z)
    by apply Hinv.
  destruct (slow_animation_spec first e st Ht) as (Hms & H0 & H2 & Hmax).
  cbv zeta in *.
  apply (state_inv_mode_state _ _ Hms).
  assert (Hr : (0 <= slowAnimationTime (slow_animation first e st)
                <= MAX_ANIMATION_TIME)%Z).
  { unfold MAX_ANIMATION_TIME in *.
    destruct (Z.eq_dec (slowAnimationTime st) 0) as [E|N];
      [destruct (H0 E) as [-> _]; lia|].
    destruct (Z_le_gt_dec (2 * slowAnimationTime st) 4096) as [L|G].
    - destruct H2 as [-> _]; lia.
    - destruct Hmax as [-> _]; lia. }
  unfold state_inv in *. state_simpl. tauto.
Qed.

Lemma state_inv_key_switch (e : Env) (st : State) :
  state_inv st -> state_inv (key_switch e st).
Proof.
  intros Hinv.
  pose proof (state_inv_slow_animation MIN_ANIMATION_TIME e st) as Hs16.
  pose proof (state_inv_slow_animation (MIN_ANIMATION_TIME * 8) e st) as Hs128.
  unfold key_switch. cbv zeta.
  repeat match goal with
    | |- state_inv (if (keyCode st =? ?c)%Z then _ else _) =>
        destruct (keyCode st =? c)%Z
    end; try exact Hinv.
  all: try (destruct (negb _);
            [| first [apply Hs16 | apply Hs128];
               [unfold MAX_ANIMATION_TIME, MIN_ANIMATION_TIME; lia
               | exact Hinv]]).
  all: pose proof (step_hue_range (hue st) (1 / HUE_STEPS)) as Hup.
  all: pose proof (step_hue_range (hue st) (- (1 / HUE_STEPS))) as Hdn.
  all: unfold state_inv, valid_HSB, valid_saturation in Hinv.
  all: destruct Hinv as ((Hh & Hs & Hv) & (Hqh & Hqs & Hqv) & Ht & Hr
                         & Hqr & Hqg & Hqb).
  all: try match goal with
         | |- context [negb (sparkle ?s)] =>
             destruct (sparkle s); cbn [negb]; state_simpl;
             [destruct (Z.ltb_spec (sparklesPerMinute s ÷ 2) MIN_SPARKLE_RATE)|]
         end.
  all: unfold if_quiet, fgt, flt, fge, fle, feq.
  all: repeat (state_simpl; test_step; try (exfalso; lra)).
  all: unfold state_inv, valid_HSB, valid_saturation; state_simpl.
  all: unfold SATURATION_LIMIT, BRIGHT_LSB, MAX_ANIMATION_TIME,
         MIN_ANIMATION_TIME, MIN_SPARKLE_RATE, MAX_SPARKLE_RATE in *.
  all: try change (16 + 4096 ÷ 2)%Z with 2064%Z.
  all: rewrite ?Z.quot_div_nonneg in * by lia.
  all: repeat split;
       first [assumption | reflexivity | lra | lia
             | apply Z.div_le_upper_bound; lia].
Qed.

Lemma state_inv_kept (st st' : State) :
  kept st st' -> state_inv st -> state_inv st'.
Proof. intros [H _]. now apply state_inv_mode_state. Qed.

Lemma state_inv_untouched (st st' : State) :
  untouched st st' -> state_inv st -> state_inv st'.
Proof. intros (_ & H & _). now apply state_inv_mode_state. Qed.

Lemma state_inv_key_pressed (e : Env) (st : State) :
  state_inv st -> state_inv (key_pressed e st).
Proof.
  intros Hinv. unfold key_pressed.
  set (st1 := if (keyCode st =? 0x58a7)%Z then _ else st).
  assert (H1 : state_inv st1).
  { subst st1. destruct (keyCode st =? 0x58a7)%Z; [|exact Hinv].
    destruct (negb _); exact Hinv. }
  clearbody st1. destruct (onOff st1); [|exact H1].
  apply (state_inv_kept _ _ (refresh_kept e (key_switch e st1))).
  now apply state_inv_key_switch.
Qed.

(** A pass of the remote control either changes nothing but the key
    variables, or hands a key to [key_pressed]. *)
Lemma remote_dispatch (e : Env) (st : State) :
  untouched st (remote e st) \/
  exists st0, untouched st st0 /\ remote e st = key_pressed e st0.
Proof.
  unfold remote.
  pose proof (untouched_idle_reset e st) as H0.
  set (st0 := idle_reset e st) in *. clearbody st0.
  destruct (frame e) as [f|]; [|now left].
  set (p := if (value f =? 0xffffffff)%Z then _ else (value f, st0)).
  assert (Hp : untouched st (snd p)).
  { subst p. destruct (value f =? 0xffffffff)%Z; [|exact H0].
    cbn [repeatCount set_keyTimer].
    destruct (repeatCount st0 >? 5)%Z;
      (eapply untouched_trans; [exact H0|]); repeat split. }
  clearbody p. destruct p as [v st1]. cbn [snd] in Hp.
  destruct (_ && _); [|now left].
  right. eexists. split; [|reflexivity].
  eapply untouched_trans; [exact Hp|]. repeat split.
Qed.

Lemma state_inv_remote (e : Env) (st : State) :
  state_inv st -> state_inv (remote e st).
Proof.
  intros Hinv. destruct (remote_dispatch e st) as [Hu | (st0 & Hu & ->)].
  - now apply (state_inv_untouched st).
  - apply state_inv_key_pressed. now apply (state_inv_untouched st).
Qed.

Lemma Sparkle_kept (e : Env) (st : State) : kept st (Sparkle e st).
Proof. unfold Sparkle, random. branches; repeat split. Qed.

Lemma CreateSolidColor_kept (h s v : R) (st : State) :
  kept st (CreateSolidColor h s v st).
Proof. repeat split. Qed.

Lemma CreateRainbow_kept (h s v : R) (st : State) :
  kept st (CreateRainbow h s v st).
Proof. repeat split. Qed.

Lemma state_inv_set_hue (h : R) (st : State) :
  0 <= h <= 1 -> state_inv st -> state_inv (set_hue h st).
Proof.
  unfold state_inv, valid_HSB. intros Hh Hinv. state_simpl. tauto.
Qed.

Lemma state_inv_animate (e : Env) (st : State) :
  state_inv st -> state_inv (animate e st).
Proof.
  intros Hinv. unfold animate.
  set (st1 := if (u32 (millis e - animationTimer st) >? _)%Z then _ else st).
  assert (H1 : state_inv st1).
  { subst st1. destruct (_ >? _)%Z; [|exact Hinv].
    destruct (sparkle _); [|exact Hinv].
    exact (state_inv_kept _ _
             (Sparkle_kept e (set_animationTimer (millis e) st)) Hinv). }
  clearbody st1. destruct (_ && _); [|exact H1].
  set (st2 := set_slowAnimationTimer (millis e) st1).
  assert (H2 : state_inv st2) by exact H1. clearbody st2.
  set (st3 := if Mode_eqb (currentState st2) SolidColor then _ else st2).
  assert (H3 : state_inv st3).
  { subst st3. destruct (Mode_eqb _ _); [|exact H2].
    apply (state_inv_kept _ _ (ShowBuffer_kept _)).
    apply (state_inv_kept _ _ (CreateSolidColor_kept _ _ _ _)).
    apply state_inv_set_hue; [apply step_hue_range | exact H2]. }
  clearbody st3.
  set (st4 := if Mode_eqb (currentState st3) Rainbow then _ else st3).
  assert (H4 : state_inv st4).
  { subst st4. destruct (Mode_eqb _ _); [|exact H3].
    apply (state_inv_kept _ _ (ShowBuffer_kept _)).
    apply (state_inv_kept _ _ (CreateRainbow_kept _ _ _ _)).
    apply state_inv_set_hue; [apply MakeHueValid_range | exact H3]. }
  clearbody st4.
  destruct (Mode_eqb _ _); [|exact H4].
  apply (state_inv_kept _ _ (ShowBuffer_kept _)).
  now apply (state_inv_kept _ _ (CreateRandom_kept _ _ _ _)).
Qed.

Lemma mode_state_ShowColorOrgan (e : Env) (st st' : State) :
  ShowColorOrgan e st = Some st' ->
  mode_state st' = mode_state st /\ onOff st' = onOff st /\
  buffer st' = buffer st.
Proof.
  intros E. destruct (ShowColorOrgan_spec e st) as (o & c & _ & _ & ES).
  rewrite ES in E. injection E as <-. repeat split.
Qed.

Lemma state_inv_loop (e : Env) (st st' : State) :
  state_inv st -> loop e st = Some st' -> state_inv st'.
Proof.
  unfold loop, running. intros H.
  apply (state_inv_remote e) in H.
  set (st0 := remote e st) in *. clearbody st0.
  destruct (onOff st0); [|now intros [= <-]].
  destruct (Mode_eqb (currentState st0) ColorOrgan).
  - destruct (ShowColorOrgan e st0) as [st1|] eqn:E; [|discriminate].
    apply mode_state_ShowColorOrgan in E. destruct E as (E & _).
    apply (state_inv_mode_state _ _ E) in H.
    destruct (negb _); intros [= <-]; [|exact H].
    now apply state_inv_animate.
  - destruct (negb _); intros [= <-]; [|exact H].
    now apply state_inv_animate.
Qed.

Lemma state_inv_loops (es : list Env) (st st' : State) :
  state_inv st -> loops es st = Some st' -> state_inv st'.
Proof.
  revert st. induction es as [|e es IH]; intros st H; cbn [loops].
  - now intros [= <-].
  - destruct (loop e st) as [st1|] eqn:E; [|discriminate].
    apply IH. now apply (state_inv_loop e st).
Qed.

(** The end of [setup()], after the quiet colour is taken from a black. *)
Lemma state_inv_after_quiet (st : State) :
  hue st = 0 -> saturation st = 0 -> brightness st = 0 ->
  state_inv
    (set_currentState ColorOrgan
       (set_brightness 1.0
          (set_saturation 1.0
             (set_sparklesPerMinute MAX_SPARKLE_RATE
                (set_sparkle false
                   (set_slowAnimationTime 0 (UpdateQuietColor st))))))).
Proof.
  intros Hh Hs Hv.
  unfold state_inv, valid_HSB, valid_saturation. state_simpl.
  rewrite Hh, Hs, Hv.
  unfold SATURATION_LIMIT, MAX_ANIMATION_TIME, MIN_SPARKLE_RATE,
    MAX_SPARKLE_RATE.
  repeat split; first [reflexivity | lra | lia | (left; lra) | (right; lra)].
Qed.

Lemma state_inv_setup : state_inv setup.
Proof.
  unfold setup. cbv zeta. apply state_inv_after_quiet.
  - reflexivity.
  - transitivity 0.0; [reflexivity | lra].
  - transitivity 0.0; [reflexivity | lra].
Qed.

Lemma loops_total (es : list Env) (st : State) :
  exists st', loops es st = Some st'.
Proof.
  revert st. induction es as [|e es IH]; intros st; cbn [loops].
  - now eexists.
  - destruct (loop_total e st) as [st1 ->]. apply IH.
Qed.

Lemma loops_state_inv_setup (es : list Env) :
  exists st', loops es setup = Some st' /\ state_inv st'.
Proof.
  destruct (loops_total es setup) as [st' E]. exists st'.
  split; [exact E|]. exact (state_inv_loops es setup st' state_inv_setup E).
Qed.

(** X7.  From [setup()] on, whatever the keys, the audio and the clock of
    the passes of [loop()], the colour set stays valid: the hue and the
    brightness are in [0, 1] and the saturation is 0 or in
    [SATURATION_LIMIT, 1].  The same holds of the hue, saturation and
    brightness of the quiet colour. *)
Theorem colour_settings_stay_valid (es : list Env) :
  exists st',
    loops es setup = Some st' /\
    valid_HSB (hue st') (saturation st') (brightness st') /\
    valid_HSB (quietHue st') (quietSaturation st') (quietBrightness st').
Proof.
  destruct (loops_state_inv_setup es) as (st' & E & H1 & H2 & _).
  exists st'. split; [exact E|]. split; [exact H1 | exact H2].
Qed.

(** X8.  From [setup()] on, the time per step of the slow animation is 0
    (not animated) or at most [MAX_ANIMATION_TIME], never negative, and the
    rate of the sparkles stays between [MIN_SPARKLE_RATE] and
    [MAX_SPARKLE_RATE]. *)
Theorem animation_rates_stay_in_range (es : list Env) :
  exists st',
    loops es setup = Some st' /\
    (0 <= slowAnimationTime st' <= MAX_ANIMATION_TIME)%Z /\
    (MIN_SPARKLE_RATE <= sparklesPerMinute st' <= MAX_SPARKLE_RATE)%Z.
Proof.
  destruct (loops_state_inv_setup es) as (st' & E & _ & _ & H1 & H2 & _).
  exists st'. split; [exact E|]. split; [exact H1 | exact H2].
Qed.

(** X9.  From [setup()] on, the RGB values that the colour organ shows
    when a channel is below its dynamic range are always those of the
    hue, saturation and brightness kept for the quiet colour: no key
    changes the ones without the others. *)
Theorem quiet_RGB_follows_quiet_HSB (es : list Env) :
  exists st',
    loops es setup = Some st' /\
    float_RGB.mk (quietRed st') (quietGreen st') (quietBlue st') =
    shade (quietSaturation st') (quietBrightness st') (Hue (quietHue st')).
Proof.
  destruct (loops_state_inv_setup es)
    as (st' & E & _ & _ & _ & _ & Hr & Hg & Hb).
  exists st'. split; [exact E|]. rewrite Hr, Hg, Hb. reflexivity.
Qed.

(** ** The gain stays between 0 and the boost *)

Lemma AGC_recover_le_boost (o : OrganVars) :
  inputGain o <= AGCboost -> inputGain (AGC_recover o) <= AGCboost.
Proof.
  intros H. unfold AGC_recover. rewrite AGCalpha_value.
  destruct (inputGain o <? AGCboost) eqn:E; [|exact H].
  apply flt_true in E. cbn [inputGain set_inputGain]. lra.
Qed.

Lemma ShowColorOrgan_le_boost (e : Env) (st st' : State) :
  inputGain (organ st) <= AGCboost -> ShowColorOrgan e st = Some st' ->
  inputGain (organ st') <= AGCboost.
Proof.
  intros H E.
  destruct (ShowColorOrgan_spec e st) as (o320 & c & E320 & _ & ES).
  rewrite ES in E. injection E as <-.
  cbn [organ show set_output set_leds set_organ inputGain set_sampleMax].
  apply AGC_recover_le_boost. cbn [inputGain set_sampleCount].
  apply sampling_loop_gain_le in E320. cbn [inputGain set_sampleCount] in E320.
  lra.
Qed.

Lemma loop_le_boost (e : Env) (st st' : State) :
  inputGain (organ st) <= AGCboost -> loop e st = Some st' ->
  inputGain (organ st') <= AGCboost.
Proof.
  unfold loop, running. intros H.
  rewrite <- (remote_organ e st) in H.
  set (st0 := remote e st) in *. clearbody st0.
  destruct (onOff st0); [|now intros [= <-]].
  destruct (Mode_eqb (currentState st0) ColorOrgan).
  - destruct (ShowColorOrgan e st0) as [st1|] eqn:E; [|discriminate].
    apply ShowColorOrgan_le_boost in E; [|exact H].
    destruct (negb _); intros [= <-]; [|exact E].
    now rewrite animate_organ.
  - destruct (negb _); intros [= <-]; [|exact H].
    now rewrite animate_organ.
Qed.

Lemma loops_le_boost (es : list Env) (st st' : State) :
  inputGain (organ st) <= AGCboost -> loops es st = Some st' ->
  inputGain (organ st') <= AGCboost.
Proof.
  revert st. induction es as [|e es IH]; intros st H; cbn [loops].
  - now intros [= <-].
  - destruct (loop e st) as [st1|] eqn:E; [|discriminate].
    apply IH. now apply (loop_le_boost e st).
Qed.

(** X10.  From [setup()] on, between two blocks the gain of the AGC is
    never negative and never above [AGCboost], and the peak of the block
    is back at 0, whatever the audio: the recovery approaches the boost
    without passing it. *)
Theorem AGC_gain_within_boost (es : list Env) :
  exists st',
    loops es setup = Some st' /\
    0 <= inputGain (organ st') <= AGCboost /\
    sampleMax (organ st') = 0.
Proof.
  destruct (loops_total es setup) as [st' E]. exists st'.
  split; [exact E|].
  destruct (loops_block_start es setup st' block_start_setup E) as [Hm H0].
  split; [split; [exact H0|] | exact Hm].
  apply (loops_le_boost es setup st'); [|exact E].
  apply Rlt_le. exact AGCboost_pos.
Qed.

(** ** Silence: the colour organ shows the quiet colour *)

Lemma AGC_recover_peaks (o : OrganVars) :
  peakRed (AGC_recover o) = peakRed o /\
  peakGreen (AGC_recover o) = peakGreen o /\
  peakBlue (AGC_recover o) = peakBlue o.
Proof. unfold AGC_recover. destruct (_ <? _); repeat split. Qed.

Lemma feq_IZR (a b : Z) : (IZR a =? IZR b) = (a =? b)%Z.
Proof.
  unfold feq. destruct (Req_dec_T (IZR a) (IZR b)) as [E|N].
  - apply eq_IZR in E. symmetry. now apply Z.eqb_eq.
  - symmetry. apply Z.eqb_neq. intros ->. now apply N.
Qed.

Lemma flt_IZR (a b : Z) : (IZR a <? IZR b) = (a <? b)%Z.
Proof.
  unfold flt. destruct (Rlt_dec (IZR a) (IZR b)) as [L|N].
  - apply lt_IZR in L. symmetry. now apply Z.ltb_lt.
  - symmetry. apply Z.ltb_ge. apply le_IZR. lra.
Qed.

Lemma dim_white_IZR (r g b : Z) :
  dim_white (Fin (IZR r)) (Fin (IZR g)) (Fin (IZR b)) =
  ((r =? g)%Z && (g =? b)%Z && (b <? 23)%Z && negb (b =? 0)%Z).
Proof.
  unfold dim_white. cbn [xeq xlt].
  now rewrite !feq_IZR, (flt_IZR b 23).
Qed.

Lemma cast_byte_IZR (n : Z) :
  (0 <= n <= 255)%Z -> cast_byte (Fin (IZR n)) = Some n.
Proof.
  intros [H0 H1]. apply IZR_le in H0, H1.
  destruct (cast_byte_Fin (IZR n)) as [-> _]; [lra|].
  now rewrite Int_part_IZR.
Qed.

Lemma channel_brightness_below (gain peak quiet : R) :
  below_floor gain peak = true ->
  channel_brightness gain peak quiet = Fin (quiet_8bit quiet).
Proof.
  intros H. rewrite channel_brightness_substituted. unfold substituted.
  now rewrite H.
Qed.

(** The three values of a block in which every channel is below the
    floor, and the bytes they are cast to. *)
Lemma organ_rgb_below_floor (o : OrganVars) (qr qg qb : R) :
  below_floor RED_GAIN (peakRed o) = true ->
  below_floor GREEN_GAIN (peakGreen o) = true ->
  below_floor BLUE_GAIN (peakBlue o) = true ->
  exists red green blue,
    organ_rgb o qr qg qb = (red, green, blue) /\
    cast_byte red = Some (CRGB.r (quantize (float_RGB.mk qr qg qb))) /\
    cast_byte green = Some (CRGB.g (quantize (float_RGB.mk qr qg qb))) /\
    cast_byte blue = Some (CRGB.b (quantize (float_RGB.mk qr qg qb))).
Proof.
  intros Hr Hg Hb. unfold organ_rgb. cbv zeta.
  rewrite (channel_brightness_below _ _ qr Hr),
    (channel_brightness_below _ _ qg Hg), (channel_brightness_below _ _ qb Hb).
  unfold quiet_8bit, quantize.
  cbn [float_RGB.r float_RGB.g float_RGB.b].
  pose proof (byte_range (round (qr / 16.6))) as Br.
  pose proof (byte_range (round (qg / 16.6))) as Bg.
  pose proof (byte_range (round (qb / 16.6))) as Bb.
  set (r := byte (round (qr / 16.6))) in *.
  set (g := byte (round (qg / 16.6))) in *.
  set (b := byte (round (qb / 16.6))) in *.
  clearbody r g b. cbv zeta. rewrite dim_white_IZR.
  destruct ((r =? g)%Z && (g =? b)%Z && (b <? 23)%Z && negb (b =? 0)%Z)
    eqn:D; do 3 eexists; (split; [reflexivity|]);
    cbn [CRGB.r CRGB.g CRGB.b xincr];
    (split; [now apply cast_byte_IZR|]); (split; [now apply cast_byte_IZR|]).
  - apply andb_prop in D. destruct D as [D _].
    apply andb_prop in D. destruct D as [_ D]. apply Z.ltb_lt in D.
    rewrite <- (plus_IZR b 1). rewrite cast_byte_IZR by lia.
    unfold byte. now rewrite Z.mod_small by lia.
  - now apply cast_byte_IZR.
Qed.

(** What [ShowColorOrgan] does once the block has been sampled. *)
Lemma ShowColorOrgan_bytes (e : Env) (st : State) (o320 : OrganVars)
  (red green blue : xfloat) (r g b : Z) :
  sampling_loop e (Z.to_nat SAMPLE_SIZE) (set_sampleCount 0 (organ st))
    = Interrupted o320 ->
  let o :=
    set_sampleMax 0 (AGC_recover (set_sampleCount (SAMPLE_SIZE + 1) o320)) in
  organ_rgb o (quietRed st) (quietGreen st) (quietBlue st)
    = (red, green, blue) ->
  cast_byte red = Some r -> cast_byte green = Some g ->
  cast_byte blue = Some b ->
  ShowColorOrgan e st =
    Some (show (set_leds (repeat (CRGB.mk r g b) TOTAL_LEDS)
                         (set_organ o st))).
Proof.
  intros E320 o Ergb Cr Cg Cb.
  destruct (sampling_loop_done e (S (Z.to_nat SAMPLE_SIZE)) (organ st))
    as (o320' & o' & E320' & -> & E & _); [lia|].
  rewrite E320 in E320'. injection E320' as <-.
  unfold ShowColorOrgan. rewrite E. cbv zeta. fold o.
  rewrite Ergb, Cr, Cg, Cb. now rewrite map_const_seq.
Qed.

Lemma ShowColorOrgan_below_floor (e : Env) (st : State) (o320 : OrganVars) :
  sampling_loop e (Z.to_nat SAMPLE_SIZE) (set_sampleCount 0 (organ st))
    = Interrupted o320 ->
  below_floor RED_GAIN (peakRed o320) = true ->
  below_floor GREEN_GAIN (peakGreen o320) = true ->
  below_floor BLUE_GAIN (peakBlue o320) = true ->
  ShowColorOrgan e st =
    Some (show (set_leds (repeat (quantize (quiet_RGB st)) TOTAL_LEDS)
                  (set_organ
                     (set_sampleMax 0
                        (AGC_recover
                           (set_sampleCount (SAMPLE_SIZE + 1) o320)))
                     st))).
Proof.
  intros E320 Hr Hg Hb.
  set (o := set_sampleMax 0
              (AGC_recover (set_sampleCount (SAMPLE_SIZE + 1) o320))).
  destruct (AGC_recover_peaks (set_sampleCount (SAMPLE_SIZE + 1) o320))
    as (Pr & Pg & Pb).
  destruct (organ_rgb_below_floor o (quietRed st) (quietGreen st)
              (quietBlue st)) as (red & green & blue & Ergb & Cr & Cg & Cb).
  - subst o. cbn [peakRed set_sampleMax]. rewrite Pr. exact Hr.
  - subst o. cbn [peakGreen set_sampleMax]. rewrite Pg. exact Hg.
  - subst o. cbn [peakBlue set_sampleMax]. rewrite Pb. exact Hb.
  - rewrite (ShowColorOrgan_bytes e st o320 _ _ _ _ _ _ E320 Ergb Cr Cg Cb).
    fold o. unfold quiet_RGB.
    now destruct (quantize
                    (float_RGB.mk (quietRed st) (quietGreen st) (quietBlue st))).
Qed.

(** X11.  Silence.  When at the end of a block the three channels are
    below the floor of the dynamic range, the colour organ sends to every
    LED the bytes that [ShowBuffer] makes of the quiet colour: its three
    components scaled to 8 bits, blue one higher on a dim white. *)
Theorem silence_shows_quiet_colour (e : Env) (st : State) :
  exists o320 st',
    sampling_loop e (Z.to_nat SAMPLE_SIZE) (set_sampleCount 0 (organ st))
      = Interrupted o320 /\
    ShowColorOrgan e st = Some st' /\
    (below_floor RED_GAIN (peakRed o320) = true ->
     below_floor GREEN_GAIN (peakGreen o320) = true ->
     below_floor BLUE_GAIN (peakBlue o320) = true ->
     leds st' = repeat (quantize (quiet_RGB st)) TOTAL_LEDS /\
     output st' = FastLED_show (leds st') :: output st).
Proof.
  destruct (ShowColorOrgan_spec e st) as (o320 & _ & E320 & _).
  destruct (ShowColorOrgan_total e st) as [st' ES].
  exists o320, st'. split; [exact E320|]. split; [exact ES|].
  intros Hr Hg Hb.
  pose proof (ShowColorOrgan_below_floor e st o320 E320 Hr Hg Hb) as H.
  rewrite ES in H. injection H as ->.
  split; reflexivity.
Qed.

(** ** The first block after power-up *)

Lemma peak_detect_rest (out alpha : R) :
  out = 0 -> peak_detect out 0 alpha = 0.
Proof.
  intros ->. unfold peak_detect. rewrite abs_Rabs, Rabs_R0.
  destruct (0 >? 0) eqn:E; [apply fgt_true in E; lra | lra].
Qed.

Lemma AGC_gain_0 (raw sm : R) : snd (AGC raw sm 0) = 0.
Proof.
  unfold AGC. destruct (abs raw >? sm); [|reflexivity].
  destruct (0 * abs raw >? MAX_ANALOG / 2) eqn:E; [|reflexivity].
  apply fgt_true in E. unfold MAX_ANALOG in E. lra.
Qed.

Lemma pass_at_rest (e : Env) (o o' : OrganVars) :
  at_rest o -> pass e o = Some o' -> at_rest o'.
Proof.
  intros (Hg & (H1 & H2 & H3) & (H4 & H5 & H6) & (H7 & H8 & H9)
          & (H10 & H11 & H12 & H13) & (Pr & Pg & Pb)).
  unfold pass, sample.
  cbn [sampleCount set_sampleCount analogReads inputBias sampleMax inputGain
       redHP redHP2 redHP3 greenLP greenLP2 greenLP3 greenHP greenHP2
       greenHP3 blueLP blueLP2 blueLP3 blueHP peakRed peakGreen peakBlue
       toggle].
  rewrite Hg, H1, H2, H3, H4, H5, H6, H7, H8, H9, H10, H11, H12, H13,
    Pr, Pg, Pb.
  pose proof (AGC_gain_0
    (IZR (analogRead e (analogReads o))
     - (IZR (analogRead e (analogReads o)) * biasLpAlpha
        + inputBias o * (1 - biasLpAlpha))) (sampleMax o)) as HA.
  destruct (AGC _ (sampleMax o) 0) as [sm ig]. cbn [snd] in HA. subst ig.
  destruct (array_get hanningWindow _) as [w|]; [|discriminate].
  intros [= <-]. unfold at_rest.
  cbn [inputGain redHP redHP2 redHP3 greenLP greenLP2 greenLP3 greenHP
       greenHP2 greenHP3 blueLP blueLP2 blueLP3 blueHP peakRed peakGreen
       peakBlue].
  repeat split; try ring; apply peak_detect_rest; ring.
Qed.

Lemma ShowColorOrgan_at_rest (e : Env) (st : State) :
  at_rest (organ st) ->
  exists o,
    ShowColorOrgan e st =
      Some (show (set_leds (repeat (quantize (quiet_RGB st)) TOTAL_LEDS)
                           (set_organ o st))) /\
    inputGain o = AGCboost * AGCalpha /\
    peakRed o = 0 /\ peakGreen o = 0 /\ peakBlue o = 0.
Proof.
  intros H0.
  destruct (ShowColorOrgan_spec e st) as (o320 & _ & E320 & _).
  assert (H : at_rest o320).
  { apply (sampling_loop_invariant at_rest e (pass_at_rest e)
             (Z.to_nat SAMPLE_SIZE) (set_sampleCount 0 (organ st)) o320);
      [exact H0 | exact E320]. }
  destruct H as (Hg & _ & _ & _ & _ & Pr & Pg & Pb).
  eexists. split.
  - apply (ShowColorOrgan_below_floor e st o320 E320).
    + rewrite Pr. apply below_floor_0.
    + rewrite Pg. apply below_floor_0.
    + rewrite Pb. apply below_floor_0.
  - destruct (AGC_recover_peaks (set_sampleCount (SAMPLE_SIZE + 1) o320))
      as (Qr & Qg & Qb).
    cbn [inputGain peakRed peakGreen peakBlue set_sampleMax].
    rewrite Qr, Qg, Qb. cbn [peakRed peakGreen peakBlue set_sampleCount].
    split; [|now repeat split].
    unfold AGC_recover. cbn [inputGain set_sampleCount]. rewrite Hg.
    destruct (0 <? AGCboost) eqn:E.
    + cbn [inputGain set_inputGain]. ring.
    + apply flt_false in E. pose proof AGCboost_pos. lra.
Qed.

(** X12.  The first block.  While the gain is 0 and the filters and the
    peak detectors hold nothing, as [setup()] leaves them, the audio of a
    block has no effect on the LEDs: whatever is read from the audio pin,
    the block ends with the quiet colour on every LED (black, after
    [setup()]) and with a gain of [AGCboost * AGCalpha]. *)
Theorem first_block_shows_quiet_colour (e : Env) (st : State) :
  at_rest (organ st) ->
  exists st',
    ShowColorOrgan e st = Some st' /\
    leds st' = repeat (quantize (quiet_RGB st)) TOTAL_LEDS /\
    inputGain (organ st') = AGCboost * AGCalpha /\
    peakRed (organ st') = 0 /\ peakGreen (organ st') = 0 /\
    peakBlue (organ st') = 0.
Proof.
  intros H0.
  destruct (ShowColorOrgan_at_rest e st H0) as (o & E & Hg & Hp).
  eexists. split; [exact E|]. split; [reflexivity|].
  split; [exact Hg | exact Hp].
Qed.

Lemma at_rest_setup : at_rest (organ setup).
Proof. unfold at_rest. repeat split. Qed.

Lemma first_block_shows_quiet_colour_witness :
  at_rest (organ setup) /\
  exists st',
    ShowColorOrgan no_key setup = Some st' /\
    leds st' = repeat (quantize (quiet_RGB setup)) TOTAL_LEDS /\
    inputGain (organ st') = AGCboost * AGCalpha /\
    peakRed (organ st') = 0 /\ peakGreen (organ st') = 0 /\
    peakBlue (organ st') = 0.
Proof.
  split; [exact at_rest_setup|].
  exact (first_block_shows_quiet_colour no_key setup at_rest_setup).
Defined.

(** ** Frames that are not keys, and a key held down *)

Lemma idle_reset_count (e : Env) (st : State) :
  (repeatCount st <= 5)%Z \/ (500 < u32 (millis e - keyTimer st))%Z ->
  (repeatCount (idle_reset e st) <= 5)%Z.
Proof.
  intros H. unfold idle_reset.
  destruct (Z.gtb_spec (u32 (millis e - keyTimer st)) 500) as [G|G].
  - cbn [repeatCount set_keyCode set_repeatCount]. lia.
  - destruct H as [H|H]; [exact H | lia].
Qed.

Lemma idle_reset_id (e : Env) (st : State) :
  (u32 (millis e - keyTimer st) <= 500)%Z -> idle_reset e st = st.
Proof.
  intros H. unfold idle_reset.
  destruct (Z.gtb_spec (u32 (millis e - keyTimer st)) 500) as [G|G];
    [lia | reflexivity].
Qed.

(** X13.  A frame that is not a key changes nothing but the variables of
    the key handling: a frame of another protocol than NEC, a frame of
    value 0, and a repeat frame of a key that has not been held for more
    than five repeat frames or whose last frame is more than 500 ms old.
    The display, the modes and the colour organ are as they were. *)
Theorem remote_ignores_frame (e : Env) (st : State) (f : IRFrame) :
  frame e = Some f ->
  protocolNum f <> 1%Z \/ value f = 0%Z \/
  (value f = 0xffffffff%Z /\
   ((repeatCount st <= 5)%Z \/ (500 < u32 (millis e - keyTimer st))%Z)) ->
  untouched st (remote e st).
Proof.
  intros Hf H. unfold remote. fold (idle_reset e st). rewrite Hf.
  pose proof (untouched_idle_reset e st) as H0.
  destruct H as [Hp | [Hv | [Hv Hc]]].
  - set (p := if (value f =? 0xffffffff)%Z then _ else _).
    assert (Hu : untouched st (snd p)).
    { subst p. destruct (value f =? 0xffffffff)%Z; [|exact H0].
      cbn [repeatCount set_keyTimer].
      destruct (repeatCount (idle_reset e st) >? 5)%Z;
        (eapply untouched_trans; [exact H0|]); repeat split. }
    clearbody p. destruct p as [v st1]. cbn [snd] in Hu.
    apply Z.eqb_neq in Hp. rewrite Hp. exact Hu.
  - rewrite Hv. cbn [Z.eqb negb andb].
    rewrite andb_false_r. exact H0.
  - apply (idle_reset_count e st) in Hc.
    rewrite Hv. cbn [Z.eqb Pos.eqb repeatCount set_keyTimer].
    destruct (Z.gtb_spec (repeatCount (idle_reset e st)) 5) as [G|G]; [lia|].
    cbn [Z.eqb Pos.eqb negb andb]. rewrite !andb_false_r.
    eapply untouched_trans; [exact H0|]. repeat split.
Qed.

Lemma remote_ignores_frame_witness :
  frame other_protocol = Some (mkFrame 2 0x58a7) /\
  protocolNum (mkFrame 2 0x58a7) <> 1%Z /\
  untouched power_up (remote other_protocol power_up).
Proof.
  split; [reflexivity|]. split; [cbn; lia|].
  apply (remote_ignores_frame other_protocol power_up (mkFrame 2 0x58a7));
    [reflexivity | left; cbn; lia].
Defined.

(** X14.  A key held down.  A repeat frame of the NEC protocol that
    arrives within 500 ms of the frame before it, after more than five
    repeat frames, is handled as the last key pressed again. *)
Theorem held_key_repeats (e : Env) (st : State) (f : IRFrame) :
  frame e = Some f -> protocolNum f = 1%Z -> value f = 0xffffffff%Z ->
  (u32 (millis e - keyTimer st) <= 500)%Z ->
  (5 < repeatCount st)%Z ->
  (0 < keyCode st <= 0xffff)%Z ->
  exists st1,
    remote e st = key_pressed e st1 /\
    keyCode st1 = keyCode st /\
    repeatCount st1 = u32 (repeatCount st + 1) /\
    keyTimer st1 = millis e /\
    untouched st st1.
Proof.
  intros Hf Hp Hv Hidle Hc Hk.
  assert (Hland : Z.land (keyCode st) 0xffff = keyCode st).
  { change 0xffff%Z with (Z.ones 16). rewrite Z.land_ones by lia.
    apply Z.mod_small. lia. }
  exists (set_keyTimer (millis e)
            (set_keyCode (Z.land (keyCode st) 0xffff)
               (set_repeatCount (u32 (repeatCount st + 1))
                  (set_keyTimer (millis e) st)))).
  split; [|split; [exact Hland | repeat split]].
  unfold remote. fold (idle_reset e st).
  rewrite (idle_reset_id e st Hidle), Hf, Hv, Hp.
  cbn [Z.eqb Pos.eqb repeatCount set_keyTimer keyCode set_repeatCount].
  destruct (Z.gtb_spec (repeatCount st) 5) as [G|G]; [|lia].
  assert (E0 : (keyCode st =? 0)%Z = false) by (apply Z.eqb_neq; lia).
  assert (E1 : (keyCode st =? 0xffffffff)%Z = false)
    by (apply Z.eqb_neq; lia).
  rewrite E0, E1. reflexivity.
Qed.

Lemma held_key_repeats_witness :
  exists st1,
    remote repeat_frame key_held = key_pressed repeat_frame st1 /\
    keyCode st1 = keyCode key_held /\
    repeatCount st1 = u32 (repeatCount key_held + 1) /\
    keyTimer st1 = millis repeat_frame /\
    untouched key_held st1.
Proof.
  apply (held_key_repeats repeat_frame key_held (mkFrame 1 0xffffffff));
    try reflexivity.
  - change (u32 (0 - 0) <= 500)%Z. unfold u32. cbn. lia.
  - change (0 < 0x48b7 <= 0xffff)%Z. lia.
Defined.

(** ** The keys for brightness and saturation *)

(** X15.  Each press of Brighten raises the brightness by at least
    [BRIGHT_LSB], unless it ends at 1.0, and each press of Dim lowers it by
    at least [BRIGHT_LSB], unless it ends at 0: with a brightness in
    [0, 1] neither key leaves the range, and neither is ever without
    effect below its limit. *)
Theorem brightness_keys_progress (e : Env) (st : State) :
  0 <= brightness st <= 1 ->
  (keyCode st = brighten ->
   BRIGHT_LSB <= brightness (key_switch e st) <= 1 /\
   (brightness (key_switch e st) = 1 \/
    brightness st + BRIGHT_LSB <= brightness (key_switch e st))) /\
  (keyCode st = dim ->
   0 <= brightness (key_switch e st) <= brightness st /\
   (brightness (key_switch e st) = 0 \/
    brightness (key_switch e st) <= brightness st - BRIGHT_LSB)).
Proof.
  intros Hb. split; intros Hk; unfold key_switch; rewrite Hk;
    unfold brighten, dim; cbv zeta; cbn [Z.eqb Pos.eqb];
    unfold if_quiet, fgt, flt, feq, BRIGHT_LSB;
    repeat (state_simpl; test_step; try (exfalso; lra));
    state_simpl; lra.
Qed.

Lemma brightness_keys_progress_witness :
  0 <= brightness (set_keyCode brighten power_up) <= 1 /\
  BRIGHT_LSB <= brightness (key_switch no_key (set_keyCode brighten power_up))
    <= 1.
Proof.
  assert (H : 0 <= brightness (set_keyCode brighten power_up) <= 1)
    by (change (0 <= 1.0 <= 1); lra).
  split; [exact H|].
  apply (brightness_keys_progress no_key (set_keyCode brighten power_up) H).
  reflexivity.
Defined.

(** X16.  Each press of Desaturate lowers the saturation by at least
    [BRIGHT_LSB] and keeps it at or above [SATURATION_LIMIT], unless it
    ends at 0 (white); each press of Resaturate raises it by at least
    [BRIGHT_LSB], to [SATURATION_LIMIT] at least, unless it ends at 1.0.
    No saturation strictly between 0 and [SATURATION_LIMIT] is ever set. *)
Theorem saturation_keys_progress (e : Env) (st : State) :
  valid_saturation (saturation st) ->
  (keyCode st = desaturate ->
   valid_saturation (saturation (key_switch e st)) /\
   (saturation (key_switch e st) = 0 \/
    saturation (key_switch e st) <= saturation st - BRIGHT_LSB)) /\
  (keyCode st = resaturate ->
   SATURATION_LIMIT <= saturation (key_switch e st) <= 1 /\
   (saturation (key_switch e st) = 1 \/
    saturation st + BRIGHT_LSB <= saturation (key_switch e st))).
Proof.
  unfold valid_saturation.
  intros Hs. split; intros Hk; unfold key_switch; rewrite Hk;
    unfold desaturate, resaturate; cbv zeta; cbn [Z.eqb Pos.eqb];
    unfold if_quiet, fgt, flt, feq, BRIGHT_LSB, SATURATION_LIMIT in *;
    repeat (state_simpl; test_step; try (exfalso; lra));
    state_simpl; lra.
Qed.

Lemma saturation_keys_progress_witness :
  valid_saturation (saturation (set_keyCode desaturate power_up)) /\
  valid_saturation
    (saturation (key_switch no_key (set_keyCode desaturate power_up))).
Proof.
  assert (H : valid_saturation (saturation (set_keyCode desaturate power_up)))
    by (right; change (SATURATION_LIMIT <= 1.0 <= 1);
        unfold SATURATION_LIMIT; lra).
  split; [exact H|].
  apply (saturation_keys_progress no_key (set_keyCode desaturate power_up) H).
  reflexivity.
Defined.

(** ** The colour organ runs only in its own mode *)

(** X17.  A pass of [loop()] that ends with the display OFF, or in another
    mode than ColorOrgan, has not sampled the audio: the gain, the bias,
    the filters and the peak detectors are as they were before the pass,
    whatever key arrived in it. *)
Theorem organ_untouched_outside_ColorOrgan (e : Env) (st st' : State) :
  loop e st = Some st' ->
  onOff st' = false \/ currentState st' <> ColorOrgan ->
  organ st' = organ st.
Proof.
  unfold loop, running. rewrite <- (remote_organ e st).
  set (st0 := remote e st). clearbody st0.
  destruct (onOff st0) eqn:Hon; [|now intros [= <-]].
  destruct (Mode_eqb (currentState st0) ColorOrgan) eqn:Hm.
  - destruct (ShowColorOrgan e st0) as [st1|] eqn:E; [|discriminate].
    apply mode_state_ShowColorOrgan in E. destruct E as (E & Eon & _).
    assert (Em : currentState st1 = currentState st0)
      by (unfold mode_state in E; congruence).
    rewrite Em, Hm. cbn [negb]. intros [= <-] [H | H].
    + congruence.
    + exfalso. apply H. rewrite Em. now destruct (currentState st0).
  - rewrite Hm. cbn [negb]. intros [= <-] _. apply animate_organ.
Qed.

Lemma organ_untouched_outside_ColorOrgan_witness :
  loop no_key powered_off = Some (idle_reset no_key powered_off) /\
  organ (idle_reset no_key powered_off) = organ powered_off.
Proof.
  assert (H : loop no_key powered_off = Some (idle_reset no_key powered_off))
    by (apply loop_idle_off; reflexivity).
  split; [exact H|].
  apply (organ_untouched_outside_ColorOrgan no_key powered_off _ H).
  left. reflexivity.
Defined.

(** ** The samples of a block *)

Lemma pass_toggle (e : Env) (o o' : OrganVars) :
  pass e o = Some o' -> toggle o' = negb (toggle o).
Proof.
  unfold pass, sample.
  cbn [sampleCount set_sampleCount analogReads inputBias sampleMax inputGain
       toggle].
  destruct (AGC _ (sampleMax o) (inputGain o)) as [sm ig].
  destruct (array_get hanningWindow _) as [w|]; [|discriminate].
  now intros [= <-].
Qed.

Lemma sampling_loop_toggle (e : Env) (k : nat) (o ok : OrganVars) :
  sampling_loop e k o = Interrupted ok ->
  toggle ok = if Nat.even k then toggle o else negb (toggle o).
Proof.
  revert o. induction k as [|k IH]; intros o E.
  - cbn in E. now injection E as <-.
  - rewrite sampling_loop_S in E.
    destruct (sampleCount o <? SAMPLE_SIZE)%Z; [|discriminate].
    destruct (pass e o) as [o1|] eqn:Ep; [|discriminate].
    apply IH in E. apply pass_toggle in Ep. rewrite E, Ep.
    rewrite Nat.even_succ, <- Nat.negb_even.
    destruct (Nat.even k), (toggle o); reflexivity.
Qed.

(** X18.  A block always ends, after exactly [SAMPLE_SIZE] reads of the
    audio pin, with [sampleCount] at [SAMPLE_SIZE + 1] (the test that ends
    the loop increments it once more), with the telemetry toggle as it
    was before the block and with one frame sent to the LEDs. *)
Theorem block_takes_SAMPLE_SIZE_samples (e : Env) (st : State) :
  exists st',
    ShowColorOrgan e st = Some st' /\
    analogReads (organ st') =
      (analogReads (organ st) + Z.to_nat SAMPLE_SIZE)%nat /\
    sampleCount (organ st') = (SAMPLE_SIZE + 1)%Z /\
    toggle (organ st') = toggle (organ st) /\
    output st' = FastLED_show (leds st') :: output st.
Proof.
  destruct (ShowColorOrgan_spec e st) as (o320 & c & E320 & _ & ES).
  destruct (sampling_loop_passes e (Z.to_nat SAMPLE_SIZE)
              (set_sampleCount 0 (organ st)))
    as (o & E & _ & Hr); [cbn; lia | cbn; unfold SAMPLE_SIZE; lia |].
  rewrite E320 in E. injection E as <-.
  apply sampling_loop_toggle in E320.
  eexists. split; [exact ES|].
  cbn [organ show set_output set_leds set_organ output leds].
  assert (HA : forall x,
    analogReads (AGC_recover x) = analogReads x /\
    sampleCount (AGC_recover x) = sampleCount x /\
    toggle (AGC_recover x) = toggle x)
    by (intros x; unfold AGC_recover; destruct (_ <? _); repeat split).
  destruct (HA (set_sampleCount (SAMPLE_SIZE + 1) o320)) as (A1 & A2 & A3).
  cbn [analogReads sampleCount toggle set_sampleMax].
  rewrite A1, A2, A3. cbn [analogReads sampleCount toggle set_sampleCount].
  split; [exact Hr|]. split; [reflexivity|]. split; [exact E320 | reflexivity].
Qed.

(** ** The lift of blue in the colour organ is decided on floats *)

Lemma quiet_8bit_83 : quiet_8bit 83 = 5.
Proof.
  unfold quiet_8bit.
  assert (H : (5 <= round (83 / 16.6) <= 5)%Z)
    by (apply round_bounds; [lia | lra | lra]).
  replace (round (83 / 16.6)) with 5%Z by lia. reflexivity.
Qed.

Lemma Rpower_10_neg (y : R) : 0 < y -> 0 < Rpower 10 (- y) < 1.
Proof.
  intros Hy. pose proof ln10_pos as H10. unfold Rpower. split.
  - apply exp_pos.
  - rewrite <- exp_0. apply exp_increasing.
    assert (0 < y * ln 10) by (apply Rmult_lt_0_compat; lra). lra.
Qed.

Lemma channel_brightness_5_5 (quiet : R) :
  channel_brightness BLUE_GAIN peak_5_5 quiet = Fin 5.5.
Proof.
  pose proof ln10_pos as H10.
  destruct (Rpower_10_neg (249.5 / 204)) as [P0 P1]; [lra|].
  assert (Eb : BLUE_GAIN * peak_5_5 = MAX_ANALOG * Rpower 10 (- (249.5 / 204)))
    by (unfold peak_5_5, BLUE_GAIN; field).
  assert (Hb : 0 < BLUE_GAIN * peak_5_5 <= MAX_ANALOG)
    by (rewrite Eb; unfold MAX_ANALOG; split; nra).
  assert (Ed : dB (BLUE_GAIN * peak_5_5) = 5.5).
  { rewrite dB_linear, Eb.
    replace (MAX_ANALOG * Rpower 10 (- (249.5 / 204)) / MAX_ANALOG)
      with (Rpower 10 (- (249.5 / 204))) by (unfold MAX_ANALOG; field).
    unfold Rpower. rewrite ln_exp.
    assert (Hq : forall y, y * ln 10 / ln 10 = y) by (intros y; field; lra).
    rewrite Hq. lra. }
  unfold channel_brightness. cbv zeta.
  rewrite makeValid_id by lra.
  rewrite dB_scale_pos by lra. rewrite Ed.
  unfold quiet_default. cbn [xlt].
  destruct (5.5 <? 0) eqn:E; [apply flt_true in E; lra | reflexivity].
Qed.

(** X19.  Unlike [ShowBuffer], the colour organ tests for a dim white
    before the cast to bytes.  Values that differ as floats and are cast to
    the same byte can be sent as they are: with red and green at the quiet
    colour 5 and a blue peak of 5.5 on the dB scale, the three bytes of a
    block are 5, 5 and 5, a white on which the strings flicker. *)
Theorem organ_can_send_dim_white :
  exists red green blue,
    organ_rgb blue_5_5 83 83 0 = (red, green, blue) /\
    red <> blue /\
    cast_byte red = Some 5%Z /\ cast_byte green = Some 5%Z /\
    cast_byte blue = Some 5%Z /\
    flickers (CRGB.mk 5 5 5).
Proof.
  exists (Fin 5), (Fin 5), (Fin 5.5).
  assert (E5 : cast_byte (Fin 5) = Some 5%Z).
  { destruct (cast_byte_Fin 5) as [-> _]; [lra|].
    f_equal. apply (Int_part_IZR 5). }
  assert (E55 : cast_byte (Fin 5.5) = Some 5%Z).
  { destruct (cast_byte_Fin 5.5) as [-> _]; [lra|].
    f_equal.
    assert (5 <= Int_part 5.5 <= 5)%Z by (apply Int_part_bounds; lra).
    lia. }
  split; [|split; [|split; [exact E5|split; [exact E5|split; [exact E55|]]]]].
  - unfold organ_rgb. cbn [peakRed peakGreen peakBlue blue_5_5]. cbv zeta.
    rewrite (channel_brightness_below _ _ 83 (below_floor_0 RED_GAIN)),
      (channel_brightness_below _ _ 83 (below_floor_0 GREEN_GAIN)),
      channel_brightness_5_5, quiet_8bit_83.
    unfold dim_white. cbn [xeq xlt].
    destruct (5 =? 5.5) eqn:E.
    + unfold feq in E. destruct (Req_dec_T 5 5.5); [lra | discriminate].
    + now rewrite andb_false_r.
  - intros [= H]. lra.
  - unfold flickers. cbn [CRGB.r CRGB.g CRGB.b]. lia.
Qed.

(** ** The Hann window *)

Lemma hanningWindow_at (n : nat) :
  (n < Z.to_nat SAMPLE_SIZE)%nat ->
  nth_error hanningWindow n =
  Some (0.5 * (1.0 - cos (2 * PI * INR n / IZR (SAMPLE_SIZE - 1)))).
Proof.
  intros H. unfold hanningWindow. rewrite nth_error_map.
  rewrite (nth_error_nth' _ 0%nat) by (now rewrite length_seq).
  now rewrite seq_nth.
Qed.

Lemma cos_mirror (x : R) : cos (2 * PI - x) = cos x.
Proof. rewrite cos_minus, cos_2PI, sin_2PI. ring. Qed.

(** X20.  The window of a block is symmetric, within [0, 1], and 0 at both
    ends: entry [i] equals entry [SAMPLE_SIZE - 1 - i], and the first and
    the last sample of every block are weighted with 0. *)
Theorem hanningWindow_tapers (i : Z) :
  (0 <= i < SAMPLE_SIZE)%Z ->
  exists w,
    array_get hanningWindow i = Some w /\
    array_get hanningWindow (SAMPLE_SIZE - 1 - i) = Some w /\
    0 <= w <= 1 /\
    (i = 0%Z \/ i = (SAMPLE_SIZE - 1)%Z -> w = 0).
Proof.
  intros Hi. unfold SAMPLE_SIZE in Hi.
  assert (Hn : (Z.to_nat i < Z.to_nat SAMPLE_SIZE)%nat)
    by (unfold SAMPLE_SIZE; lia).
  assert (Hm : (Z.to_nat (SAMPLE_SIZE - 1 - i) < Z.to_nat SAMPLE_SIZE)%nat)
    by (unfold SAMPLE_SIZE; lia).
  assert (Ei : INR (Z.to_nat i) = IZR i)
    by (rewrite INR_IZR_INZ, Z2Nat.id by lia; reflexivity).
  assert (Em : INR (Z.to_nat (SAMPLE_SIZE - 1 - i)) = 319 - IZR i).
  { rewrite INR_IZR_INZ, Z2Nat.id by (unfold SAMPLE_SIZE; lia).
    unfold SAMPLE_SIZE. rewrite minus_IZR. reflexivity. }
  eexists. split; [|split; [|split]].
  - unfold array_get. destruct (Z.ltb_spec i 0) as [L|L]; [lia|].
    apply (hanningWindow_at _ Hn).
  - unfold array_get.
    destruct (Z.ltb_spec (SAMPLE_SIZE - 1 - i) 0) as [L|L];
      [unfold SAMPLE_SIZE in L; lia|].
    rewrite (hanningWindow_at _ Hm), Em, Ei. do 3 f_equal.
    change (IZR (SAMPLE_SIZE - 1)) with 319.
    replace (2 * PI * (319 - IZR i) / 319)
      with (2 * PI - 2 * PI * IZR i / 319) by field.
    apply cos_mirror.
  - pose proof (COS_bound (2 * PI * INR (Z.to_nat i) / IZR (SAMPLE_SIZE - 1))).
    lra.
  - rewrite Ei. change (IZR (SAMPLE_SIZE - 1)) with 319.
    intros [-> | ->].
    + replace (2 * PI * 0 / 319) with 0 by field. rewrite cos_0. lra.
    + change (IZR (SAMPLE_SIZE - 1)) with 319.
      replace (2 * PI * 319 / 319) with (2 * PI) by field.
      rewrite cos_2PI. lra.
Qed.

Lemma hanningWindow_tapers_witness :
  exists w,
    array_get hanningWindow 0 = Some w /\
    array_get hanningWindow (SAMPLE_SIZE - 1 - 0) = Some w /\
    0 <= w <= 1 /\
    (0%Z = 0%Z \/ 0%Z = (SAMPLE_SIZE - 1)%Z -> w = 0).
Proof.
  apply (hanningWindow_tapers 0). unfold SAMPLE_SIZE. lia.
Defined.

(** ** The filters and the peak detectors stay bounded *)

Lemma ln_e_pos : 0 < ln 2.71828.
Proof. rewrite <- ln_1. apply ln_increasing; lra. Qed.

Lemma alpha_range (x : R) : x < 0 -> 0 < 1 - pow 2.71828 x < 1.
Proof.
  intros Hx. pose proof ln_e_pos as He. unfold pow, Rpower.
  pose proof (exp_pos (x * ln 2.71828)) as Hp.
  assert (Hl : exp (x * ln 2.71828) < 1).
  { rewrite <- exp_0. apply exp_increasing.
    assert (0 < (- x) * ln 2.71828) by (apply Rmult_lt_0_compat; lra). lra. }
  lra.
Qed.

Lemma filter_alphas :
  0 < redHPalpha < 1 /\ 0 < greenHPalpha < 1 /\ 0 < greenLPalpha < 1 /\
  0 < blueLPalpha < 1 /\ 0 < blueHPalpha < 1.
Proof.
  pose proof PI_RGT_0 as Hpi.
  unfold redHPalpha, greenHPalpha, greenLPalpha, blueLPalpha, blueHPalpha.
  repeat split; apply alpha_range;
    unfold SAMPLE_TIME, RED_HP_CORNER, GREEN_HP_CORNER, GREEN_LP_CORNER,
      BLUE_LP_CORNER, BLUE_HP_CORNER; lra.
Qed.

Lemma ema_bound (a x y b : R) :
  0 < a < 1 -> within b x -> within b y -> within b (a * x + (1 - a) * y).
Proof.
  unfold within. intros Ha Hx Hy.
  assert (a * x <= a * b) by (apply Rmult_le_compat_l; lra).
  assert (a * (- b) <= a * x) by (apply Rmult_le_compat_l; lra).
  assert ((1 - a) * y <= (1 - a) * b) by (apply Rmult_le_compat_l; lra).
  assert ((1 - a) * (- b) <= (1 - a) * y) by (apply Rmult_le_compat_l; lra).
  lra.
Qed.

Lemma sub_bound (b c d x y : R) :
  within b x -> within c y -> b + c = d -> within d (x - y).
Proof. unfold within. intros. lra. Qed.

Lemma Rabs_within (b x : R) : Rabs x <= b -> within b x.
Proof.
  intros H. pose proof (RRle_abs x) as H1. pose proof (RRle_abs (- x)) as H2.
  rewrite Rabs_Ropp in H2. unfold within. lra.
Qed.

Lemma peak_detect_bound (out peak alpha b : R) :
  0 < 1 - alpha < 1 -> within b out -> 0 <= peak <= b ->
  0 <= peak_detect out peak alpha <= b.
Proof.
  unfold within, peak_detect. intros Ha Ho Hp. rewrite abs_Rabs.
  pose proof (Rabs_pos out) as H0.
  assert (H1 : Rabs out <= b) by (apply Rabs_le; exact Ho).
  destruct (Rabs out >? peak).
  - lra.
  - assert (peak * (1 - alpha) <= peak * 1)
      by (apply Rmult_le_compat_l; lra).
    assert (0 <= peak * (1 - alpha)) by (apply Rmult_le_pos; lra).
    lra.
Qed.

(** The filters of one pass of the sampling loop. *)
Lemma pass_filters (e : Env) (o o' : OrganVars) :
  pass e o = Some o' ->
  let x := audioSample o' in
  let brightnessAlpha :=
    1 - pow 2.71828 (- UPDATE_PERIOD * 0.001 / BRIGHTNESS_TAU) in
  (redHP o' = redHPalpha * x + (1 - redHPalpha) * redHP o /\
   redHP2 o' = redHPalpha * (x - redHP o') + (1 - redHPalpha) * redHP2 o /\
   redHP3 o' = redHPalpha * (x - redHP o' - redHP2 o')
               + (1 - redHPalpha) * redHP3 o /\
   peakRed o' = peak_detect (x - redHP o' - redHP2 o' - redHP3 o')
                  (peakRed o) brightnessAlpha) /\
  (greenLP o' = greenLPalpha * x + (1 - greenLPalpha) * greenLP o /\
   greenLP2 o' = greenLPalpha * greenLP o'
                 + (1 - greenLPalpha) * greenLP2 o /\
   greenLP3 o' = greenLPalpha * greenLP2 o'
                 + (1 - greenLPalpha) * greenLP3 o /\
   greenHP o' = greenHPalpha * greenLP3 o' + (1 - greenHPalpha) * greenHP o /\
   greenHP2 o' = greenHPalpha * (greenLP3 o' - greenHP o')
                 + (1 - greenHPalpha) * greenHP2 o /\
   greenHP3 o' = greenHPalpha * (greenLP3 o' - greenHP o' - greenHP2 o')
                 + (1 - greenHPalpha) * greenHP3 o /\
   peakGreen o' =
     peak_detect (greenLP3 o' - greenHP o' - greenHP2 o' - greenHP3 o')
       (peakGreen o) brightnessAlpha) /\
  (blueLP o' = blueLPalpha * x + (1 - blueLPalpha) * blueLP o /\
   blueLP2 o' = blueLPalpha * blueLP o' + (1 - blueLPalpha) * blueLP2 o /\
   blueLP3 o' = blueLPalpha * blueLP2 o' + (1 - blueLPalpha) * blueLP3 o /\
   blueHP o' = blueHPalpha * blueLP3 o' + (1 - blueHPalpha) * blueHP o /\
   peakBlue o' = peak_detect (blueLP3 o' - blueHP o') (peakBlue o)
                   brightnessAlpha).
Proof.
  unfold pass, sample.
  cbn [sampleCount set_sampleCount analogReads inputBias sampleMax inputGain
       redHP redHP2 redHP3 greenLP greenLP2 greenLP3 greenHP greenHP2
       greenHP3 blueLP blueLP2 blueLP3 blueHP peakRed peakGreen peakBlue
       toggle].
  destruct (AGC _ (sampleMax o) (inputGain o)) as [sm ig].
  destruct (array_get hanningWindow _) as [w|]; [|discriminate].
  intros [= <-]. cbv zeta. repeat split.
Qed.

Lemma pass_audio_bound (e : Env) (o o' : OrganVars) :
  AGC_inv o -> pass e o = Some o' ->
  within (MAX_ANALOG / 2) (audioSample o').
Proof.
  intros [H0 H1] Hp. apply pass_Some in Hp.
  destruct Hp as (Hp & w & Hw & ->). symmetry in Hp.
  destruct (AGC_spec _ _ _ _ _ Hp) as (Hr & _ & Hg & Hc & _).
  specialize (Hg H0). specialize (Hc H1).
  apply hanningWindow_range in Hw.
  set (g := inputGain o') in *. set (r := rawSample o') in *.
  set (sm := sampleMax o') in *. clearbody g r sm.
  assert (Hrg : Rabs (r * g) <= MAX_ANALOG / 2).
  { rewrite Rabs_mult, (Rabs_pos_eq g Hg).
    assert (Rabs r * g <= sm * g) by (apply Rmult_le_compat_r; lra). lra. }
  apply Rabs_within in Hrg. unfold within in *.
  unfold MAX_ANALOG in *.
  assert (r * g * w <= 2047.5 * w /\ - 2047.5 * w <= r * g * w) by nra.
  nra.
Qed.

Lemma pass_filters_bounded (e : Env) (o o' : OrganVars) :
  AGC_inv o /\ filters_bounded o -> pass e o = Some o' ->
  AGC_inv o' /\ filters_bounded o'.
Proof.
  intros [Hi Hb] Hp. split; [exact (pass_AGC_inv e o o' Hi Hp)|].
  pose proof (pass_audio_bound e o o' Hi Hp) as Hx.
  destruct filter_alphas as (Ar & Agh & Agl & Abl & Abh).
  assert (Ab : 0 < 1 - (1 - pow 2.71828 (- UPDATE_PERIOD * 0.001
                                          / BRIGHTNESS_TAU)) < 1).
  { destruct (alpha_range (- UPDATE_PERIOD * 0.001 / BRIGHTNESS_TAU));
      [unfold UPDATE_PERIOD, BRIGHTNESS_TAU; lra | lra]. }
  apply pass_filters in Hp. cbv zeta in Hp.
  destruct Hp as ((R1 & R2 & R3 & Pr) & (G1 & G2 & G3 & G4 & G5 & G6 & Pg)
                  & (B1 & B2 & B3 & B4 & Pb)).
  unfold filters_bounded in *. cbv zeta in *.
  destruct Hb as (_ & (Hr1 & Hr2 & Hr3) & (Hg1 & Hg2 & Hg3)
                  & (Hg4 & Hg5 & Hg6) & (Hb1 & Hb2 & Hb3 & Hb4)
                  & (Hpr & Hpg & Hpb)).
  set (A := MAX_ANALOG / 2) in *.
  assert (Kr1 : within A (redHP o'))
    by (rewrite R1; now apply ema_bound).
  assert (Kr2 : within (2 * A) (redHP2 o')).
  { rewrite R2. apply ema_bound; [exact Ar | | exact Hr2].
    apply (sub_bound A A); [exact Hx | exact Kr1 | ring]. }
  assert (Kr3 : within (4 * A) (redHP3 o')).
  { rewrite R3. apply ema_bound; [exact Ar | | exact Hr3].
    apply (sub_bound (2 * A) (2 * A)); [| exact Kr2 | ring].
    apply (sub_bound A A); [exact Hx | exact Kr1 | ring]. }
  assert (Kg1 : within A (greenLP o'))
    by (rewrite G1; now apply ema_bound).
  assert (Kg2 : within A (greenLP2 o'))
    by (rewrite G2; now apply ema_bound).
  assert (Kg3 : within A (greenLP3 o'))
    by (rewrite G3; now apply ema_bound).
  assert (Kg4 : within A (greenHP o'))
    by (rewrite G4; now apply ema_bound).
  assert (Kg5 : within (2 * A) (greenHP2 o')).
  { rewrite G5. apply ema_bound; [exact Agh | | exact Hg5].
    apply (sub_bound A A); [exact Kg3 | exact Kg4 | ring]. }
  assert (Kg6 : within (4 * A) (greenHP3 o')).
  { rewrite G6. apply ema_bound; [exact Agh | | exact Hg6].
    apply (sub_bound (2 * A) (2 * A)); [| exact Kg5 | ring].
    apply (sub_bound A A); [exact Kg3 | exact Kg4 | ring]. }
  assert (Kb1 : within A (blueLP o'))
    by (rewrite B1; now apply ema_bound).
  assert (Kb2 : within A (blueLP2 o'))
    by (rewrite B2; now apply ema_bound).
  assert (Kb3 : within A (blueLP3 o'))
    by (rewrite B3; now apply ema_bound).
  assert (Kb4 : within A (blueHP o'))
    by (rewrite B4; now apply ema_bound).
  split; [exact Hx|]. split; [exact (conj Kr1 (conj Kr2 Kr3))|].
  split; [exact (conj Kg1 (conj Kg2 Kg3))|].
  split; [exact (conj Kg4 (conj Kg5 Kg6))|].
  split; [exact (conj Kb1 (conj Kb2 (conj Kb3 Kb4)))|].
  rewrite Pr, Pg, Pb.
  split; [|split]; (apply peak_detect_bound; [exact Ab | | assumption]).
  - apply (sub_bound (4 * A) (4 * A)); [| exact Kr3 | ring].
    apply (sub_bound (2 * A) (2 * A)); [| exact Kr2 | ring].
    apply (sub_bound A A); [exact Hx | exact Kr1 | ring].
  - apply (sub_bound (4 * A) (4 * A)); [| exact Kg6 | ring].
    apply (sub_bound (2 * A) (2 * A)); [| exact Kg5 | ring].
    apply (sub_bound A A); [exact Kg3 | exact Kg4 | ring].
  - apply (sub_bound A A); [exact Kb3 | exact Kb4 | ring].
Qed.

Lemma AGC_recover_filters_bounded (o : OrganVars) (n : Z) :
  filters_bounded o ->
  filters_bounded (set_sampleMax 0 (AGC_recover (set_sampleCount n o))).
Proof.
  intros H. unfold AGC_recover. destruct (_ <? _); exact H.
Qed.

Lemma ShowColorOrgan_filters_bounded (e : Env) (st st' : State) :
  block_start st -> filters_bounded (organ st) ->
  ShowColorOrgan e st = Some st' -> filters_bounded (organ st').
Proof.
  intros [Hm Hg] Hb E.
  destruct (ShowColorOrgan_spec e st) as (o320 & c & E320 & _ & ES).
  rewrite ES in E. injection E as <-.
  cbn [organ show set_output set_leds set_organ].
  apply AGC_recover_filters_bounded.
  apply (sampling_loop_invariant
           (fun o => AGC_inv o /\ filters_bounded o) e
           (pass_filters_bounded e) (Z.to_nat SAMPLE_SIZE)
           (set_sampleCount 0 (organ st)) o320); [|exact E320].
  split; [|exact Hb]. unfold AGC_inv. cbn [inputGain sampleMax set_sampleCount].
  rewrite Hm. unfold MAX_ANALOG. split; [exact Hg | lra].
Qed.

Lemma loop_filters_bounded (e : Env) (st st' : State) :
  block_start st /\ filters_bounded (organ st) -> loop e st = Some st' ->
  block_start st' /\ filters_bounded (organ st').
Proof.
  intros [Hs Hb] E. split; [exact (loop_block_start e st st' Hs E)|].
  revert E. unfold loop, running.
  assert (Hs0 : block_start (remote e st))
    by (unfold block_start; now rewrite remote_organ).
  rewrite <- (remote_organ e st) in Hb.
  set (st0 := remote e st) in *. clearbody st0.
  destruct (onOff st0); [|now intros [= <-]].
  destruct (Mode_eqb (currentState st0) ColorOrgan).
  - destruct (ShowColorOrgan e st0) as [st1|] eqn:E; [|discriminate].
    apply ShowColorOrgan_filters_bounded in E; [|exact Hs0 | exact Hb].
    destruct (negb _); intros [= <-]; [|exact E].
    now rewrite animate_organ.
  - destruct (negb _); intros [= <-]; [|exact Hb].
    now rewrite animate_organ.
Qed.

Lemma loops_filters_bounded (es : list Env) (st st' : State) :
  block_start st /\ filters_bounded (organ st) -> loops es st = Some st' ->
  block_start st' /\ filters_bounded (organ st').
Proof.
  revert st. induction es as [|e es IH]; intros st H; cbn [loops].
  - now intros [= <-].
  - destruct (loop e st) as [st1|] eqn:E; [|discriminate].
    apply IH. now apply (loop_filters_bounded e st).
Qed.

Lemma at_rest_bounded (o : OrganVars) :
  at_rest o -> audioSample o = 0 -> filters_bounded o.
Proof.
  intros (_ & (H1 & H2 & H3) & (H4 & H5 & H6) & (H7 & H8 & H9)
          & (H10 & H11 & H12 & H13) & (Pr & Pg & Pb)) Ha.
  unfold filters_bounded, within. cbv zeta.
  rewrite Ha, H1, H2, H3, H4, H5, H6, H7, H8, H9, H10, H11, H12, H13,
    Pr, Pg, Pb.
  unfold MAX_ANALOG. repeat split; lra.
Qed.

(** X21.  From [setup()] on, whatever is read from the audio pin, the
    windowed sample, the filters and the peak detectors stay bounded: the
    sample and the low-pass stages by half the range of the ADC,
    [MAX_ANALOG / 2], the second and third high-pass stages by 2 and 4
    times as much, and the peaks, which are never negative, by 8 times as
    much for red and green and twice as much for blue. *)
Theorem filters_stay_bounded (es : list Env) :
  exists st', loops es setup = Some st' /\ filters_bounded (organ st').
Proof.
  destruct (loops_total es setup) as [st' E]. exists st'.
  split; [exact E|].
  apply (loops_filters_bounded es setup st'); [|exact E].
  split; [exact block_start_setup|].
  apply at_rest_bounded; [exact at_rest_setup | reflexivity].
Qed.

(** ** The LEDs and the frame buffer are always well formed *)








































(** ** The QuietColor key shows what the colour organ shows in silence *)

Lemma refresh_QuietColor (e : Env) (st : State) :
  currentState st = QuietColor ->
  refresh e st =
  ShowBuffer (CreateSolidColor (hue st) (saturation st) (brightness st) st).
Proof.
  intros Hm. unfold refresh. rewrite Hm. cbn [Mode_eqb orb]. cbv zeta.
  set (st1 := ShowBuffer _).
  assert (E : currentState st1 = QuietColor) by exact Hm.
  rewrite E. cbn [Mode_eqb]. rewrite E. reflexivity.
Qed.

Lemma leds_solid (h s v : R) (st : State) :
  leds (ShowBuffer (CreateSolidColor h s v st)) =
  repeat (quantize (shade s v (Hue h))) TOTAL_LEDS.
Proof.
  apply ShowBuffer_uniform. unfold CreateSolidColor. cbn [buffer set_buffer].
  apply map_const_seq.
Qed.

(** X23.  The QuietColor key, while ON, takes the hue, saturation and
    brightness of the quiet colour as the colour set, leaves the quiet
    colour as it is, and shows on every LED the bytes that the colour
    organ sends in silence: those that [ShowBuffer] makes of the RGB
    values of the quiet colour, as long as these are the ones of its hue,
    saturation and brightness. *)
Theorem quiet_key_shows_quiet_colour (e : Env) (st : State) :
  key_event e 0x8877 -> onOff st = true ->
  quiet_RGB st =
    shade (quietSaturation st) (quietBrightness st) (Hue (quietHue st)) ->
  let st' := remote e st in
  currentState st' = QuietColor /\
  (hue st', saturation st', brightness st') =
    (quietHue st, quietSaturation st, quietBrightness st) /\
  quiet_snapshot st' = quiet_snapshot st /\
  leds st' = repeat (quantize (quiet_RGB st)) TOTAL_LEDS.
Proof.
  intros Hk Hon Hq. cbv zeta.
  rewrite (remote_key_event e 0x8877 st Hk) by lia.
  destruct (untouched_idle_reset e st) as (U1 & U2 & _).
  set (st0 := set_keyTimer (millis e) (set_keyCode 0x8877 (idle_reset e st))).
  assert (K0 : keyCode st0 = 0x8877%Z) by reflexivity.
  assert (O0 : onOff st0 = true)
    by (change (onOff (idle_reset e st) = true); now rewrite U1).
  assert (M0 : mode_state st0 = mode_state st) by exact U2.
  clearbody st0.
  rewrite key_pressed_other by (rewrite ?K0; first [lia | exact O0]).
  unfold key_switch. rewrite K0. cbn [Z.eqb Pos.eqb]. cbv zeta.
  rewrite refresh_QuietColor by reflexivity.
  unfold mode_state in M0. injection M0 as _ _ _ _ _ _ _ Hh Hs Hv Hr Hg Hb.
  split; [reflexivity|].
  split; [state_simpl; now rewrite Hh, Hs, Hv|].
  split; [unfold quiet_snapshot; state_simpl;
          now rewrite Hh, Hs, Hv, Hr, Hg, Hb|].
  rewrite leds_solid. state_simpl. rewrite Hh, Hs, Hv, Hq. reflexivity.
Qed.

Lemma quiet_RGB_UpdateQuietColor (st : State) :
  quiet_RGB (UpdateQuietColor st) =
  shade (saturation st) (brightness st) (Hue (hue st)).
Proof.
  unfold quiet_RGB, UpdateQuietColor.
  cbn [quietRed quietGreen quietBlue set_quiet].
  now destruct (shade _ _ _).
Qed.

Lemma quiet_key_shows_quiet_colour_witness :
  key_event quiet_key 0x8877 /\ onOff quiet_taken = true /\
  leds (remote quiet_key quiet_taken) =
    repeat (quantize (quiet_RGB quiet_taken)) TOTAL_LEDS.
Proof.
  assert (Hk : key_event quiet_key 0x8877).
  { exists (mkFrame 1 0x8877). repeat split. cbn. lia. }
  split; [exact Hk|]. split; [reflexivity|].
  apply (quiet_key_shows_quiet_colour quiet_key quiet_taken Hk eq_refl).
  exact (quiet_RGB_UpdateQuietColor power_up).
Defined.

(** X24.  Each press of Next Hue moves a hue in [0, 1] forward by a step,
    1/64 of the cycle or a third of that between 0.33 and 0.66, unless the
    step passes the end of the cycle: the hue is then 0.  Each press of
    Previous Hue moves it back by the same steps, to 1 when the step
    passes 0. *)
Theorem hue_keys_progress (e : Env) (st : State) :
  0 <= hue st <= 1 ->
  (keyCode st = next_hue ->
   hue (key_switch e st) = 0 \/
   hue st + 1 / 192 <= hue (key_switch e st) <= hue st + 1 / 64) /\
  (keyCode st = previous_hue ->
   hue (key_switch e st) = 1 \/
   hue st - 1 / 64 <= hue (key_switch e st) <= hue st - 1 / 192).
Proof.
  intros Hh. split; intros Hk; unfold key_switch; rewrite Hk;
    unfold next_hue, previous_hue; cbv zeta; cbn [Z.eqb Pos.eqb];
    unfold if_quiet, step_hue, MakeHueValid, fgt, flt, feq, HUE_STEPS;
    repeat (state_simpl; test_step; try (exfalso; lra));
    cbn [andb]; state_simpl;
    repeat (test_step; try (exfalso; lra)); state_simpl; lra.
Qed.

Lemma hue_keys_progress_witness :
  0 <= hue (set_keyCode next_hue power_up) <= 1 /\
  (hue (key_switch no_key (set_keyCode next_hue power_up)) = 0 \/
   hue (set_keyCode next_hue power_up) + 1 / 192
     <= hue (key_switch no_key (set_keyCode next_hue power_up))
     <= hue (set_keyCode next_hue power_up) + 1 / 64).
Proof.
  assert (H : 0 <= hue (set_keyCode next_hue power_up) <= 1)
    by (change (0 <= 0.0 <= 1); lra).
  split; [exact H|].
  apply (hue_keys_progress no_key (set_keyCode next_hue power_up) H).
  reflexivity.
Defined.

(** ** A pass in which the gain is cut *)

Lemma pass_rawSample (e : Env) (o o' : OrganVars) :
  pass e o = Some o' ->
  rawSample o' =
  (IZR (analogRead e (analogReads o)) - inputBias o) * (1 - biasLpAlpha).
Proof.
  unfold pass, sample.
  cbn [sampleCount set_sampleCount analogReads inputBias sampleMax inputGain].
  destruct (AGC _ (sampleMax o) (inputGain o)) as [sm ig].
  destruct (array_get hanningWindow _) as [w|]; [|discriminate].
  intros [= <-]. cbn [rawSample]. ring.
Qed.

Lemma bias_decay : 0.9 < 1 - biasLpAlpha <= 1.
Proof.
  unfold biasLpAlpha, pow, Rpower, UPDATE_PERIOD.
  pose proof ln_e_pos as H0.
  assert (H1 : ln 2.71828 <= 1.71828).
  { pose proof (exp_ineq1_le (ln 2.71828)) as H.
    rewrite exp_ln in H by lra. lra. }
  set (x := - (32) * 0.001 / 1 * ln 2.71828).
  assert (Hx : - 0.06 <= x < 0) by (unfold x; lra).
  pose proof (exp_ineq1_le x) as H2.
  assert (H3 : exp x <= 1).
  { rewrite <- exp_0. apply Rlt_le, exp_increasing. lra. }
  lra.
Qed.

Lemma sampling_loop_1 (e : Env) (o o' : OrganVars) :
  sampling_loop e 1 o = Interrupted o' -> pass e o = Some o'.
Proof.
  rewrite sampling_loop_S.
  destruct (sampleCount o <? SAMPLE_SIZE)%Z; [|discriminate].
  destruct (pass e o) as [o1|]; [|discriminate].
  cbn [sampling_loop]. now intros [= ->].
Qed.

Lemma first_pass_overshoots (o' : OrganVars) :
  sampling_loop full_scale 1 (set_sampleCount 0 gain_2) = Interrupted o' ->
  overshoot (set_sampleCount 0 gain_2) o' /\
  inputGain (set_sampleCount 0 gain_2) = 2.
Proof.
  intros E. apply sampling_loop_1, pass_rawSample in E.
  assert (Hb : inputBias (set_sampleCount 0 gain_2)
               = DC_BIAS / 3.3 * MAX_ANALOG) by reflexivity.
  assert (Hr : analogRead full_scale
                 (analogReads (set_sampleCount 0 gain_2)) = 4095%Z)
    by reflexivity.
  assert (Hm : sampleMax (set_sampleCount 0 gain_2) = 0) by reflexivity.
  assert (Hg : inputGain (set_sampleCount 0 gain_2) = 2) by reflexivity.
  rewrite Hb, Hr in E. split; [|exact Hg].
  unfold overshoot. rewrite Hm, Hg, E.
  pose proof bias_decay as Hd. unfold DC_BIAS, MAX_ANALOG in *.
  assert (Hp : 0 < (4095 - 1.65 / 3.3 * 4095) * (1 - biasLpAlpha)) by nra.
  rewrite (Rabs_pos_eq _ (Rlt_le _ _ Hp)). split; nra.
Qed.

Lemma overshoot_lowers (o o' : OrganVars) :
  overshoot o o' -> sampleMax o' = Rabs (rawSample o') ->
  inputGain o' * sampleMax o' = MAX_ANALOG / 2 -> inputGain o' < inputGain o.
Proof.
  intros [H1 H2] Hs Hp. rewrite <- Hs in H2.
  pose proof (Rabs_pos (rawSample o')) as H0. rewrite <- Hs in H0.
  unfold MAX_ANALOG in *.
  assert (Hs0 : 0 < sampleMax o').
  { destruct (Req_dec_T (sampleMax o') 0) as [Z|N]; [|lra].
    rewrite Z, Rmult_0_r in Hp. lra. }
  apply (Rmult_lt_reg_r (sampleMax o')); [exact Hs0 | lra].
Qed.

Lemma AGC_gain_peak_bounded_witness :
  sampleMax gain_2 = 0 /\ 0 <= inputGain gain_2 /\
  exists o o' w,
    sampling_loop full_scale 0 (set_sampleCount 0 gain_2) = Interrupted o /\
    sampling_loop full_scale 1 (set_sampleCount 0 gain_2) = Interrupted o' /\
    overshoot o o' /\
    inputGain o = 2 /\ inputGain o' < 2 /\
    sampleMax o' = Rabs (rawSample o') /\
    inputGain o' = MAX_ANALOG / 2 / sampleMax o' /\
    inputGain o' * sampleMax o' = MAX_ANALOG / 2 /\
    Rabs (rawSample o' * inputGain o') <= MAX_ANALOG / 2 /\
    audioSample o' = rawSample o' * inputGain o' * w /\
    Rabs (audioSample o') <= MAX_ANALOG / 2.
Proof.
  assert (H1 : sampleMax gain_2 = 0) by reflexivity.
  assert (H2 : 0 <= inputGain gain_2) by (change (0 <= 2); lra).
  split; [exact H1|]. split; [exact H2|].
  destruct (AGC_gain_peak_bounded full_scale gain_2 0 H1 H2)
    as (o & o' & w & E0 & E1 & B1 & B2 & Ea & B3 & Hover);
    [unfold SAMPLE_SIZE; lia|].
  exists o, o', w.
  assert (Eo : set_sampleCount 0 gain_2 = o)
    by (cbn [sampling_loop] in E0; now injection E0).
  destruct (first_pass_overshoots o' E1) as [Ho Hg].
  rewrite Eo in Ho, Hg. destruct (Hover Ho) as (S1 & S2 & S3).
  pose proof (overshoot_lowers o o' Ho S1 S3) as Hl. rewrite Hg in Hl.
  split; [exact E0|]. split; [exact E1|]. split; [exact Ho|].
  split; [exact Hg|]. split; [exact Hl|]. split; [exact S1|].
  split; [exact S2|]. split; [exact S3|]. split; [exact B2|].
  split; [exact Ea | exact B3].
Defined.

(** ** A channel a tenth under full scale, and one at full scale *)

Lemma channel_brightness_tenth (quiet : R) :
  below_floor RED_GAIN 81.9 = false /\
  channel_brightness RED_GAIN 81.9 quiet = Fin 51.
Proof.
  assert (Em : makeValid (RED_GAIN * 81.9) = 409.5).
  { unfold RED_GAIN. rewrite makeValid_id; unfold MAX_ANALOG; lra. }
  assert (Eb : below_floor RED_GAIN 81.9 = false).
  { rewrite below_floor_pos by (rewrite Em; lra).
    rewrite Em, dB_tenth. apply flt_false. lra. }
  split; [exact Eb|].
  rewrite channel_brightness_substituted. unfold substituted.
  rewrite Eb, Em, dB_scale_pos by lra. now rewrite dB_tenth.
Qed.

Lemma channel_brightness_full (quiet : R) :
  channel_brightness RED_GAIN 819 quiet = Fin 255.
Proof.
  assert (Em : makeValid (RED_GAIN * 819) = 4095).
  { unfold RED_GAIN. rewrite makeValid_id; unfold MAX_ANALOG; lra. }
  assert (Ed : dB 4095 = 255).
  { rewrite dB_linear. unfold MAX_ANALOG.
    replace (4095 / 4095) with 1 by lra. rewrite ln_1. lra. }
  assert (Eb : below_floor RED_GAIN 819 = false).
  { rewrite below_floor_pos by (rewrite Em; lra).
    rewrite Em, Ed. apply flt_false. lra. }
  rewrite channel_brightness_substituted. unfold substituted.
  rewrite Eb, Em, dB_scale_pos by lra. now rewrite Ed.
Qed.

Lemma quiet_8bit_0 : quiet_8bit 0 = 0.
Proof.
  unfold quiet_8bit.
  assert (H : (0 <= round (0 / 16.6) <= 0)%Z)
    by (apply round_bounds; [lia | lra | lra]).
  replace (round (0 / 16.6)) with 0%Z by lia. reflexivity.
Qed.

Lemma channel_brightness_5 (quiet : R) :
  below_floor BLUE_GAIN peak_5 = false /\
  channel_brightness BLUE_GAIN peak_5 quiet = Fin 5.
Proof.
  pose proof ln10_pos as H10.
  destruct (Rpower_10_neg (250 / 204)) as [P0 P1]; [lra|].
  assert (Eb : BLUE_GAIN * peak_5 = MAX_ANALOG * Rpower 10 (- (250 / 204)))
    by (unfold peak_5, BLUE_GAIN; field).
  assert (Hb : 0 < BLUE_GAIN * peak_5 <= MAX_ANALOG)
    by (rewrite Eb; unfold MAX_ANALOG; split; nra).
  assert (Ed : dB (BLUE_GAIN * peak_5) = 5).
  { rewrite dB_linear, Eb.
    replace (MAX_ANALOG * Rpower 10 (- (250 / 204)) / MAX_ANALOG)
      with (Rpower 10 (- (250 / 204))) by (unfold MAX_ANALOG; field).
    unfold Rpower. rewrite ln_exp.
    assert (Hq : forall y, y * ln 10 / ln 10 = y) by (intros y; field; lra).
    rewrite Hq. lra. }
  assert (Em : makeValid (BLUE_GAIN * peak_5) = BLUE_GAIN * peak_5)
    by (apply makeValid_id; lra).
  assert (Ef : below_floor BLUE_GAIN peak_5 = false).
  { rewrite below_floor_pos by (rewrite Em; lra).
    rewrite Em, Ed. apply flt_false. lra. }
  split; [exact Ef|].
  rewrite channel_brightness_substituted. unfold substituted.
  rewrite Ef, Em, dB_scale_pos by lra. now rewrite Ed.
Qed.

Lemma peak_5_lt : peak_5 < peak_5_5.
Proof.
  unfold peak_5, peak_5_5, Rpower, BLUE_GAIN, MAX_ANALOG.
  pose proof ln10_pos as H10.
  assert (H : exp (- (250 / 204) * ln 10) < exp (- (249.5 / 204) * ln 10))
    by (apply exp_increasing; nra).
  lra.
Qed.

Lemma organ_rgb_blue_5 :
  organ_rgb blue_5 83 83 0 = (Fin 5, Fin 5, Fin (5 + 1)).
Proof.
  unfold organ_rgb. cbn [peakRed peakGreen peakBlue blue_5]. cbv zeta.
  rewrite (channel_brightness_below _ _ 83 (below_floor_0 RED_GAIN)),
    (channel_brightness_below _ _ 83 (below_floor_0 GREEN_GAIN)),
    (proj2 (channel_brightness_5 0)), quiet_8bit_83.
  replace (dim_white (Fin 5) (Fin 5) (Fin 5)) with true; [reflexivity|].
  symmetry. unfold dim_white. cbn [xeq xlt]. unfold feq, flt.
  destruct (Req_dec_T 5 5); [|lra].
  destruct (Rlt_dec 5 23); [|lra].
  destruct (Req_dec_T 5 0); [lra | reflexivity].
Qed.

Lemma organ_rgb_blue_5_5 :
  organ_rgb blue_5_5 83 83 0 = (Fin 5, Fin 5, Fin 5.5).
Proof.
  unfold organ_rgb. cbn [peakRed peakGreen peakBlue blue_5_5]. cbv zeta.
  rewrite (channel_brightness_below _ _ 83 (below_floor_0 RED_GAIN)),
    (channel_brightness_below _ _ 83 (below_floor_0 GREEN_GAIN)),
    channel_brightness_5_5, quiet_8bit_83.
  replace (dim_white (Fin 5) (Fin 5) (Fin 5.5)) with false; [reflexivity|].
  symmetry. unfold dim_white. cbn [xeq xlt]. unfold feq.
  destruct (Req_dec_T 5 5); [|lra].
  destruct (Req_dec_T 5 5.5); [lra | reflexivity].
Qed.

(** The lift of blue is not monotone either: with red and green at the
    quiet colour 5, a blue peak of 5 on the dB scale, above the floor, is
    sent as 6, and a louder one of 5.5 as 5.5, which is cast to 5. *)
Lemma blue_lift_not_monotone :
  peakBlue blue_5 < peakBlue blue_5_5 /\
  below_floor BLUE_GAIN (peakBlue blue_5) = false /\
  organ_rgb blue_5 83 83 0 = (Fin 5, Fin 5, Fin (5 + 1)) /\
  organ_rgb blue_5_5 83 83 0 = (Fin 5, Fin 5, Fin 5.5) /\
  5.5 < 5 + 1.
Proof.
  split; [exact peak_5_lt|].
  split; [exact (proj1 (channel_brightness_5 0))|].
  split; [exact organ_rgb_blue_5|]. split; [exact organ_rgb_blue_5_5 | lra].
Qed.

Lemma channel_brightness_range_mono_witness :
  0 <= RED_GAIN /\ 81.9 <= 819 /\
  below_floor RED_GAIN 81.9 = false /\ quiet_8bit 0 = 0 /\
  (exists v1 v2,
     channel_brightness RED_GAIN 81.9 0 = Fin v1 /\
     channel_brightness RED_GAIN 819 0 = Fin v2 /\
     v1 = 51 /\ v2 = 255 /\ v1 <= v2) /\
  (exists vr vg vb lift,
     organ_rgb blue_5 83 83 0 = (Fin vr, Fin vg, Fin (vb + lift)) /\
     vr = 5 /\ vg = 5 /\ vb = 5 /\ lift = 1 /\ 0 <= vb + lift <= 255).
Proof.
  assert (H1 : 0 <= RED_GAIN) by (unfold RED_GAIN; lra).
  assert (H2 : 81.9 <= 819) by lra.
  destruct (channel_brightness_tenth 0) as [Hf E51].
  pose proof (channel_brightness_full 0) as E255.
  split; [exact H1|]. split; [exact H2|]. split; [exact Hf|].
  split; [exact quiet_8bit_0|].
  destruct (channel_brightness_range_mono RED_GAIN 0 81.9 819 blue_5 83 83 0
              H1 H2)
    as [(v1 & v2 & E1 & E2 & _ & _ & M1 & _)
        (vr & vg & vb & lift & Er & Eg & Eb & Eo & L1 & _ & _ & _ & _ & R)].
  split.
  - exists v1, v2. split; [exact E1|]. split; [exact E2|].
    rewrite E51 in E1. rewrite E255 in E2.
    injection E1 as <-. injection E2 as <-.
    split; [reflexivity|]. split; [reflexivity|]. exact (M1 Hf).
  - exists vr, vg, vb, lift. split; [exact Eo|].
    cbn [peakRed peakGreen peakBlue blue_5] in Er, Eg, Eb.
    rewrite (channel_brightness_below _ _ 83 (below_floor_0 RED_GAIN)),
      quiet_8bit_83 in Er.
    rewrite (channel_brightness_below _ _ 83 (below_floor_0 GREEN_GAIN)),
      quiet_8bit_83 in Eg.
    rewrite (proj2 (channel_brightness_5 0)) in Eb.
    injection Er as <-. injection Eg as <-. injection Eb as <-.
    split; [reflexivity|]. split; [reflexivity|]. split; [reflexivity|].
    split; [apply L1; lra | exact R].
Defined.

(** ** Solid blue on its way to the LEDs *)

Lemma quantize_blue : quantize (shade 1 1 (Hue 0)) = CRGB.mk 0 0 247.
Proof.
  rewrite Hue_ends by lra. unfold shade, pure_blue.
  cbn [float_RGB.r float_RGB.g float_RGB.b].
  replace (((1 - 1) * MAX_ANALOG + 1 * 0) * 1) with 0 by lra.
  replace (((1 - 1) * MAX_ANALOG + 1 * MAX_ANALOG) * 1) with MAX_ANALOG
    by lra.
  rewrite !makeValid_id by (unfold MAX_ANALOG; lra).
  unfold quantize. cbn [float_RGB.r float_RGB.g float_RGB.b].
  assert (H0 : (0 <= round (0 / 16.6) <= 0)%Z)
    by (apply round_bounds; [lia | lra | lra]).
  assert (H247 : (247 <= round (MAX_ANALOG / 16.6) <= 247)%Z)
    by (unfold MAX_ANALOG; apply round_bounds; [lia | lra | lra]).
  replace (round (0 / 16.6)) with 0%Z by lia.
  replace (round (MAX_ANALOG / 16.6)) with 247%Z by lia.
  reflexivity.
Qed.

Lemma ShowBuffer_at_most_247_witness :
  Forall valid_RGB (buffer (CreateSolidColor 0 1 1 power_up)) /\
  Forall (at_most 247) (leds (ShowBuffer (CreateSolidColor 0 1 1 power_up))) /\
  leds (ShowBuffer (CreateSolidColor 0 1 1 power_up))
    = repeat (CRGB.mk 0 0 247) TOTAL_LEDS.
Proof.
  assert (H : Forall valid_RGB (buffer (CreateSolidColor 0 1 1 power_up)))
    by apply valid_CreateSolidColor.
  split; [exact H|]. split.
  - exact (proj1 ShowBuffer_at_most_247 (CreateSolidColor 0 1 1 power_up) H).
  - rewrite leds_solid. now rewrite quantize_blue.
Defined.
